(** * Search Console batch reports: aggregation, period comparison, batch runner

    A shallow embedding of the three scripts of the repository

    - [keyword_performance.py]          (single-period keyword report),
    - [page_performance_comparison.py]  (current period against previous period),
    - [page_indexing.py]                (URL inspection report),

    together with the properties their specification states about them.

    Conventions of the embedding.

    - A Python [float] is an exact rational ([Q]); equations between floats
      are stated with [==].  The rounding error of binary floating point is
      outside the model, and so are the infinities and NaN: every number
      of a reply is finite.
    - A Python [str] is the list of its Unicode code points ([pystr]).
    - A Python [dict] is a [gmap]; a [set] is a [gset].
    - [datetime.date] is a record of year, month and day; the calendar
      functions follow the reference implementation of the [datetime] and
      [calendar] modules.
    - Exceptions are the [Raise] results of the [result] type; code with
      effects (service requests, console output, sleeping, CSV rows) runs in
      a state-and-error monad over a [world]. *)

From Stdlib Require Import ZArith QArith Qround Qabs Qminmax Lia Lqa List Bool String Ascii.
From Stdlib Require Import FunInd Recdef DecimalString.
From stdpp Require Import base option list gmap sets strings.

Local Open Scope Z_scope.

(** ** Exceptions and results *)

Inductive exit_reason :=
| ExitCode (code : Z)
| ExitNoSiteUrl
| ExitNoTargets.

(** A Python [str]: the list of its code points. *)
Abbreviation pystr := (list N).

(** What an [HttpError] carries: the HTTP status, when the client library
    exposes it ([getattr(e, "status_code", None)]), and the text [str(e)]. *)
Record http_error := mk_http_error {
  status_code : option Z;
  error_text : pystr
}.

Inductive exn :=
| FileNotFoundError
| ValueError
| OverflowError
| ZeroDivisionError
| SystemExit (why : exit_reason)
| HttpError (e : http_error)
| OtherException (text : pystr).

(** [SystemExit] derives from [BaseException] only: [except Exception] does
    not catch it. *)
Definition is_Exception (e : exn) : bool :=
  match e with
  | SystemExit _ => false
  | _ => true
  end.

Inductive result (A : Type) :=
| Ok (a : A)
| Raise (e : exn).
Arguments Ok {A} a.
Arguments Raise {A} e.

(** ** The calendar ([datetime.date], [calendar.monthrange]) *)

Module Calendar.

Record date := mkdate { year : Z; month : Z; day : Z }.

Definition MINYEAR : Z := 1.
Definition MAXYEAR : Z := 9999.
Definition MAXORDINAL : Z := 3652059.

Definition isleap (y : Z) : bool :=
  (y mod 4 =? 0) && (negb (y mod 100 =? 0) || (y mod 400 =? 0)).

(** [calendar.mdays] / [_DAYS_IN_MONTH]; entry 0 is the placeholder. *)
Definition mdays (m : Z) : Z :=
  match m with
  | 1 => 31 | 2 => 28 | 3 => 31 | 4 => 30 | 5 => 31 | 6 => 30
  | 7 => 31 | 8 => 31 | 9 => 30 | 10 => 31 | 11 => 30 | 12 => 31
  | _ => 0
  end.

(** [_DAYS_BEFORE_MONTH]: days of the non-leap year before month [m]. *)
Definition days_before_month_tbl (m : Z) : Z :=
  match m with
  | 1 => 0 | 2 => 31 | 3 => 59 | 4 => 90 | 5 => 120 | 6 => 151
  | 7 => 181 | 8 => 212 | 9 => 243 | 10 => 273 | 11 => 304 | 12 => 334
  | _ => 0
  end.

Definition b2z (b : bool) : Z := if b then 1 else 0.

(** [calendar.monthrange(y, m)[1]] for [1 <= m <= 12]. *)
Definition days_in_month (y m : Z) : Z :=
  mdays m + b2z ((m =? 2) && isleap y).

Definition days_before_year (y : Z) : Z :=
  let y1 := y - 1 in y1 * 365 + y1 / 4 - y1 / 100 + y1 / 400.

Definition days_before_month (y m : Z) : Z :=
  days_before_month_tbl m + b2z ((2 <? m) && isleap y).

Definition ymd2ord (y m d : Z) : Z :=
  days_before_year y + days_before_month y m + d.

Definition DI400Y : Z := 146097.
Definition DI100Y : Z := 36524.
Definition DI4Y : Z := 1461.

Definition ord2ymd (n : Z) : date :=
  let n := n - 1 in
  let n400 := n / DI400Y in
  let n := n mod DI400Y in
  let y := n400 * 400 + 1 in
  let n100 := n / DI100Y in
  let n := n mod DI100Y in
  let n4 := n / DI4Y in
  let n := n mod DI4Y in
  let n1 := n / 365 in
  let n := n mod 365 in
  let y := y + (n100 * 100 + n4 * 4 + n1) in
  if (n1 =? 4) || (n100 =? 4) then mkdate (y - 1) 12 31
  else
    let leapyear := (n1 =? 3) && (negb (n4 =? 24) || (n100 =? 3)) in
    let m := Z.shiftr (n + 50) 5 in
    let preceding := days_before_month_tbl m + b2z ((2 <? m) && leapyear) in
    if n <? preceding then
      let m := m - 1 in
      let preceding := preceding - (mdays m + b2z ((m =? 2) && leapyear)) in
      mkdate y m (n - preceding + 1)
    else mkdate y m (n - preceding + 1).

(** The invariant of a [date] object: what the constructor checks. *)
Definition valid_date (d : date) : bool :=
  (MINYEAR <=? year d) && (year d <=? MAXYEAR) &&
  (1 <=? month d) && (month d <=? 12) &&
  (1 <=? day d) && (day d <=? days_in_month (year d) (month d)).

(** [date(y, m, d)] *)
Definition date_new (y m d : Z) : result date :=
  if valid_date (mkdate y m d) then Ok (mkdate y m d) else Raise ValueError.

Definition toordinal (d : date) : Z := ymd2ord (year d) (month d) (day d).

(** [d + timedelta(days=n)] *)
Definition date_add_days (d : date) (n : Z) : result date :=
  let o := toordinal d + n in
  if (0 <? o) && (o <=? MAXORDINAL) then Ok (ord2ymd o) else Raise OverflowError.

(** [d - timedelta(days=n)] *)
Definition date_sub_days (d : date) (n : Z) : result date :=
  date_add_days d (- n).

(** [(d1 - d2).days] *)
Definition date_diff_days (d1 d2 : date) : Z := toordinal d1 - toordinal d2.

(** [d1 < d2]: comparison of [(year, month, day)]. *)
Definition date_ltb (d1 d2 : date) : bool :=
  (year d1 <? year d2) ||
  ((year d1 =? year d2) &&
   ((month d1 <? month d2) ||
    ((month d1 =? month d2) && (day d1 <? day d2)))).

Definition date_leb (d1 d2 : date) : bool := negb (date_ltb d2 d1).

(** Checking a range of ordinals by computation. *)
Fixpoint forall_range (P : Z -> bool) (fuel : nat) (a : Z) : bool :=
  match fuel with
  | O => true
  | S f => P a && forall_range P f (a + 1)
  end.

Definition add_years (k : Z) (d : date) : date :=
  mkdate (year d + k) (month d) (day d).

(** What is checked on the ordinals of one 400-year cycle. *)
Definition cycle_ord_ok (n : Z) : bool :=
  let d := ord2ymd n in
  (toordinal d =? n) &&
  (1 <=? year d) && (year d <=? 400) &&
  (1 <=? month d) && (month d <=? 12) &&
  (1 <=? day d) && (day d <=? days_in_month (year d) (month d)) &&
  ((145731 <? n) || (year d <=? 399)).

End Calendar.

Import Calendar.

(** ** Strings *)

Definition of_string (s : string) : pystr :=
  map N_of_ascii (list_ascii_of_string s).

(** [str.isspace] on one character: the code points Python treats as
    whitespace, which are the ones [str.strip()] removes. *)
Definition isspace (c : N) : bool :=
  ((9 <=? c) && (c <=? 13) ||
   (28 <=? c) && (c <=? 32) ||
   (c =? 133) || (c =? 160) || (c =? 5760) ||
   (8192 <=? c) && (c <=? 8202) ||
   (c =? 8232) || (c =? 8233) || (c =? 8239) || (c =? 8287) ||
   (c =? 12288))%N.

Fixpoint lstrip (s : pystr) : pystr :=
  match s with
  | [] => []
  | c :: s' => if isspace c then lstrip s' else s
  end.

Definition rstrip (s : pystr) : pystr := rev (lstrip (rev s)).

(** [s.strip()] *)
Definition strip (s : pystr) : pystr := rstrip (lstrip s).

(** [s.startswith(prefix)] *)
Fixpoint startswith (s prefix : pystr) : bool :=
  match prefix, s with
  | [], _ => true
  | _ :: _, [] => false
  | p :: prefix', c :: s' => (c =? p)%N && startswith s' prefix'
  end.

(** The truth value of a string: [not s] holds for the empty string. *)
Definition str_truthy (s : pystr) : bool :=
  match s with [] => false | _ :: _ => true end.

Definition digit (n : Z) : N := (48 + Z.to_N (n mod 10))%N.

(** [d.isoformat()], that is [%04d-%02d-%02d]. *)
Definition isoformat (d : date) : pystr :=
  [digit (year d / 1000); digit (year d / 100); digit (year d / 10); digit (year d);
   45%N; digit (month d / 10); digit (month d);
   45%N; digit (day d / 10); digit (day d)].

(** ** Numbers *)

(** [a > b] on floats *)
Definition Qgtb (a b : Q) : bool := negb (Qle_bool a b).

(** [round(x)] on a float: the nearest integer, ties to the even one. *)
Definition py_round (x : Q) : Z :=
  let f := Qfloor x in
  match (x - inject_Z f ?= 1 # 2)%Q with
  | Lt => f
  | Gt => f + 1
  | Eq => if Z.even f then f else f + 1
  end.

(** [round(x, nd)] on a float, for a non-negative number of digits. *)
Definition py_round_nd (x : Q) (nd : Z) : Q :=
  (inject_Z (py_round (x * inject_Z (10 ^ nd))) / inject_Z (10 ^ nd))%Q.

(** A Python number: the scripts mix the [int] literal [0] with floats. *)
Inductive pynum :=
| PInt (z : Z)
| PFloat (q : Q).

(** [round(x, nd)]: an [int] stays the same [int] for [nd >= 0]. *)
Definition num_round_nd (x : pynum) (nd : Z) : pynum :=
  match x with
  | PInt z => PInt z
  | PFloat q => PFloat (py_round_nd q nd)
  end.

(** [a / b] on floats *)
Definition truediv (a b : Q) : result Q :=
  if Qeq_bool b 0 then Raise ZeroDivisionError else Ok (a / b)%Q.

(** ** CSV rows *)

(** A value handed to [csv.DictWriter]. The empty string is the empty cell. *)
Inductive cell :=
| CStr (s : pystr)
| CInt (z : Z)
| CFloat (q : Q).

Definition empty_cell : cell := CStr [].

Definition is_empty_cell (c : cell) : bool :=
  match c with
  | CStr [] => true
  | _ => false
  end.

Definition cell_of_num (x : pynum) : cell :=
  match x with
  | PInt z => CInt z
  | PFloat q => CFloat q
  end.

(** The dictionary passed to [writer.writerow]. *)
Abbreviation row := (gmap string cell).

(** ** The remote service and the world the scripts run in *)

(** One row of a Search Analytics response: a JSON object of numbers. *)
Abbreviation apirow := (gmap string Q).

(** [float(r.get(k, 0))] *)
Definition getf (r : apirow) (k : string) : Q := default 0%Q (r !! k).

(** The response of [searchanalytics().query(...).execute()]; the key
    ["rows"] is absent when nothing matched. *)
Record response := mk_response { resp_rows : option (list apirow) }.

(** [resp.get("rows", []) or []] *)
Definition rows_of (resp : response) : list apirow := default [] (resp_rows resp).

(** The request body of a Search Analytics query. *)
Record query_body := mk_query_body {
  startDate : pystr;
  endDate : pystr;
  dimension : string;
  operator : pystr;
  expression : pystr;
  rowLimit : Z
}.

Record inspect_body := mk_inspect_body {
  inspectionUrl : pystr;
  siteUrl : pystr;
  languageCode : pystr
}.

(** [inspectionResult.indexStatusResult] of a URL inspection response. *)
Record index_status := mk_index_status {
  status_fields : gmap string pystr;
  referringUrls : option (list pystr)
}.

Record inspect_response := mk_inspect_response {
  indexStatusResult : option index_status
}.

Abbreviation site_entry := (gmap string pystr).

(** What [execute()] comes back with: the response, or the error signal of
    the service (transient or permanent), which the client library raises
    as [HttpError], or any other exception (a failure of the transport
    below the service, an answer that cannot be decoded), of which only
    the text is kept. *)
Inductive reply (A : Type) :=
| Reply (a : A)
| Failure (e : http_error)
| Crashed (text : pystr).
Arguments Reply {A} a.
Arguments Failure {A} e.
Arguments Crashed {A} text.

(** The same three outcomes for a URL inspection. *)
Inductive inspect_reply :=
| InspectReply (r : inspect_response)
| InspectHttpError (e : http_error)
| InspectException (text : pystr).

(** The service is an arbitrary state machine: every request may depend on
    all the requests made before it. *)
Class Service := {
  svc_state : Type;
  sites_list : svc_state -> reply (list site_entry) * svc_state;
  searchanalytics_query : pystr -> query_body -> svc_state -> reply response * svc_state;
  index_inspect : inspect_body -> svc_state -> inspect_reply * svc_state
}.

(** Console output that the properties below refer to. *)
Inductive message :=
| MsgCouldNotList (e : http_error)
| MsgProperties (sites : list site_entry)
| MsgRetentionWarning (earliest cur_start prev_start : date)
| MsgPreviousPeriod (prev_start prev_end : date) (days : Z)
| MsgHttpError (target : pystr) (e : http_error)
| MsgProgress (i total : Z)
| MsgDone.

(** The observable effects, in the order they happen. *)
Inductive event :=
| EvListSites
| EvQuery (site_url : pystr) (body : query_body)
| EvInspect (body : inspect_body)
| EvSleep (seconds : Q)
| EvPrint (m : message)
| EvWriteHeader (fieldnames : list string)
| EvWriteRow (r : row).

(** What a path that exists holds: the lines of a text file, or something
    that [open] or the decoding of the lines fails on (a directory, a file
    without read permission, bytes that are not UTF-8); of the exception
    raised then ([IsADirectoryError], [PermissionError],
    [UnicodeDecodeError]) only the text is kept. *)
Inductive file :=
| Lines (lines : list pystr)
| Unreadable (text : pystr).

(** The paths for which [os.path.exists] holds, with what they hold. *)
Abbreviation filesystem := (gmap pystr file).

(** What is outside the program: the clock, the files, and [strptime]. *)
Record env := mk_env {
  today : date;
  files : filesystem;
  strptime_ymd : pystr -> option date
}.

Section Runtime.
Context `{Service}.

Record world := mk_world {
  w_svc : svc_state;
  w_trace : list event
}.

(** State and exceptions. *)
Definition M (A : Type) : Type := world -> result A * world.

Definition ret {A} (a : A) : M A := fun w => (Ok a, w).

Definition bind {A B} (m : M A) (k : A -> M B) : M B :=
  fun w =>
    match m w with
    | (Ok a, w') => k a w'
    | (Raise e, w') => (Raise e, w')
    end.

Definition raise {A} (e : exn) : M A := fun w => (Raise e, w).

Definition lift {A} (r : result A) : M A := fun w => (r, w).

Definition emit (e : event) : M unit :=
  fun w => (Ok tt, mk_world (w_svc w) (w_trace w ++ [e])).

Definition print (m : message) : M unit := emit (EvPrint m).

(** [time.sleep(seconds)] *)
Definition sleep (seconds : Q) : M unit := emit (EvSleep seconds).

(** [writer.writerow(r)] *)
Definition writerow (r : row) : M unit := emit (EvWriteRow r).

(** [try: body  except HttpError as e: handler(e)] *)
Definition try_except_HttpError {A} (body : M A) (handler : http_error -> M A) : M A :=
  fun w =>
    match body w with
    | (Raise (HttpError e), w') => handler e w'
    | other => other
    end.

(** [try: body  except HttpError as e: h1(e)  except Exception as e: h2(e)] *)
Definition try_except_HttpError_Exception {A} (body : M A)
    (h1 : http_error -> M A) (h2 : exn -> M A) : M A :=
  fun w =>
    match body w with
    | (Raise (HttpError e), w') => h1 e w'
    | (Raise x, w') => if is_Exception x then h2 x w' else (Raise x, w')
    | other => other
    end.

(** [service.sites().list().execute().get("siteEntry", []) or []] *)
Definition call_sites_list : M (list site_entry) :=
  fun w =>
    let '(r, s) := sites_list (w_svc w) in
    let w' := mk_world s (w_trace w ++ [EvListSites]) in
    match r with
    | Reply sites => (Ok sites, w')
    | Failure e => (Raise (HttpError e), w')
    | Crashed text => (Raise (OtherException text), w')
    end.

(** [service.searchanalytics().query(siteUrl=site_url, body=body).execute()] *)
Definition call_query (site_url : pystr) (body : query_body) : M response :=
  fun w =>
    let '(r, s) := searchanalytics_query site_url body (w_svc w) in
    let w' := mk_world s (w_trace w ++ [EvQuery site_url body]) in
    match r with
    | Reply resp => (Ok resp, w')
    | Failure e => (Raise (HttpError e), w')
    | Crashed text => (Raise (OtherException text), w')
    end.

End Runtime.

Declare Scope py_scope.
Delimit Scope py_scope with py.
Notation "x <- m ;; k" := (bind m (fun x => k))
  (at level 100, m at next level, right associativity) : py_scope.
Notation "m ;; k" := (bind m (fun _ => k))
  (at level 100, right associativity) : py_scope.

Local Open Scope py_scope.

(** ** Loading the target list
    ([read_list] of [keyword_performance.py], [read_url_list] of
    [page_performance_comparison.py], [read_urls] of [page_indexing.py]) *)

(** The first loop: [for line in f], appending to the list read so far. *)
Fixpoint collect_lines (lines : list pystr) (items : list pystr) : list pystr :=
  match lines with
  | [] => items
  | line :: rest =>
      let v := strip line in
      if negb (str_truthy v) || startswith v (of_string "#")
      then collect_lines rest items
      else collect_lines rest (items ++ [v])
  end.

(** The second loop: de-duplication with the set [seen]. *)
Fixpoint dedup_loop (items : list pystr) (seen : gset pystr) (out : list pystr)
    : list pystr :=
  match items with
  | [] => out
  | v :: rest =>
      if decide (v ∈ seen) then dedup_loop rest seen out
      else dedup_loop rest ({[v]} ∪ seen) (out ++ [v])
  end.

Definition read_list (fs : filesystem) (path : pystr) : result (list pystr) :=
  match fs !! path with
  | None => Raise FileNotFoundError
  | Some (Unreadable text) => Raise (OtherException text)
  | Some (Lines lines) =>
      let items := collect_lines lines [] in
      Ok (dedup_loop items ∅ [])
  end.

Definition read_url_list (fs : filesystem) (path : pystr) : result (list pystr) :=
  match fs !! path with
  | None => Raise FileNotFoundError
  | Some (Unreadable text) => Raise (OtherException text)
  | Some (Lines lines) =>
      let urls := collect_lines lines [] in
      Ok (dedup_loop urls ∅ [])
  end.

Definition read_urls (fs : filesystem) (path : pystr) : result (list pystr) :=
  match fs !! path with
  | None => Raise FileNotFoundError
  | Some (Unreadable text) => Raise (OtherException text)
  | Some (Lines lines) =>
      let urls := collect_lines lines [] in
      Ok (dedup_loop urls ∅ [])
  end.

(** ** The date window ([page_performance_comparison.py]) *)

(** [while m <= 0: m += 12; y -= 1] *)
Function wrap_month (ym : Z * Z) {measure (fun ym => Z.to_nat (1 - snd ym)) ym} : Z * Z :=
  let (y, m) := ym in
  if m <=? 0 then wrap_month (y - 1, m + 12) else (y, m).
Proof. intros ym y m -> Hm. simpl. apply Z.leb_le in Hm. lia. Defined.

Definition subtract_months (d : date) (months : Z) : result date :=
  let (y, m) := wrap_month (year d, month d - months) in
  let last_day := days_in_month y m in
  date_new y m (Z.min (day d) last_day).

Definition earliest_gsc_date (today : date) : result date :=
  subtract_months today 16.

Definition compute_previous_period (cur_start cur_end : date)
    : result (date * date * Z) :=
  if date_ltb cur_end cur_start then Raise ValueError
  else
    let days_inclusive := date_diff_days cur_end cur_start + 1 in
    match date_sub_days cur_start 1 with
    | Raise e => Raise e
    | Ok prev_end =>
        match date_sub_days prev_end (days_inclusive - 1) with
        | Raise e => Raise e
        | Ok prev_start => Ok (prev_start, prev_end, days_inclusive)
        end
    end.

Definition parse_yyyy_mm_dd (E : env) (s : pystr) : result date :=
  match strptime_ymd E s with
  | Some d => Ok d
  | None => Raise ValueError
  end.

(** ** Change calculations ([page_performance_comparison.py]) *)

Definition pct_change (current previous : Q) : option Q :=
  if Qeq_bool previous 0 then
    (if Qeq_bool current 0 then Some 0%Q else None)
  else Some (((current - previous) / previous) * 100)%Q.

(** ["" if pct is None else round(pct, 2)] *)
Definition pct_cell (pct : option Q) : cell :=
  match pct with
  | None => CStr []
  | Some v => CFloat (py_round_nd v 2)
  end.

(** The dictionary returned by [fetch_page_metrics]. *)
Record metrics := mk_metrics {
  clicks : Q;
  impressions : Q;
  ctr : Q;
  position : Q
}.

Definition comparison_fieldnames : list string :=
  ["page_url"; "site_url"; "current_start"; "current_end";
   "previous_start"; "previous_end";
   "clicks_current"; "clicks_previous"; "clicks_change_abs"; "clicks_change_pct";
   "impressions_current"; "impressions_previous";
   "impressions_change_abs"; "impressions_change_pct";
   "ctr_current"; "ctr_previous"; "position_current"; "position_previous"]%string.

(** The columns of the comparison report that hold metrics. *)
Definition comparison_metric_fields : list string :=
  ["clicks_current"; "clicks_previous"; "clicks_change_abs"; "clicks_change_pct";
   "impressions_current"; "impressions_previous";
   "impressions_change_abs"; "impressions_change_pct";
   "ctr_current"; "ctr_previous"; "position_current"; "position_previous"]%string.

(** The strings every row of one comparison run shares. *)
Record periods := mk_periods {
  site_url : pystr;
  cur_start_s : pystr;
  cur_end_s : pystr;
  prev_start_s : pystr;
  prev_end_s : pystr
}.

(** The row written when both fetches succeeded. *)
Definition comparison_row (P : periods) (page_url : pystr) (cur prev : metrics) : row :=
  let clicks_cur := clicks cur in
  let clicks_prev := clicks prev in
  let impr_cur := impressions cur in
  let impr_prev := impressions prev in
  let clicks_abs := (clicks_cur - clicks_prev)%Q in
  let impr_abs := (impr_cur - impr_prev)%Q in
  let clicks_pct := pct_change clicks_cur clicks_prev in
  let impr_pct := pct_change impr_cur impr_prev in
  list_to_map
    [("page_url", CStr page_url); ("site_url", CStr (site_url P));
     ("current_start", CStr (cur_start_s P)); ("current_end", CStr (cur_end_s P));
     ("previous_start", CStr (prev_start_s P)); ("previous_end", CStr (prev_end_s P));
     ("clicks_current", CInt (py_round clicks_cur));
     ("clicks_previous", CInt (py_round clicks_prev));
     ("clicks_change_abs", CInt (py_round clicks_abs));
     ("clicks_change_pct", pct_cell clicks_pct);
     ("impressions_current", CInt (py_round impr_cur));
     ("impressions_previous", CInt (py_round impr_prev));
     ("impressions_change_abs", CInt (py_round impr_abs));
     ("impressions_change_pct", pct_cell impr_pct);
     ("ctr_current", CFloat (py_round_nd (ctr cur) 6));
     ("ctr_previous", CFloat (py_round_nd (ctr prev) 6));
     ("position_current", CFloat (py_round_nd (position cur) 2));
     ("position_previous", CFloat (py_round_nd (position prev) 2))]%string.

(** The row written in the [except HttpError] branch. *)
Definition comparison_error_row (P : periods) (page_url : pystr) : row :=
  list_to_map
    [("page_url", CStr page_url); ("site_url", CStr (site_url P));
     ("current_start", CStr (cur_start_s P)); ("current_end", CStr (cur_end_s P));
     ("previous_start", CStr (prev_start_s P)); ("previous_end", CStr (prev_end_s P));
     ("clicks_current", CStr []); ("clicks_previous", CStr []);
     ("clicks_change_abs", CStr []); ("clicks_change_pct", CStr []);
     ("impressions_current", CStr []); ("impressions_previous", CStr []);
     ("impressions_change_abs", CStr []); ("impressions_change_pct", CStr []);
     ("ctr_current", CStr []); ("ctr_previous", CStr []);
     ("position_current", CStr []); ("position_previous", CStr [])]%string.

(** ** The keyword report ([keyword_performance.py], the body of [main]) *)

(** The three accumulators of the aggregation loop. *)
Record totals := mk_totals {
  total_clicks : Q;
  total_impr : Q;
  weighted_pos : Q
}.

(** One turn of [for r in rows]. *)
Definition add_row (t : totals) (r : apirow) : totals :=
  let c := getf r "clicks" in
  let im := getf r "impressions" in
  let pos := getf r "position" in
  mk_totals (total_clicks t + c)%Q (total_impr t + im)%Q (weighted_pos t + pos * im)%Q.

Definition sum_rows (rows : list apirow) : totals :=
  fold_left add_row rows (mk_totals 0 0 0).

(** What the loop and the two conditional expressions after it compute;
    [avg_pos] is [None] where the script stores the empty string. *)
Record aggregate := mk_aggregate {
  agg_clicks : Q;
  agg_impressions : Q;
  agg_ctr : pynum;
  avg_pos : option Q
}.

Definition aggregate_rows (rows : list apirow) : result aggregate :=
  let t := sum_rows rows in
  match (if Qgtb (total_impr t) 0
         then match truediv (total_clicks t) (total_impr t) with
              | Ok v => Ok (PFloat v)
              | Raise e => Raise e
              end
         else Ok (PInt 0)) with
  | Raise e => Raise e
  | Ok ctr =>
      match (if Qgtb (total_impr t) 0
             then match truediv (weighted_pos t) (total_impr t) with
                  | Ok v => Ok (Some v)
                  | Raise e => Raise e
                  end
             else Ok None) with
      | Raise e => Raise e
      | Ok avg => Ok (mk_aggregate (total_clicks t) (total_impr t) ctr avg)
      end
  end.

Definition keyword_fieldnames : list string :=
  ["keyword"; "clicks"; "impressions"; "ctr"; "position";
   "start_date"; "end_date"; "match_type"]%string.

Definition keyword_metric_fields : list string :=
  ["clicks"; "impressions"; "ctr"; "position"]%string.

(** The strings every row of one keyword run shares. *)
Record keyword_run := mk_keyword_run {
  kw_site_url : pystr;
  start_date : pystr;
  end_date : pystr;
  match_type : pystr
}.

(** The row written when the response has no rows. *)
Definition keyword_zero_row (K : keyword_run) (kw : pystr) : row :=
  list_to_map
    [("keyword", CStr kw); ("start_date", CStr (start_date K));
     ("end_date", CStr (end_date K)); ("match_type", CStr (match_type K));
     ("clicks", CInt 0); ("impressions", CInt 0); ("ctr", CInt 0);
     ("position", CStr [])]%string.

(** The row written after the aggregation. *)
Definition keyword_row (K : keyword_run) (kw : pystr) (a : aggregate) : row :=
  list_to_map
    [("keyword", CStr kw); ("start_date", CStr (start_date K));
     ("end_date", CStr (end_date K)); ("match_type", CStr (match_type K));
     ("clicks", CInt (py_round (agg_clicks a)));
     ("impressions", CInt (py_round (agg_impressions a)));
     ("ctr", cell_of_num (num_round_nd (agg_ctr a) 4));
     ("position", match avg_pos a with
                  | Some p => CFloat (py_round_nd p 2)
                  | None => CStr []
                  end)]%string.

(** The row written in the [except HttpError] branch. *)
Definition keyword_error_row (K : keyword_run) (kw : pystr) : row :=
  list_to_map
    [("keyword", CStr kw); ("start_date", CStr (start_date K));
     ("end_date", CStr (end_date K)); ("match_type", CStr (match_type K));
     ("clicks", CStr []); ("impressions", CStr []); ("ctr", CStr []);
     ("position", CStr [])]%string.

(** ** The inspection report ([page_indexing.py], the body of [main]) *)

Definition indexing_fieldnames : list string :=
  ["inspection_url"; "site_url"; "verdict"; "coverage_state"; "indexing_state";
   "robots_txt_state"; "page_fetch_state"; "crawled_as"; "last_crawl_time";
   "canonical_google"; "canonical_user"; "referring_urls_count"; "error"]%string.

(** The columns filled from the inspection result. *)
Definition indexing_result_fields : list string :=
  ["verdict"; "coverage_state"; "indexing_state";
   "robots_txt_state"; "page_fetch_state"; "crawled_as"; "last_crawl_time";
   "canonical_google"; "canonical_user"; "referring_urls_count"]%string.

(** [{k: "" for k in fieldnames}] *)
Definition blank_row (fieldnames : list string) : row :=
  list_to_map (map (fun k => (k, CStr [])) fieldnames).

(** [str(n)] for a length *)
Definition str_of_nat (n : nat) : pystr :=
  of_string (DecimalString.NilZero.string_of_uint (Nat.to_uint n)).

(** The assignments of the [try] block after the request returned. *)
Definition fill_row (r : row) (resp : inspect_response) : row :=
  let index_result := default (mk_index_status ∅ None) (indexStatusResult resp) in
  let get k := CStr (default [] (status_fields index_result !! k)) in
  let r := <["verdict" := get "verdict"]> r in
  let r := <["coverage_state" := get "coverageState"]> r in
  let r := <["indexing_state" := get "indexingState"]> r in
  let r := <["robots_txt_state" := get "robotsTxtState"]> r in
  let r := <["page_fetch_state" := get "pageFetchState"]> r in
  let r := <["crawled_as" := get "crawledAs"]> r in
  let r := <["last_crawl_time" := get "lastCrawlTime"]> r in
  let r := <["canonical_google" := get "googleCanonical"]> r in
  let r := <["canonical_user" := get "userCanonical"]> r in
  let refs := default [] (referringUrls index_result) in
  <["referring_urls_count" := CStr (str_of_nat (length refs))]> r.

(** [status in (429, 500, 503)] *)
Definition is_transient (status : option Z) : bool :=
  match status with
  | Some s => (s =? 429) || (s =? 500) || (s =? 503)
  | None => false
  end.

(** [min(10, 1 + (i % 5) * 1.5)] *)
Definition backoff (i : Z) : Q :=
  Qmin 10 (1 + inject_Z (i mod 5) * (3 # 2))%Q.

(** [delay_seconds = 0.15] *)
Definition delay_seconds : Q := (15 # 100)%Q.

(** [str(e)] of a caught exception *)
Definition exn_text (x : exn) : pystr :=
  match x with
  | HttpError e => error_text e
  | OtherException text => text
  | _ => []
  end.

(** ** The runners *)

(** What the user types at the prompts of the comparison script. *)
Record answers := mk_answers {
  ans_site_url : pystr;
  ans_cur_start : pystr;
  ans_cur_end : pystr;
  ans_urls_file : pystr
}.

Section Runners.
Context `{Service}.

(** *** [page_performance_comparison.py] *)

Definition enforce_16_month_window (E : env) (cur_start prev_start : date) : M unit :=
  earliest <- lift (earliest_gsc_date (today E)) ;;
  if date_ltb cur_start earliest || date_ltb prev_start earliest then
    print (MsgRetentionWarning earliest cur_start prev_start) ;;
    raise (SystemExit (ExitCode 1))
  else ret tt.

Definition fetch_page_metrics (site_url page_url start_date end_date : pystr)
    : M metrics :=
  let body := mk_query_body start_date end_date "page" (of_string "equals") page_url 1 in
  resp <- call_query site_url body ;;
  match rows_of resp with
  | [] => ret (mk_metrics 0 0 0 0)
  | r :: _ =>
      ret (mk_metrics (getf r "clicks") (getf r "impressions")
                      (getf r "ctr") (getf r "position"))
  end.

(** The body of [for i, page_url in enumerate(urls, start=1)]. *)
Definition compare_item (P : periods) (total i : Z) (page_url : pystr) : M unit :=
  try_except_HttpError
    (cur <- fetch_page_metrics (site_url P) page_url (cur_start_s P) (cur_end_s P) ;;
     prev <- fetch_page_metrics (site_url P) page_url (prev_start_s P) (prev_end_s P) ;;
     writerow (comparison_row P page_url cur prev))
    (fun e =>
       print (MsgHttpError page_url e) ;;
       writerow (comparison_error_row P page_url)) ;;
  if i mod 25 =? 0 then print (MsgProgress i total) else ret tt.

Fixpoint compare_loop (P : periods) (total i : Z) (urls : list pystr) : M unit :=
  match urls with
  | [] => ret tt
  | page_url :: rest =>
      compare_item P total i page_url ;;
      compare_loop P total (i + 1) rest
  end.

(** [main], from the listing of the properties on; the OAuth set-up of
    [get_service] and the banners printed between the steps are left out. *)
Definition main_compare (E : env) (a : answers) : M unit :=
  sites <- try_except_HttpError call_sites_list
             (fun e => print (MsgCouldNotList e) ;; ret []) ;;
  (match sites with
   | [] => ret tt
   | _ :: _ => print (MsgProperties sites)
   end) ;;
  let site_url := strip (ans_site_url a) in
  if negb (str_truthy site_url) then raise (SystemExit ExitNoSiteUrl)
  else
    let cur_start_s := strip (ans_cur_start a) in
    let cur_end_s := strip (ans_cur_end a) in
    cur_start <- lift (parse_yyyy_mm_dd E cur_start_s) ;;
    cur_end <- lift (parse_yyyy_mm_dd E cur_end_s) ;;
    prev <- lift (compute_previous_period cur_start cur_end) ;;
    let '(prev_start, prev_end, days_inclusive) := prev in
    let prev_start_s := isoformat prev_start in
    let prev_end_s := isoformat prev_end in
    enforce_16_month_window E cur_start prev_start ;;
    print (MsgPreviousPeriod prev_start prev_end days_inclusive) ;;
    let urls_file :=
      match strip (ans_urls_file a) with
      | [] => of_string "input/urls.txt"
      | f => f
      end in
    urls <- lift (read_url_list (files E) urls_file) ;;
    match urls with
    | [] => raise (SystemExit ExitNoTargets)
    | _ :: _ =>
        let P := mk_periods site_url cur_start_s cur_end_s prev_start_s prev_end_s in
        emit (EvWriteHeader comparison_fieldnames) ;;
        compare_loop P (Z.of_nat (length urls)) 1 urls ;;
        print MsgDone
    end.

(** *** [keyword_performance.py] *)

(** The body of [for kw in keywords]. *)
Definition keyword_item (K : keyword_run) (kw : pystr) : M unit :=
  let body := mk_query_body (start_date K) (end_date K) "query" (match_type K) kw 25000 in
  try_except_HttpError
    (resp <- call_query (kw_site_url K) body ;;
     match rows_of resp with
     | [] => writerow (keyword_zero_row K kw)
     | rows =>
         a <- lift (aggregate_rows rows) ;;
         writerow (keyword_row K kw a)
     end)
    (fun e =>
       print (MsgHttpError kw e) ;;
       writerow (keyword_error_row K kw)).

Fixpoint keyword_loop (K : keyword_run) (keywords : list pystr) : M unit :=
  match keywords with
  | [] => ret tt
  | kw :: rest => keyword_item K kw ;; keyword_loop K rest
  end.

(** *** [page_indexing.py] *)

(** [inspect_url(service, site_url, inspection_url, language_code)] *)
Definition inspect_url (site_url inspection_url language_code : pystr)
    : M inspect_response :=
  fun w =>
    let body := mk_inspect_body inspection_url site_url language_code in
    let '(r, s) := index_inspect body (w_svc w) in
    let w' := mk_world s (w_trace w ++ [EvInspect body]) in
    match r with
    | InspectReply resp => (Ok resp, w')
    | InspectHttpError e => (Raise (HttpError e), w')
    | InspectException text => (Raise (OtherException text), w')
    end.

(** The body of [for i, u in enumerate(urls, start=1)]. *)
Definition indexing_item (site_url language_code : pystr) (total i : Z) (u : pystr)
    : M unit :=
  let r := blank_row indexing_fieldnames in
  let r := <["inspection_url" := CStr u]> r in
  let r := <["site_url" := CStr site_url]> r in
  r <- try_except_HttpError_Exception
         (resp <- inspect_url site_url u language_code ;;
          ret (fill_row r resp))
         (fun e =>
            let status := status_code e in
            let r := <["error" := CStr (of_string "HttpError: " ++ error_text e)]> r in
            (if is_transient status then sleep (backoff i) else ret tt) ;;
            ret r)
         (fun x =>
            ret (<["error" := CStr (of_string "Error: " ++ exn_text x)]> r)) ;;
  writerow r ;;
  (if i mod 25 =? 0 then print (MsgProgress i total) else ret tt) ;;
  sleep delay_seconds.

Fixpoint indexing_loop (site_url language_code : pystr) (total i : Z)
    (urls : list pystr) : M unit :=
  match urls with
  | [] => ret tt
  | u :: rest =>
      indexing_item site_url language_code total i u ;;
      indexing_loop site_url language_code total (i + 1) rest
  end.

End Runners.

(** ** Reading a trace *)

(** The rows written to the CSV file, in the order they were written. *)
Definition csv_rows (t : list event) : list row :=
  omap (fun e => match e with EvWriteRow r => Some r | _ => None end) t.

(** The pauses, in the order they were taken. *)
Definition sleeps (t : list event) : list Q :=
  omap (fun e => match e with EvSleep s => Some s | _ => None end) t.

Definition is_fetch (e : event) : bool :=
  match e with
  | EvQuery _ _ | EvInspect _ => true
  | _ => false
  end.

(** The requests for metrics or inspection, in the order they were made. *)
Definition fetches (t : list event) : list event := List.filter is_fetch t.


(** The column named [error], when it is there and not empty. *)
Definition has_error_marker (r : row) : bool :=
  match r !! "error"%string with
  | Some c => negb (is_empty_cell c)
  | None => false
  end.

(** All the listed columns are present and empty. *)
Definition all_empty (fields : list string) (r : row) : Prop :=
  Forall (fun k => r !! k = Some (CStr [])) fields.

(** ** The specification's own words, to compare the code with *)

(** The sum of [f] over the rows. *)
Fixpoint sum_of (f : apirow -> Q) (rows : list apirow) : Q :=
  match rows with
  | [] => 0%Q
  | r :: rest => (f r + sum_of f rest)%Q
  end.

(** A line that is kept: not empty and not a comment. *)
Definition wanted (v : pystr) : bool :=
  str_truthy v && negb (startswith v (of_string "#")).

(** Duplicates removed, the first occurrence kept. *)
Fixpoint keep_first (l : list pystr) : list pystr :=
  match l with
  | [] => []
  | v :: rest => v :: List.filter (fun x => negb (bool_decide (x = v))) (keep_first rest)
  end.

(** Stripped lines, blank and comment lines skipped, duplicates removed. *)
Definition load_targets (lines : list pystr) : list pystr :=
  keep_first (List.filter wanted (map strip lines)).

(** The replies the inspection service gives to the targets of a batch,
    one request per target, in order. *)
Fixpoint inspect_replies `{Service} (site_url language_code : pystr)
    (urls : list pystr) (s : svc_state) : list inspect_reply :=
  match urls with
  | [] => []
  | u :: rest =>
      let '(r, s') := index_inspect (mk_inspect_body u site_url language_code) s in
      r :: inspect_replies site_url language_code rest s'
  end.

(** The pauses the inspection runner takes for target number [i]. *)
Definition item_pauses (i : Z) (r : inspect_reply) : list Q :=
  match r with
  | InspectHttpError e => if is_transient (status_code e) then [backoff i; delay_seconds]
                          else [delay_seconds]
  | _ => [delay_seconds]
  end.

Fixpoint batch_pauses (i : Z) (rs : list inspect_reply) : list Q :=
  match rs with
  | [] => []
  | r :: rest => item_pauses i r ++ batch_pauses (i + 1) rest
  end.

(** A service for examples: every request succeeds with the same rows,
    or fails with the same error when [fail] is set. *)
Definition constant_service (rows : option (list apirow)) (fail : option http_error)
    : Service :=
  {| svc_state := unit;
     sites_list := fun s => (Reply [], s);
     searchanalytics_query := fun _ _ s =>
       (match fail with Some e => Failure e | None => Reply (mk_response rows) end, s);
     index_inspect := fun _ s =>
       (match fail with
        | Some e => InspectHttpError e
        | None => InspectReply (mk_inspect_response None)
        end, s) |}.


(** ** Auxiliary definitions for the statements *)

(** [date.min] *)
Definition date_min : date := mkdate 1 1 1.

(** No whitespace at either end. *)
Definition stripped (v : pystr) : Prop :=
  (forall c, head v = Some c -> isspace c = false) /\
  (forall c, last v = Some c -> isspace c = false).

Definition all_space (s : pystr) : Prop := Forall (fun c => isspace c = true) s.

Definition metrics_of (resp : response) : metrics :=
  match rows_of resp with
  | [] => mk_metrics 0 0 0 0
  | r :: _ => mk_metrics (getf r "clicks") (getf r "impressions")
                         (getf r "ctr") (getf r "position")
  end.

Definition progress_events (total i : Z) : list event :=
  if i mod 25 =? 0 then [EvPrint (MsgProgress i total)] else [].

Definition page_query (start_date end_date page_url : pystr) : query_body :=
  mk_query_body start_date end_date "page" (of_string "equals") page_url 1.

Definition keyword_query (K : keyword_run) (kw : pystr) : query_body :=
  mk_query_body (start_date K) (end_date K) "query" (match_type K) kw 25000.

Definition indexing_base_row (site_url u : pystr) : row :=
  <["site_url"%string := CStr site_url]>
    (<["inspection_url"%string := CStr u]> (blank_row indexing_fieldnames)).

Definition http_error_cell (e : http_error) : cell :=
  CStr (of_string "HttpError: " ++ error_text e).

Definition backoff_events (i : Z) (e : http_error) : list event :=
  if is_transient (status_code e) then [EvSleep (backoff i)] else [].

Definition clicks_of (r : apirow) : Q := getf r "clicks".
Definition impressions_of (r : apirow) : Q := getf r "impressions".
Definition position_of (r : apirow) : Q := getf r "position".

(** The rows of the specification's example. *)
Definition example_rows : list apirow :=
  [ {[ "clicks"%string := 10%Q; "impressions"%string := 100%Q; "position"%string := 5%Q ]};
    {[ "clicks"%string := 5%Q; "impressions"%string := 50%Q; "position"%string := 2%Q ]} ].

(** The per-row [ctr] of the service replaced by [f]. *)
Definition with_ctr (f : apirow -> Q) (r : apirow) : apirow := <["ctr"%string := f r]> r.


(** [input(...).strip() or "input/urls.txt"] *)
Definition urls_file_of (a : answers) : pystr :=
  match strip (ans_urls_file a) with
  | [] => of_string "input/urls.txt"
  | f => f
  end.

(** An environment for examples: the clock at 2026-11-04, one URL file. *)
Definition example_strptime (s : pystr) : option date :=
  if bool_decide (s = of_string "2024-01-01") then Some (mkdate 2024 1 1)
  else if bool_decide (s = of_string "2024-01-31") then Some (mkdate 2024 1 31)
  else None.

Definition example_env : env :=
  mk_env (mkdate 2026 11 4)
    {[ of_string "input/urls.txt" := Lines [of_string "https://example.com/a"] ]}
    example_strptime.


Definition start_world (rows : option (list apirow)) (fail : option http_error)
    : @world (constant_service rows fail) :=
  @mk_world (constant_service rows fail) tt [].

Definition example_periods : periods :=
  mk_periods (of_string "sc-domain:example.com")
    (of_string "2026-03-01") (of_string "2026-03-31")
    (of_string "2026-01-29") (of_string "2026-02-28").

Definition example_url : pystr := of_string "https://example.com/a".



Definition rate_limited : http_error := mk_http_error (Some 429) (of_string "rate limit").

(** The back-off pause of target [i] after the reply [r], if any. *)
Definition backoff_pause (i : Z) (r : inspect_reply) : list Q :=
  match r with
  | InspectHttpError e => if is_transient (status_code e) then [backoff i] else []
  | _ => []
  end.

(** ** The rest of the scripts *)

(** [prompt_date] of [keyword_performance.py], on the line typed at the
    prompt: only the shape of the answer is checked. *)
Definition prompt_date (answer : pystr) : result pystr :=
  let s := strip answer in
  if negb (length s =? 10)%nat
     || negb (bool_decide (s !! 4%nat = Some 45%N))
     || negb (bool_decide (s !! 7%nat = Some 45%N))
  then Raise ValueError
  else Ok s.

(** [first_existing_path]; [exists] is [os.path.exists]. *)
Fixpoint first_existing_path (exists_ : pystr -> bool) (paths : list pystr)
    : option pystr :=
  match paths with
  | [] => None
  | p :: rest =>
      if str_truthy p && exists_ p then Some p
      else first_existing_path exists_ rest
  end.

(** A decoded JSON value, as the client library returns it. *)
#[local] Unset Elimination Schemes.
Inductive json :=
| JNull
| JBool (b : bool)
| JNum (q : Q)
| JStr (s : pystr)
| JList (l : list json)
| JDict (d : gmap string json).
#[local] Set Elimination Schemes.

(** [safe_get] of [page_indexing.py]. *)
Fixpoint safe_get (d : json) (path : list string) (default : json) : json :=
  match path with
  | [] => d
  | key :: rest =>
      match d with
      | JDict m =>
          match m !! key with
          | Some v => safe_get v rest default
          | None => default
          end
      | _ => default
      end
  end.

(** What the user types at the prompts of the keyword script. *)
Record keyword_answers := mk_keyword_answers {
  kans_site_url : pystr;
  kans_start_date : pystr;
  kans_end_date : pystr;
  kans_keywords_file : pystr;
  kans_match_type : pystr
}.

(** What the user types at the prompts of the inspection script. *)
Record indexing_answers := mk_indexing_answers {
  ians_site_url : pystr;
  ians_urls_file : pystr;
  ians_language_code : pystr
}.

(** [s or default] on strings *)
Definition str_or (s default : pystr) : pystr :=
  match s with
  | [] => default
  | _ :: _ => s
  end.

Section MoreRunners.
Context `{Service}.

(** [main] of [keyword_performance.py], from the listing of the properties
    on; [lower] is [str.lower], kept abstract. The listing is not inside a
    [try]: its [HttpError] ends the run. The banner that names the output
    file is not in the trace. *)
Definition main_keyword (lower : pystr -> pystr) (E : env) (a : keyword_answers)
    : M unit :=
  sites <- call_sites_list ;;
  (match sites with
   | [] => ret tt
   | _ :: _ => print (MsgProperties sites)
   end) ;;
  let site_url := strip (kans_site_url a) in
  if negb (str_truthy site_url) then raise (SystemExit ExitNoSiteUrl)
  else
    start_date <- lift (prompt_date (kans_start_date a)) ;;
    end_date <- lift (prompt_date (kans_end_date a)) ;;
    let keywords_file :=
      str_or (strip (kans_keywords_file a)) (of_string "input/keywords.txt") in
    let match_type := str_or (lower (strip (kans_match_type a))) (of_string "equals") in
    if negb (bool_decide (match_type = of_string "equals")
             || bool_decide (match_type = of_string "contains"))
    then raise ValueError
    else
      keywords <- lift (read_list (files E) keywords_file) ;;
      match keywords with
      | [] => raise (SystemExit ExitNoTargets)
      | _ :: _ =>
          let K := mk_keyword_run site_url start_date end_date match_type in
          emit (EvWriteHeader keyword_fieldnames) ;;
          keyword_loop K keywords ;;
          print MsgDone
      end.

(** [sys.exit(1)] *)
Definition sys_exit_1 {A} : M A := raise (SystemExit (ExitCode 1)).

(** [try: urls = read_urls(urls_file)  except Exception as e: ...; sys.exit(1)] *)
Definition read_urls_or_exit (fs : filesystem) (urls_file : pystr)
    : M (list pystr) :=
  fun w =>
    match read_urls fs urls_file with
    | Ok urls => (Ok urls, w)
    | Raise x => if is_Exception x then sys_exit_1 w else (Raise x, w)
    end.

(** [main] of [page_indexing.py], from the listing of the properties on.
    Every failure before the loop ends in [sys.exit(1)]. The banners and
    the messages written to [stderr] before an exit are not in the trace. *)
Definition main_indexing (E : env) (a : indexing_answers) : M unit :=
  sites <- try_except_HttpError call_sites_list
             (fun e => print (MsgCouldNotList e) ;; ret []) ;;
  (match sites with
   | [] => ret tt
   | _ :: _ => print (MsgProperties sites)
   end) ;;
  let site_url := strip (ians_site_url a) in
  if negb (str_truthy site_url) then sys_exit_1
  else
    let urls_file := str_or (strip (ians_urls_file a)) (of_string "input/urls.txt") in
    let language_code := str_or (strip (ians_language_code a)) (of_string "en-US") in
    urls <- read_urls_or_exit (files E) urls_file ;;
    match urls with
    | [] => sys_exit_1
    | _ :: _ =>
        emit (EvWriteHeader indexing_fieldnames) ;;
        indexing_loop site_url language_code (Z.of_nat (length urls)) 1 urls ;;
        print MsgDone
    end.

End MoreRunners.

(** The value at the end of a path of keys, when every step is a
    dictionary that has the key. *)
Fixpoint lookup_path (d : json) (path : list string) : option json :=
  match path with
  | [] => Some d
  | key :: rest =>
      match d with
      | JDict m =>
          match m !! key with
          | Some v => lookup_path v rest
          | None => None
          end
      | _ => None
      end
  end.

(** A path that [first_existing_path] passes over. *)
Definition unusable (exists_ : pystr -> bool) (p : pystr) : Prop :=
  p = [] \/ exists_ p = false.


(** The row has exactly the columns of the header. *)
Definition has_columns (fieldnames : list string) (r : row) : Prop :=
  dom r = list_to_set fieldnames.

(** A step that neither requests anything from the service nor writes a
    row, whether it returns or raises. *)
Definition quiet `{Service} {A} (m : M A) : Prop :=
  forall w, exists t,
    w_trace (snd (m w)) = w_trace w ++ t /\ fetches t = [] /\ csv_rows t = [].

(** Some target has been requested or some row written. *)
Definition touched (t : list event) : Prop := fetches t <> [] \/ csv_rows t <> [].

(** A run that requests a target or writes a row only when [G] holds, and
    whose rows satisfy [R] when it returns. *)
Definition all_or_nothing `{Service} (G : Prop) (R : list row -> Prop) (m : M unit)
    : Prop :=
  forall w, exists t,
    w_trace (snd (m w)) = w_trace w ++ t /\
    (touched t -> G) /\
    (fst (m w) = Ok tt -> R (csv_rows t)).

(** The only exceptions the computation can end with. *)
Definition raises_only `{Service} {A} (S : exn -> Prop) (m : M A) : Prop :=
  forall w e, fst (m w) = Raise e -> S e.

(** Any exception but an [HttpError]. *)
Definition not_HttpError (e : exn) : Prop := forall h, e <> HttpError h.

(** The rows are those of the targets, one each, in order; [column] is the
    column that holds the target. *)
Definition rows_of_targets (column : string) (targets : list pystr) (rows : list row)
    : Prop :=
  map (fun r : row => r !! column) rows = map (fun u => Some (CStr u)) targets.

(** The seconds a run spends in [time.sleep]. *)
Definition total_pause (t : list event) : Q := fold_right Qplus 0%Q (sleeps t).

(** The reply is an [HttpError] with status 429, 500 or 503. *)
Definition transient_reply (r : inspect_reply) : bool :=
  match r with
  | InspectHttpError e => is_transient (status_code e)
  | _ => false
  end.

(** * Properties *)

(** ** The model on concrete inputs *)

Example ordinal_of_2026_03_31 :
  toordinal (mkdate 2026 3 31) = 739706 /\ ord2ymd 739706 = mkdate 2026 3 31 /\
  toordinal (mkdate 9999 12 31) = MAXORDINAL /\ ord2ymd 1 = mkdate 1 1 1.
Proof. repeat split. Qed.

Example leap_years :
  isleap 2024 = true /\ isleap 2026 = false /\ isleap 1900 = false /\ isleap 2000 = true.
Proof. repeat split. Qed.

Example subtract_months_clamps :
  subtract_months (mkdate 2026 3 31) 1 = Ok (mkdate 2026 2 28) /\
  subtract_months (mkdate 2024 3 31) 1 = Ok (mkdate 2024 2 29) /\
  subtract_months (mkdate 2026 11 4) 16 = Ok (mkdate 2025 7 4) /\
  subtract_months (mkdate 2026 1 15) 1 = Ok (mkdate 2025 12 15) /\
  subtract_months (mkdate 1 3 1) 16 = Raise ValueError.
Proof. repeat split. Qed.

Example round_half_even :
  py_round (5 # 2) = 2 /\ py_round (7 # 2) = 4 /\ py_round (-5 # 2) = -2 /\
  py_round (26 # 10) = 3 /\ (py_round_nd (1 # 8) 2 == 12 # 100)%Q.
Proof. repeat split. Qed.

Example strip_unicode_whitespace :
  strip ([32; 9; 160; 12288] ++ of_string "a b" ++ [13; 10])%N = of_string "a b" /\
  strip (of_string "  ") = [] /\
  isoformat (mkdate 5 1 2) = of_string "0005-01-02".
Proof. repeat split. Qed.

Example backoff_values :
  (backoff 1 == 5 # 2)%Q /\ (backoff 4 == 7)%Q /\ (backoff 5 == 1)%Q /\
  is_transient (Some 429) = true /\ is_transient (Some 403) = false /\
  is_transient None = false.
Proof. repeat split. Qed.

(** ** The calendar: ordinals and dates correspond *)

Lemma forall_range_spec (P : Z -> bool) fuel a :
  forall_range P fuel a = true ->
  forall n, a <= n < a + Z.of_nat fuel -> P n = true.
Proof.
  revert a. induction fuel as [|f IH]; intros a Hall n Hn.
  - lia.
  - simpl in Hall. apply andb_true_iff in Hall as [Ha Hrest].
    destruct (Z.eq_dec n a) as [->|Hne]; [exact Ha|].
    apply (IH (a + 1) Hrest). lia.
Qed.

Lemma isleap_shift y k : isleap (y + 400 * k) = isleap y.
Proof.
  unfold isleap.
  replace (y + 400 * k) with (y + (100 * k) * 4) at 1 by lia.
  replace (y + 400 * k) with (y + (4 * k) * 100) at 1 by lia.
  replace (y + 400 * k) with (y + k * 400) by lia.
  now rewrite !Z.mod_add by lia.
Qed.

Lemma days_before_year_shift y k :
  days_before_year (y + 400 * k) = days_before_year y + DI400Y * k.
Proof.
  unfold days_before_year, DI400Y. cbv zeta.
  replace ((y + 400 * k - 1) / 4) with ((y - 1 + (100 * k) * 4) / 4) by (f_equal; lia).
  replace ((y + 400 * k - 1) / 100) with ((y - 1 + (4 * k) * 100) / 100) by (f_equal; lia).
  replace ((y + 400 * k - 1) / 400) with ((y - 1 + k * 400) / 400) by (f_equal; lia).
  rewrite !Z.div_add by lia. lia.
Qed.

Lemma toordinal_shift d k :
  toordinal (add_years (400 * k) d) = toordinal d + DI400Y * k.
Proof.
  unfold toordinal, add_years, ymd2ord, days_before_month. simpl.
  rewrite isleap_shift, days_before_year_shift. lia.
Qed.

Lemma ord2ymd_shift n k :
  ord2ymd (n + DI400Y * k) = add_years (400 * k) (ord2ymd n).
Proof.
  unfold ord2ymd. cbv zeta.
  replace (n + DI400Y * k - 1) with (n - 1 + k * DI400Y) by lia.
  rewrite Z.div_add, Z.mod_add by (unfold DI400Y; lia).
  set (r := (n - 1) mod DI400Y).
  set (q := (n - 1) / DI400Y).
  destruct ((r mod DI100Y mod DI4Y / 365 =? 4) || (r / DI100Y =? 4)).
  - unfold add_years. simpl. f_equal. lia.
  - match goal with |- (if ?c then _ else _) = _ => destruct c end;
      unfold add_years; simpl; f_equal; lia.
Qed.

Lemma forall_range_Z (P : Z -> bool) (len a : Z) :
  0 <= len ->
  forall_range P (Z.to_nat len) a = true ->
  forall n, a <= n < a + len -> P n = true.
Proof.
  intros Hlen Hall n Hn.
  apply (forall_range_spec P (Z.to_nat len) a Hall).
  rewrite Z2Nat.id; assumption.
Qed.

(** Every ordinal of the first 400-year cycle, by evaluation. *)
Lemma cycle_ords_checked : forall_range cycle_ord_ok (Z.to_nat 146097) 1 = true.
Proof. vm_compute. reflexivity. Qed.

Lemma cycle_ord_ok_all r : 1 <= r <= 146097 -> cycle_ord_ok r = true.
Proof.
  intros Hr.
  refine (forall_range_Z cycle_ord_ok 146097 1 _ cycle_ords_checked r _); lia.
Qed.

Lemma valid_date_iff d :
  valid_date d = true <->
  1 <= year d <= 9999 /\ 1 <= month d <= 12 /\ 1 <= day d <= days_in_month (year d) (month d).
Proof.
  unfold valid_date, MINYEAR, MAXYEAR.
  rewrite !andb_true_iff, !Z.leb_le. lia.
Qed.

Lemma days_in_month_shift y m k : days_in_month (y + 400 * k) m = days_in_month y m.
Proof. unfold days_in_month. now rewrite isleap_shift. Qed.

Lemma cycle_ord_ok_elim n :
  cycle_ord_ok n = true ->
  toordinal (ord2ymd n) = n /\
  1 <= year (ord2ymd n) <= 400 /\
  1 <= month (ord2ymd n) <= 12 /\
  1 <= day (ord2ymd n) <= days_in_month (year (ord2ymd n)) (month (ord2ymd n)) /\
  (n <= 145731 -> year (ord2ymd n) <= 399).
Proof.
  unfold cycle_ord_ok. generalize (ord2ymd n) as d. intros d. cbv zeta.
  rewrite !andb_true_iff, orb_true_iff, !Z.leb_le, Z.eqb_eq, Z.ltb_lt. lia.
Qed.

Lemma ord2ymd_cycle r k :
  1 <= r <= 146097 -> 0 <= k -> r + 146097 * k <= 3652059 ->
  valid_date (ord2ymd (r + DI400Y * k)) = true /\
  toordinal (ord2ymd (r + DI400Y * k)) = r + DI400Y * k.
Proof.
  intros Hr Hk Hmax.
  destruct (cycle_ord_ok_elim r (cycle_ord_ok_all r Hr)) as (Hord & Hy & Hm & Hd & Hlast).
  rewrite ord2ymd_shift, toordinal_shift. split; [|lia].
  apply valid_date_iff. unfold add_years. simpl.
  rewrite days_in_month_shift. unfold DI400Y in *. lia.
Qed.

Lemma ord2ymd_valid n :
  1 <= n <= MAXORDINAL ->
  valid_date (ord2ymd n) = true /\ toordinal (ord2ymd n) = n.
Proof.
  unfold MAXORDINAL. intros Hn.
  pose proof (Z.div_mod (n - 1) 146097 ltac:(lia)) as Hdm.
  pose proof (Z.mod_pos_bound (n - 1) 146097 ltac:(lia)) as Hr.
  assert (Hk : 0 <= (n - 1) / 146097) by (apply Z.div_pos; lia).
  replace n with (((n - 1) mod 146097 + 1) + DI400Y * ((n - 1) / 146097))
    by (unfold DI400Y; lia).
  apply ord2ymd_cycle; lia.
Qed.

Lemma isleap_succ_dby y :
  days_before_year (y + 1) = days_before_year y + 365 + b2z (isleap y).
Proof.
  unfold days_before_year, isleap, b2z. cbv zeta.
  replace (y + 1 - 1) with y by lia.
  destruct (Z.eqb_spec (y mod 4) 0); destruct (Z.eqb_spec (y mod 100) 0);
    destruct (Z.eqb_spec (y mod 400) 0); simpl;
    Z.div_mod_to_equations; lia.
Qed.

Lemma b2z_bounds b : 0 <= b2z b <= 1.
Proof. destruct b; simpl; lia. Qed.

Lemma days_before_year_mono y1 y2 :
  y1 <= y2 -> days_before_year y1 <= days_before_year y2.
Proof.
  intros Hle. pattern y2. apply (Zlt_lower_bound_ind _ y1); [|exact Hle].
  intros y IH Hy.
  destruct (Z.eq_dec y y1) as [->|Hne]; [lia|].
  specialize (IH (y - 1) ltac:(lia)).
  pose proof (isleap_succ_dby (y - 1)) as Hs.
  replace (y - 1 + 1) with y in Hs by lia.
  pose proof (b2z_bounds (isleap (y - 1))). lia.
Qed.

Lemma month_cases m : 1 <= m <= 12 ->
  m = 1 \/ m = 2 \/ m = 3 \/ m = 4 \/ m = 5 \/ m = 6 \/
  m = 7 \/ m = 8 \/ m = 9 \/ m = 10 \/ m = 11 \/ m = 12.
Proof. lia. Qed.

Ltac month_split m H :=
  destruct (month_cases m H) as
    [->|[->|[->|[->|[->|[->|[->|[->|[->|[->|[->| ->]]]]]]]]]]].

Lemma day_of_year_bounds y m d :
  1 <= m <= 12 -> 1 <= d <= days_in_month y m ->
  1 <= days_before_month y m + d <= 365 + b2z (isleap y).
Proof.
  intros Hm. unfold days_in_month, days_before_month.
  month_split m Hm; destruct (isleap y); simpl; lia.
Qed.

Lemma day_of_year_mono y m1 d1 m2 d2 :
  1 <= m1 <= 12 -> 1 <= m2 <= 12 ->
  1 <= d1 <= days_in_month y m1 -> 1 <= d2 <= days_in_month y m2 ->
  m1 < m2 ->
  days_before_month y m1 + d1 < days_before_month y m2 + d2.
Proof.
  intros Hm1 Hm2. unfold days_in_month, days_before_month.
  month_split m1 Hm1; month_split m2 Hm2; destruct (isleap y); simpl; lia.
Qed.

Lemma date_ltb_iff d1 d2 :
  date_ltb d1 d2 = true <->
  year d1 < year d2 \/
  year d1 = year d2 /\ (month d1 < month d2 \/ month d1 = month d2 /\ day d1 < day d2).
Proof.
  unfold date_ltb.
  rewrite !orb_true_iff, !andb_true_iff, !orb_true_iff, !andb_true_iff,
    !Z.ltb_lt, !Z.eqb_eq. tauto.
Qed.

Lemma toordinal_lt d1 d2 :
  valid_date d1 = true -> valid_date d2 = true ->
  date_ltb d1 d2 = true -> toordinal d1 < toordinal d2.
Proof.
  intros V1 V2 Hlt.
  apply valid_date_iff in V1 as (Hy1 & Hm1 & Hd1).
  apply valid_date_iff in V2 as (Hy2 & Hm2 & Hd2).
  apply date_ltb_iff in Hlt.
  destruct d1 as [y1 m1 d1], d2 as [y2 m2 d2]. simpl in *.
  unfold toordinal, ymd2ord. simpl.
  destruct Hlt as [Hy | [-> [Hm | [-> Hd]]]].
  - pose proof (day_of_year_bounds y1 m1 d1 Hm1 Hd1).
    pose proof (day_of_year_bounds y2 m2 d2 Hm2 Hd2).
    pose proof (days_before_year_mono (y1 + 1) y2 ltac:(lia)) as Hmono.
    rewrite isleap_succ_dby in Hmono. lia.
  - pose proof (day_of_year_mono y2 m1 d1 m2 d2 Hm1 Hm2 Hd1 Hd2 Hm). lia.
  - lia.
Qed.

Lemma date_trichotomy d1 d2 :
  date_ltb d1 d2 = true \/ d1 = d2 \/ date_ltb d2 d1 = true.
Proof.
  rewrite !date_ltb_iff. destruct d1 as [y1 m1 d1], d2 as [y2 m2 d2]. simpl.
  destruct (Z.lt_trichotomy y1 y2) as [?|[->|?]]; [lia| |lia].
  destruct (Z.lt_trichotomy m1 m2) as [?|[->|?]]; [lia| |lia].
  destruct (Z.lt_trichotomy d1 d2) as [?|[->|?]]; [lia| |lia].
  right. left. reflexivity.
Qed.

Lemma toordinal_inj d1 d2 :
  valid_date d1 = true -> valid_date d2 = true ->
  toordinal d1 = toordinal d2 -> d1 = d2.
Proof.
  intros V1 V2 Heq.
  destruct (date_trichotomy d1 d2) as [Hlt|[->|Hlt]]; [|reflexivity|].
  - pose proof (toordinal_lt _ _ V1 V2 Hlt). lia.
  - pose proof (toordinal_lt _ _ V2 V1 Hlt). lia.
Qed.

Lemma toordinal_range d :
  valid_date d = true -> 1 <= toordinal d <= MAXORDINAL.
Proof.
  intros V. pose proof V as V'.
  apply valid_date_iff in V' as (Hy & Hm & Hd).
  unfold toordinal, ymd2ord, MAXORDINAL.
  pose proof (day_of_year_bounds _ _ _ Hm Hd) as Hdoy.
  pose proof (days_before_year_mono 1 (year d) ltac:(lia)) as Hlo.
  pose proof (days_before_year_mono (year d + 1) 10000 ltac:(lia)) as Hhi.
  rewrite isleap_succ_dby in Hhi.
  change (days_before_year 1) with 0 in Hlo.
  change (days_before_year 10000) with 3652059 in Hhi.
  lia.
Qed.

Lemma ord2ymd_toordinal d :
  valid_date d = true -> ord2ymd (toordinal d) = d.
Proof.
  intros V. pose proof (toordinal_range d V) as Hr.
  destruct (ord2ymd_valid (toordinal d) Hr) as [V' Heq].
  apply toordinal_inj; assumption.
Qed.

Lemma toordinal_le d1 d2 :
  valid_date d1 = true -> valid_date d2 = true ->
  date_ltb d2 d1 = false -> toordinal d1 <= toordinal d2.
Proof.
  intros V1 V2 Hge.
  destruct (date_trichotomy d1 d2) as [Hlt|[->|Hlt]]; [|lia|congruence].
  pose proof (toordinal_lt _ _ V1 V2 Hlt). lia.
Qed.

(** ** The previous period *)

Lemma date_add_days_ok d n :
  valid_date d = true -> 1 <= toordinal d + n <= MAXORDINAL ->
  exists d', date_add_days d n = Ok d' /\ valid_date d' = true /\
             toordinal d' = toordinal d + n.
Proof.
  intros V Hr. unfold date_add_days. cbv zeta.
  destruct (ord2ymd_valid _ Hr) as [V' Ho].
  replace ((0 <? toordinal d + n) && (toordinal d + n <=? MAXORDINAL)) with true.
  - eexists. split; [reflexivity|]. split; assumption.
  - symmetry. apply andb_true_iff. rewrite Z.ltb_lt, Z.leb_le. lia.
Qed.

Lemma date_sub_days_ok d n :
  valid_date d = true -> 1 <= toordinal d - n <= MAXORDINAL ->
  exists d', date_sub_days d n = Ok d' /\ valid_date d' = true /\
             toordinal d' = toordinal d - n.
Proof.
  intros V Hr. unfold date_sub_days.
  destruct (date_add_days_ok d (- n) V ltac:(lia)) as (d' & H1 & H2 & H3).
  exists d'. repeat split; [assumption | assumption | lia].
Qed.

(** C3 (as amended): for a range with start <= end whose previous period
    does not begin before 0001-01-01, [compute_previous_period] returns a
    range of the same inclusive length, [end - start + 1] days, that ends
    the day before the current range starts: [previous.end] is
    [current.start - 1 day], [previous.start] is
    [previous.end - (length - 1) days], and [previous.end + 1 day] is
    [current.start]. *)
Theorem previous_period_adjacent (cur_start cur_end : date) :
  valid_date cur_start = true -> valid_date cur_end = true ->
  date_leb cur_start cur_end = true ->
  date_diff_days cur_end cur_start + 1 <= date_diff_days cur_start date_min ->
  exists prev_start prev_end days,
    compute_previous_period cur_start cur_end = Ok (prev_start, prev_end, days) /\
    valid_date prev_start = true /\ valid_date prev_end = true /\
    days = date_diff_days cur_end cur_start + 1 /\ 1 <= days /\
    date_diff_days prev_end prev_start + 1 = days /\
    date_sub_days cur_start 1 = Ok prev_end /\
    date_sub_days prev_end (days - 1) = Ok prev_start /\
    date_add_days prev_end 1 = Ok cur_start /\
    date_ltb prev_end cur_start = true /\
    date_leb prev_start prev_end = true.
Proof.
  intros Vs Ve Hle Hfit.
  unfold date_leb in Hle. apply negb_true_iff in Hle.
  pose proof (toordinal_le _ _ Vs Ve Hle) as Hord.
  pose proof (toordinal_range _ Vs) as Hrs.
  pose proof (toordinal_range _ Ve) as Hre.
  unfold date_diff_days in *. change (toordinal date_min) with 1 in Hfit.
  destruct (date_sub_days_ok cur_start 1 Vs ltac:(lia)) as (pe & Hpe & Vpe & Ope).
  destruct (date_sub_days_ok pe (toordinal cur_end - toordinal cur_start + 1 - 1) Vpe
              ltac:(lia)) as (ps & Hps & Vps & Ops).
  exists ps, pe, (toordinal cur_end - toordinal cur_start + 1).
  unfold compute_previous_period, date_diff_days.
  rewrite Hle. cbv zeta. rewrite Hpe, Hps.
  repeat split; try assumption; try lia.
  - unfold date_add_days. cbv zeta. rewrite Ope.
    replace (toordinal cur_start - 1 + 1) with (toordinal cur_start) by lia.
    replace ((0 <? toordinal cur_start) && (toordinal cur_start <=? MAXORDINAL)) with true.
    + now rewrite ord2ymd_toordinal.
    + symmetry. apply andb_true_iff. rewrite Z.ltb_lt, Z.leb_le. lia.
  - destruct (date_trichotomy pe cur_start) as [Hlt|[->|Hlt]]; [assumption|lia|].
    pose proof (toordinal_lt _ _ Vs Vpe Hlt). lia.
  - unfold date_leb. apply negb_true_iff.
    destruct (date_ltb pe ps) eqn:Hlt; [|reflexivity].
    pose proof (toordinal_lt _ _ Vpe Vps Hlt). lia.
Qed.

(** March 2026 against its previous 31 days. *)
Lemma previous_period_adjacent_witness :
  exists prev_start prev_end days,
    compute_previous_period (mkdate 2026 3 1) (mkdate 2026 3 31)
      = Ok (prev_start, prev_end, days) /\
    days = 31 /\ date_add_days prev_end 1 = Ok (mkdate 2026 3 1).
Proof.
  destruct (previous_period_adjacent (mkdate 2026 3 1) (mkdate 2026 3 31))
    as (ps & pe & n & H1 & _ & _ & H2 & _ & _ & _ & _ & H3 & _);
    [reflexivity | reflexivity | reflexivity | vm_compute; discriminate |].
  exists ps, pe, n. split; [exact H1|]. split; [exact H2 | exact H3].
Defined.

(** C3 as the specification words it, for every range with start <= end,
    fails at the first representable day: the date before 0001-01-01 does
    not exist, and the function raises [OverflowError]. *)
Lemma previous_period_overflow :
  valid_date (mkdate 1 1 1) = true /\
  date_leb (mkdate 1 1 1) (mkdate 1 1 1) = true /\
  compute_previous_period (mkdate 1 1 1) (mkdate 1 1 1) = Raise OverflowError.
Proof. repeat split. Qed.

(** ** Loading the target list *)

Lemma lstrip_split s :
  exists l, s = l ++ lstrip s /\ all_space l /\
            (forall c, head (lstrip s) = Some c -> isspace c = false).
Proof.
  induction s as [|c s IH].
  - exists []. repeat split; [constructor | discriminate].
  - cbn [lstrip]. destruct (isspace c) eqn:Hc.
    + destruct IH as (l & Hs & Hl & Hh). exists (c :: l).
      split; [cbn; congruence|]. split; [constructor; assumption | exact Hh].
    + exists []. split; [reflexivity|]. split; [constructor|].
      intros c' [= <-]. exact Hc.
Qed.

Lemma last_rev {A} (l : list A) : last (rev l) = head l.
Proof. destruct l as [|x l]; [reflexivity|]. cbn. apply last_snoc. Qed.

Lemma rstrip_split s :
  exists r, s = rstrip s ++ r /\ all_space r /\
            (forall c, last (rstrip s) = Some c -> isspace c = false).
Proof.
  unfold rstrip. destruct (lstrip_split (rev s)) as (l & Hs & Hl & Hh).
  exists (rev l). split; [|split].
  - rewrite <- rev_app_distr, <- Hs. now rewrite rev_involutive.
  - apply List.Forall_rev. exact Hl.
  - intros c Hc. apply Hh. rewrite <- Hc. symmetry. apply last_rev.
Qed.

Lemma strip_split s :
  exists l r, s = l ++ strip s ++ r /\ all_space l /\ all_space r /\ stripped (strip s).
Proof.
  unfold strip.
  destruct (lstrip_split s) as (l & Hs & Hl & Hh).
  destruct (rstrip_split (lstrip s)) as (r & Ht & Hr & Hlast).
  exists l, r. split; [now rewrite <- Ht|]. split; [exact Hl|]. split; [exact Hr|].
  split; [|exact Hlast].
  intros c Hc. apply Hh. rewrite Ht.
  destruct (rstrip (lstrip s)); [discriminate|exact Hc].
Qed.

Lemma collect_lines_filter lines : forall items,
  collect_lines lines items = items ++ List.filter wanted (map strip lines).
Proof.
  induction lines as [|line rest IH]; intros items; cbn [collect_lines map List.filter].
  - now rewrite app_nil_r.
  - unfold wanted at 1.
    destruct (str_truthy (strip line)); cbn [negb orb andb].
    + destruct (startswith (strip line) (of_string "#")); cbn [negb].
      * apply IH.
      * rewrite IH, <- app_assoc. reflexivity.
    + apply IH.
Qed.

Lemma filter_filter_bool {A} (f g : A -> bool) l :
  List.filter f (List.filter g l) = List.filter (fun x => g x && f x) l.
Proof.
  induction l as [|x l IH]; [reflexivity|]. cbn.
  destruct (g x); cbn; [destruct (f x)|]; now rewrite IH.
Qed.

Lemma dedup_loop_keep_first items : forall (seen : gset pystr) out,
  dedup_loop items seen out =
  out ++ List.filter (fun x => bool_decide (x ∉ seen)) (keep_first items).
Proof.
  induction items as [|v rest IH]; intros seen out; cbn [dedup_loop keep_first List.filter].
  - now rewrite app_nil_r.
  - rewrite filter_filter_bool. destruct (decide (v ∈ seen)) as [Hin|Hnin].
    + rewrite bool_decide_eq_false_2 by (intros Hc; contradiction).
      rewrite IH. f_equal. apply List.filter_ext. intros x.
      destruct (bool_decide_reflect (x = v)) as [->|Hne]; cbn.
      * now apply bool_decide_eq_false_2; intros Hc.
      * reflexivity.
    + rewrite bool_decide_eq_true_2 by assumption.
      rewrite IH, <- app_assoc. cbn. do 2 f_equal.
      apply List.filter_ext. intros x.
      destruct (bool_decide_reflect (x = v)) as [->|Hne]; cbn.
      * apply bool_decide_eq_false_2. rewrite elem_of_union, elem_of_singleton. tauto.
      * apply bool_decide_ext. rewrite elem_of_union, elem_of_singleton. tauto.
Qed.

Lemma keep_first_elem (l : list pystr) v : v ∈ keep_first l <-> v ∈ l.
Proof.
  induction l as [|x l IH]; cbn [keep_first]; [reflexivity|].
  rewrite !elem_of_cons, list_elem_of_In, List.filter_In, <- list_elem_of_In, IH.
  rewrite negb_true_iff, bool_decide_eq_false.
  destruct (decide (v = x)); tauto.
Qed.

Lemma keep_first_NoDup (l : list pystr) : NoDup (keep_first l).
Proof.
  induction l as [|x l IH]; cbn [keep_first]; constructor.
  - rewrite list_elem_of_In, List.filter_In, negb_true_iff, bool_decide_eq_false. tauto.
  - apply NoDup_ListNoDup, List.NoDup_filter, NoDup_ListNoDup, IH.
Qed.

Lemma filter_sublist {A} (f : A -> bool) l : sublist (List.filter f l) l.
Proof.
  induction l as [|x l IH]; cbn; [constructor|].
  destruct (f x); [now apply sublist_skip | now apply sublist_cons].
Qed.

Lemma keep_first_sublist (l : list pystr) : sublist (keep_first l) l.
Proof.
  induction l as [|x l IH]; cbn [keep_first]; [constructor|].
  apply sublist_skip. etransitivity; [apply filter_sublist | exact IH].
Qed.

(** What keeping the first occurrence means, one item at a time. *)
Lemma keep_first_snoc (l : list pystr) v :
  keep_first (l ++ [v]) = if bool_decide (v ∈ l) then keep_first l else keep_first l ++ [v].
Proof.
  induction l as [|x l IH]; [reflexivity|].
  cbn [app keep_first]. rewrite IH.
  destruct (bool_decide_reflect (v ∈ l)) as [Hin|Hnin].
  - rewrite bool_decide_eq_true_2 by (right; exact Hin). reflexivity.
  - destruct (bool_decide_reflect (v ∈ x :: l)) as [Hin'|Hnin'].
    + apply elem_of_cons in Hin' as [->|?]; [|contradiction].
      rewrite List.filter_app. cbn. rewrite bool_decide_eq_true_2 by reflexivity.
      cbn. now rewrite app_nil_r.
    + rewrite List.filter_app. cbn.
      rewrite bool_decide_eq_false_2 by (intros ->; apply Hnin'; left).
      reflexivity.
Qed.

Lemma read_list_load (fs : filesystem) path lines :
  fs !! path = Some (Lines lines) -> read_list fs path = Ok (load_targets lines).
Proof.
  intros Hf. unfold read_list, load_targets. rewrite Hf. cbv zeta.
  rewrite collect_lines_filter, dedup_loop_keep_first. cbn [app]. f_equal.
  rewrite <- (List.filter_ext (fun _ => true)).
  - induction (keep_first _) as [|x l IH]; cbn; congruence.
  - intros x. symmetry. apply bool_decide_eq_true_2. apply not_elem_of_empty.
Qed.

(** C9: for every text file, the loaders of the three scripts return the lines
    stripped of surrounding whitespace, without the empty lines and the
    lines that start with [#], without duplicates (the first occurrence is
    the one kept) and in the order of the file; the list
    ["a"; "a"; "b"; ""] loads as ["a"; "b"]. *)
Theorem target_list_loading (fs : filesystem) (path : pystr)
    (lines : list pystr) :
  fs !! path = Some (Lines lines) ->
  read_list fs path = Ok (load_targets lines) /\
  read_url_list fs path = Ok (load_targets lines) /\
  read_urls fs path = Ok (load_targets lines) /\
  NoDup (load_targets lines) /\
  (forall v, v ∈ load_targets lines <->
             (exists line, line ∈ lines /\ v = strip line) /\
             v <> [] /\ startswith v (of_string "#") = false) /\
  (forall v, v ∈ load_targets lines -> stripped v) /\
  (forall line, exists l r,
     line = l ++ strip line ++ r /\ all_space l /\ all_space r) /\
  sublist (load_targets lines) (map strip lines) /\
  (forall l v, keep_first (l ++ [v])
               = if bool_decide (v ∈ l) then keep_first l else keep_first l ++ [v]) /\
  load_targets [of_string "a"; of_string "a"; of_string "b"; of_string ""]
    = [of_string "a"; of_string "b"].
Proof.
  intros Hf.
  assert (Hmem : forall v, v ∈ load_targets lines <->
             (exists line, line ∈ lines /\ v = strip line) /\
             v <> [] /\ startswith v (of_string "#") = false).
  { intros v. unfold load_targets.
    rewrite keep_first_elem, list_elem_of_In, List.filter_In, <- list_elem_of_In.
    rewrite list_elem_of_fmap. unfold wanted.
    rewrite andb_true_iff, negb_true_iff.
    split.
    - intros [(line & -> & Hl) [Ht Hs]]. split; [eauto|]. split; [|exact Hs].
      intros Hnil. rewrite Hnil in Ht. discriminate.
    - intros [(line & Hl & ->) [Hne Hs]]. split; [eauto|]. split; [|exact Hs].
      destruct (strip line); [contradiction|reflexivity]. }
  split; [now apply read_list_load|].
  split; [exact (read_list_load fs path lines Hf)|].
  split; [exact (read_list_load fs path lines Hf)|].
  split; [apply keep_first_NoDup|].
  split; [exact Hmem|].
  split.
  { intros v Hv. apply Hmem in Hv as [(line & _ & ->) _].
    destruct (strip_split line) as (l & r & _ & _ & _ & Hst). exact Hst. }
  split.
  { intros line. destruct (strip_split line) as (l & r & Hsplit & Hl & Hr & _).
    exists l, r. repeat split; assumption. }
  split.
  { unfold load_targets. etransitivity; [apply keep_first_sublist | apply filter_sublist]. }
  split; [apply keep_first_snoc|].
  vm_compute. reflexivity.
Qed.

(** A file with a padded duplicate, a comment and a blank line. *)
Lemma target_list_loading_witness :
  read_list {[ of_string "input/keywords.txt" :=
                 Lines [of_string "a"; of_string " a "; of_string "# note";
                        of_string "b"; of_string ""] ]}
            (of_string "input/keywords.txt")
  = Ok [of_string "a"; of_string "b"].
Proof.
  apply (target_list_loading
           {[ of_string "input/keywords.txt" :=
                Lines [of_string "a"; of_string " a "; of_string "# note";
                       of_string "b"; of_string ""] ]}
           (of_string "input/keywords.txt")
           [of_string "a"; of_string " a "; of_string "# note";
            of_string "b"; of_string ""]).
  vm_compute. reflexivity.
Defined.

Section ComparisonItems.
Context `{Service}.

Lemma csv_rows_app t1 t2 : csv_rows (t1 ++ t2) = csv_rows t1 ++ csv_rows t2.
Proof. apply omap_app. Qed.

Lemma sleeps_app t1 t2 : sleeps (t1 ++ t2) = sleeps t1 ++ sleeps t2.
Proof. apply omap_app. Qed.

Lemma fetches_app t1 t2 : fetches (t1 ++ t2) = fetches t1 ++ fetches t2.
Proof. apply List.filter_app. Qed.

Lemma fetch_page_metrics_run site page s e w :
  fetch_page_metrics site page s e w =
  match searchanalytics_query site (page_query s e page) (w_svc w) with
  | (Reply resp, s') =>
      (Ok (metrics_of resp), mk_world s' (w_trace w ++ [EvQuery site (page_query s e page)]))
  | (Failure err, s') =>
      (Raise (HttpError err), mk_world s' (w_trace w ++ [EvQuery site (page_query s e page)]))
  | (Crashed text, s') =>
      (Raise (OtherException text),
       mk_world s' (w_trace w ++ [EvQuery site (page_query s e page)]))
  end.
Proof.
  unfold fetch_page_metrics, bind, call_query, page_query, metrics_of, ret.
  destruct (searchanalytics_query _ _ _) as [[resp|err|text] s']; [|reflexivity..].
  destruct (rows_of resp); reflexivity.
Qed.

(** What one turn of the comparison loop does, by the replies of the service. *)
Lemma compare_item_run P total i u w :
  let q1 := page_query (cur_start_s P) (cur_end_s P) u in
  let q2 := page_query (prev_start_s P) (prev_end_s P) u in
  compare_item P total i u w =
  match searchanalytics_query (site_url P) q1 (w_svc w) with
  | (Failure e, s1) =>
      (Ok tt, mk_world s1 (w_trace w ++
         ([EvQuery (site_url P) q1; EvPrint (MsgHttpError u e);
           EvWriteRow (comparison_error_row P u)] ++ progress_events total i)))
  | (Crashed text, s1) =>
      (Raise (OtherException text),
       mk_world s1 (w_trace w ++ [EvQuery (site_url P) q1]))
  | (Reply r1, s1) =>
      match searchanalytics_query (site_url P) q2 s1 with
      | (Failure e, s2) =>
          (Ok tt, mk_world s2 (w_trace w ++
             ([EvQuery (site_url P) q1; EvQuery (site_url P) q2;
               EvPrint (MsgHttpError u e);
               EvWriteRow (comparison_error_row P u)] ++ progress_events total i)))
      | (Crashed text, s2) =>
          (Raise (OtherException text),
           mk_world s2 (w_trace w ++ [EvQuery (site_url P) q1; EvQuery (site_url P) q2]))
      | (Reply r2, s2) =>
          (Ok tt, mk_world s2 (w_trace w ++
             ([EvQuery (site_url P) q1; EvQuery (site_url P) q2;
               EvWriteRow (comparison_row P u (metrics_of r1) (metrics_of r2))]
              ++ progress_events total i)))
      end
  end.
Proof.
  cbv zeta. unfold compare_item, bind, try_except_HttpError.
  rewrite fetch_page_metrics_run.
  destruct (searchanalytics_query _ _ (w_svc w)) as [[r1|e|text] s1].
  - rewrite fetch_page_metrics_run. cbn [w_svc w_trace].
    destruct (searchanalytics_query _ _ s1) as [[r2|e|text] s2];
      unfold print, writerow, emit, ret, progress_events; cbn [w_svc w_trace];
      destruct (i mod 25 =? 0); cbn [w_svc w_trace];
      rewrite <- ?app_assoc; reflexivity.
  - unfold print, writerow, emit, ret, progress_events; cbn [w_svc w_trace];
      destruct (i mod 25 =? 0); cbn [w_svc w_trace];
      rewrite <- ?app_assoc; reflexivity.
  - reflexivity.
Qed.

Lemma progress_events_quiet total i :
  csv_rows (progress_events total i) = [] /\
  sleeps (progress_events total i) = [] /\
  fetches (progress_events total i) = [].
Proof. unfold progress_events. destruct (i mod 25 =? 0); repeat split. Qed.

Lemma comparison_row_target P u cur prev :
  comparison_row P u cur prev !! "page_url"%string = Some (CStr u).
Proof. reflexivity. Qed.

Lemma comparison_error_row_target P u :
  comparison_error_row P u !! "page_url"%string = Some (CStr u).
Proof. reflexivity. Qed.


(** One turn of the comparison loop never sleeps; when it returns it has
    written one row for its target, and when it raises it has written
    none and the exception is not an [HttpError]. *)
Lemma compare_item_effects P total i u w :
  exists t,
    w_trace (snd (compare_item P total i u w)) = w_trace w ++ t /\
    sleeps t = [] /\
    match fst (compare_item P total i u w) with
    | Ok _ => exists r, csv_rows t = [r] /\ r !! "page_url"%string = Some (CStr u)
    | Raise e => csv_rows t = [] /\ exists text, e = OtherException text
    end.
Proof.
  rewrite compare_item_run. cbv zeta.
  destruct (progress_events_quiet total i) as (Hc & Hs & _).
  destruct (searchanalytics_query _ _ (w_svc w)) as [[r1|e|text] s1];
    [destruct (searchanalytics_query _ _ s1) as [[r2|e|text] s2]| |];
    cbn [fst snd w_trace]; eexists; (split; [reflexivity|]);
    rewrite ?csv_rows_app, ?sleeps_app, ?Hc, ?Hs; cbn;
    (split; [reflexivity|]);
    first [ eexists; split; reflexivity
          | split; [reflexivity | eexists; reflexivity] ].
Qed.

(** The comparison loop never sleeps and writes the rows of its targets in
    order, one each, up to the target at which it raises, if it does. *)
Lemma compare_loop_effects P total urls : forall i w,
  exists t k,
    w_trace (snd (compare_loop P total i urls w)) = w_trace w ++ t /\
    (k <= length urls)%nat /\
    map (fun r : row => r !! "page_url"%string) (csv_rows t)
      = map (fun u => Some (CStr u)) (take k urls) /\
    sleeps t = [] /\
    match fst (compare_loop P total i urls w) with
    | Ok _ => k = length urls
    | Raise e => (k < length urls)%nat /\ exists text, e = OtherException text
    end.
Proof.
  induction urls as [|u rest IH]; intros i w.
  - exists [], 0%nat. cbn. rewrite app_nil_r. repeat split. lia.
  - destruct (compare_item_effects P total i u w) as (t1 & Ht1 & Hs1 & Hres).
    cbn [compare_loop]. unfold bind at 1 2.
    destruct (compare_item P total i u w) as [[[]|e] w1]; cbn [fst snd] in *.
    + destruct Hres as (r & Hrows & Hu).
      destruct (IH (i + 1) w1) as (t2 & k & Ht2 & Hk & Hrows2 & Hs2 & Hres2).
      exists (t1 ++ t2), (S k).
      split; [rewrite Ht2, Ht1, app_assoc; reflexivity|].
      split; [cbn [length]; lia|].
      split.
      { rewrite csv_rows_app, Hrows, map_app, Hrows2. cbn. now rewrite Hu. }
      split; [rewrite sleeps_app, Hs1, Hs2; reflexivity|].
      destruct (fst (compare_loop P total (i + 1) rest w1)); cbn [length].
      * now rewrite Hres2.
      * destruct Hres2 as [Hlt Hne]. split; [lia | exact Hne].
    + destruct Hres as [Hrows Hne].
      exists t1, 0%nat. split; [exact Ht1|]. split; [lia|].
      split; [now rewrite Hrows|]. split; [exact Hs1|].
      split; [cbn [length]; lia | exact Hne].
Qed.

End ComparisonItems.

(** ** The aggregation *)

Lemma Qgtb_true a b : Qgtb a b = true <-> (b < a)%Q.
Proof.
  unfold Qgtb. rewrite negb_true_iff. split.
  - intros Hf. apply Qnot_le_lt. intros Hle. apply Qle_bool_iff in Hle. congruence.
  - intros Hlt. destruct (Qle_bool a b) eqn:Hle; [|reflexivity].
    apply Qle_bool_iff in Hle. exfalso. apply (Qlt_not_le _ _ Hlt Hle).
Qed.

Lemma Qgtb_false a b : Qgtb a b = false <-> (a <= b)%Q.
Proof.
  unfold Qgtb. rewrite negb_false_iff. apply Qle_bool_iff.
Qed.

Lemma truediv_nonzero a b : ~ (b == 0)%Q -> truediv a b = Ok (a / b)%Q.
Proof.
  intros Hb. unfold truediv. destruct (Qeq_bool b 0) eqn:Heq; [|reflexivity].
  apply Qeq_bool_iff in Heq. contradiction.
Qed.

(** The aggregation in closed form: both divisions sit behind the same
    guard [total_impr > 0]. *)
Lemma aggregate_rows_closed rows :
  let t := sum_rows rows in
  aggregate_rows rows =
  Ok (if Qgtb (total_impr t) 0
      then mk_aggregate (total_clicks t) (total_impr t)
             (PFloat (total_clicks t / total_impr t))
             (Some (weighted_pos t / total_impr t)%Q)
      else mk_aggregate (total_clicks t) (total_impr t) (PInt 0) None).
Proof.
  cbv zeta. unfold aggregate_rows. cbv zeta.
  destruct (Qgtb (total_impr (sum_rows rows)) 0) eqn:Hg; [|reflexivity].
  apply Qgtb_true in Hg.
  rewrite !truediv_nonzero; [reflexivity | |];
    intros Hz; rewrite Hz in Hg; apply (Qlt_irrefl _ Hg).
Qed.

Lemma fold_add_row rows : forall t,
  (total_clicks (fold_left add_row rows t)
     == total_clicks t + sum_of (fun r => getf r "clicks") rows)%Q /\
  (total_impr (fold_left add_row rows t)
     == total_impr t + sum_of (fun r => getf r "impressions") rows)%Q /\
  (weighted_pos (fold_left add_row rows t)
     == weighted_pos t +
        sum_of (fun r => getf r "position" * getf r "impressions") rows)%Q.
Proof.
  induction rows as [|r rest IH]; intros t; cbn [fold_left sum_of].
  - repeat split; ring.
  - destruct (IH (add_row t r)) as (Hc & Hi & Hp).
    rewrite Hc, Hi, Hp. unfold add_row. cbn. repeat split; ring.
Qed.

Lemma sum_rows_totals rows :
  (total_clicks (sum_rows rows) == sum_of (fun r => getf r "clicks") rows)%Q /\
  (total_impr (sum_rows rows) == sum_of (fun r => getf r "impressions") rows)%Q /\
  (weighted_pos (sum_rows rows)
     == sum_of (fun r => getf r "position" * getf r "impressions") rows)%Q.
Proof.
  unfold sum_rows. destruct (fold_add_row rows (mk_totals 0 0 0)) as (Hc & Hi & Hp).
  rewrite Hc, Hi, Hp. cbn. repeat split; ring.
Qed.

Section KeywordAndInspectionItems.
Context `{Service}.

Lemma keyword_item_run K kw w :
  keyword_item K kw w =
  match searchanalytics_query (kw_site_url K) (keyword_query K kw) (w_svc w) with
  | (Failure e, s1) =>
      (Ok tt, mk_world s1 (w_trace w ++
         [EvQuery (kw_site_url K) (keyword_query K kw); EvPrint (MsgHttpError kw e);
          EvWriteRow (keyword_error_row K kw)]))
  | (Reply resp, s1) =>
      match rows_of resp with
      | [] =>
          (Ok tt, mk_world s1 (w_trace w ++
             [EvQuery (kw_site_url K) (keyword_query K kw);
              EvWriteRow (keyword_zero_row K kw)]))
      | rows =>
          match aggregate_rows rows with
          | Ok a =>
              (Ok tt, mk_world s1 (w_trace w ++
                 [EvQuery (kw_site_url K) (keyword_query K kw);
                  EvWriteRow (keyword_row K kw a)]))
          | Raise x =>
              (Raise x, mk_world s1 (w_trace w ++
                 [EvQuery (kw_site_url K) (keyword_query K kw)]))
          end
      end
  | (Crashed text, s1) =>
      (Raise (OtherException text),
       mk_world s1 (w_trace w ++ [EvQuery (kw_site_url K) (keyword_query K kw)]))
  end.
Proof.
  unfold keyword_item, bind, try_except_HttpError, call_query, keyword_query.
  destruct (searchanalytics_query _ _ (w_svc w)) as [[resp|e|text] s1].
  - destruct (rows_of resp) as [|r rest].
    + unfold writerow, emit. cbn [w_svc w_trace]. rewrite <- app_assoc. reflexivity.
    + unfold lift. rewrite aggregate_rows_closed. cbv zeta.
      unfold writerow, emit. cbn [w_svc w_trace]. rewrite <- app_assoc. reflexivity.
  - unfold print, writerow, emit. cbn [w_svc w_trace]. rewrite <- !app_assoc. reflexivity.
  - reflexivity.
Qed.

Lemma indexing_item_run site lang total i u w :
  let body := mk_inspect_body u site lang in
  indexing_item site lang total i u w =
  match index_inspect body (w_svc w) with
  | (InspectReply resp, s1) =>
      (Ok tt, mk_world s1 (w_trace w ++
         ([EvInspect body; EvWriteRow (fill_row (indexing_base_row site u) resp)]
          ++ progress_events total i ++ [EvSleep delay_seconds])))
  | (InspectHttpError e, s1) =>
      (Ok tt, mk_world s1 (w_trace w ++
         ([EvInspect body] ++ backoff_events i e ++
          [EvWriteRow (<["error"%string := http_error_cell e]> (indexing_base_row site u))]
          ++ progress_events total i ++ [EvSleep delay_seconds])))
  | (InspectException text, s1) =>
      (Ok tt, mk_world s1 (w_trace w ++
         ([EvInspect body;
           EvWriteRow (<["error"%string := CStr (of_string "Error: " ++ text)]>
                         (indexing_base_row site u))]
          ++ progress_events total i ++ [EvSleep delay_seconds])))
  end.
Proof.
  cbv zeta.
  unfold indexing_item, bind, try_except_HttpError_Exception, inspect_url,
    indexing_base_row, http_error_cell, backoff_events, progress_events.
  cbv zeta.
  destruct (index_inspect _ (w_svc w)) as [[resp|e|text] s1];
    cbn [is_Exception exn_text];
    unfold bind, sleep, print, writerow, emit, ret; cbn [w_svc w_trace];
    try destruct (is_transient (status_code e));
    destruct (i mod 25 =? 0); cbn [w_svc w_trace];
    rewrite <- ?app_assoc; reflexivity.
Qed.

End KeywordAndInspectionItems.

Lemma sum_rows_ignores_ctr f rows : forall t,
  fold_left add_row (map (with_ctr f) rows) t = fold_left add_row rows t.
Proof.
  induction rows as [|r rest IH]; intros t; [reflexivity|].
  cbn [map fold_left]. rewrite IH. f_equal.
  unfold add_row, getf, with_ctr. now rewrite !lookup_insert_ne by discriminate.
Qed.

(** C1 (as amended): for every non-empty list of rows whose impressions
    sum is positive, the keyword aggregate has clicks equal to the sum of
    the rows' clicks, impressions equal to the sum of the rows' impressions,
    position equal to the sum of position * impressions divided by the sum
    of impressions, and ctr equal to total clicks divided by total
    impressions; the per-row ctr of the service plays no part; the rows
    [{clicks:10, impressions:100, position:5}; {clicks:5, impressions:50,
    position:2}] give clicks 15, impressions 150, position 4.0, ctr 0.1,
    also in the row that is written. *)
Theorem keyword_aggregate_weighted :
  (forall rows : list apirow,
     rows <> [] ->
     (0 < sum_of impressions_of rows)%Q ->
     exists a c p,
       aggregate_rows rows = Ok a /\
       (agg_clicks a == sum_of clicks_of rows)%Q /\
       (agg_impressions a == sum_of impressions_of rows)%Q /\
       avg_pos a = Some p /\
       (p == sum_of (fun r => position_of r * impressions_of r) rows
             / sum_of impressions_of rows)%Q /\
       agg_ctr a = PFloat c /\
       (c == sum_of clicks_of rows / sum_of impressions_of rows)%Q) /\
  (forall f rows, aggregate_rows (map (with_ctr f) rows) = aggregate_rows rows) /\
  (exists a c p,
     aggregate_rows example_rows = Ok a /\
     (agg_clicks a == 15)%Q /\ (agg_impressions a == 150)%Q /\
     avg_pos a = Some p /\ (p == 4)%Q /\
     agg_ctr a = PFloat c /\ (c == 1 # 10)%Q /\
     forall K kw,
       keyword_row K kw a !! "clicks"%string = Some (CInt 15) /\
       keyword_row K kw a !! "impressions"%string = Some (CInt 150) /\
       (exists q, keyword_row K kw a !! "position"%string = Some (CFloat q) /\ (q == 4)%Q) /\
       (exists q, keyword_row K kw a !! "ctr"%string = Some (CFloat q) /\ (q == 1 # 10)%Q)).
Proof.
  split; [|split].
  - intros rows _ Hpos.
    destruct (sum_rows_totals rows) as (Hc & Hi & Hp).
    fold clicks_of impressions_of position_of in Hc, Hi, Hp.
    assert (Hg : Qgtb (total_impr (sum_rows rows)) 0 = true)
      by (apply Qgtb_true; rewrite Hi; exact Hpos).
    pose proof (aggregate_rows_closed rows) as Hagg. cbv zeta in Hagg.
    rewrite Hg in Hagg.
    eexists _, _, _. split; [exact Hagg|]. cbn.
    repeat split; try assumption; try reflexivity.
    + now rewrite Hp, Hi.
    + now rewrite Hc, Hi.
  - intros f rows. unfold aggregate_rows, sum_rows.
    now rewrite sum_rows_ignores_ctr.
  - eexists _, _, _. split; [vm_compute; reflexivity|].
    repeat split; try reflexivity.
    + eexists. split; [vm_compute; reflexivity|reflexivity].
    + eexists. split; [vm_compute; reflexivity|reflexivity].
Qed.

(** The general statement at the rows of the example. *)
Lemma keyword_aggregate_weighted_witness :
  exists a c p,
    aggregate_rows example_rows = Ok a /\
    avg_pos a = Some p /\
    (p == sum_of (fun r => position_of r * impressions_of r) example_rows
          / sum_of impressions_of example_rows)%Q /\
    agg_ctr a = PFloat c /\
    (c == sum_of clicks_of example_rows / sum_of impressions_of example_rows)%Q.
Proof.
  destruct (proj1 keyword_aggregate_weighted example_rows)
    as (a & c & p & Ha & _ & _ & Hp & Hpv & Hc & Hcv);
    [discriminate | reflexivity |].
  exists a, c, p. repeat split; assumption.
Defined.

(** C1 as the specification words it, for every non-empty list of rows,
    fails where the rows carry no impressions: the guard
    [total_impr > 0] leaves the position empty. *)
Lemma keyword_aggregate_no_impressions :
  [ ({[ "clicks"%string := 0%Q; "impressions"%string := 0%Q;
        "position"%string := 5%Q ]} : apirow) ] <> [] /\
  exists a,
    aggregate_rows [ {[ "clicks"%string := 0%Q; "impressions"%string := 0%Q;
                        "position"%string := 5%Q ]} ] = Ok a /\
    avg_pos a = None.
Proof.
  split; [discriminate|]. eexists. split; [vm_compute; reflexivity|reflexivity].
Qed.

(** C10: in the keyword aggregation no division has a zero divisor: the
    aggregation returns for every list of rows (division is modelled as
    raising [ZeroDivisionError] on a zero divisor), so the loop body never
    ends with [ZeroDivisionError], whatever the service replies; for a
    non-empty list whose impressions sum to 0 the ctr is 0 and the
    position is written as the empty string. *)
Theorem aggregation_division_guarded :
  (forall rows : list apirow, exists a, aggregate_rows rows = Ok a) /\
  (forall rows : list apirow,
     rows <> [] ->
     (sum_of impressions_of rows == 0)%Q ->
     exists a,
       aggregate_rows rows = Ok a /\
       agg_ctr a = PInt 0 /\
       avg_pos a = None /\
       forall K kw,
         keyword_row K kw a !! "ctr"%string = Some (CInt 0) /\
         keyword_row K kw a !! "position"%string = Some (CStr [])) /\
  (forall `(Service) K kw w, fst (keyword_item K kw w) <> Raise ZeroDivisionError).
Proof.
  split; [|split].
  - intros rows. rewrite aggregate_rows_closed. eexists. reflexivity.
  - intros rows _ Hzero.
    destruct (sum_rows_totals rows) as (_ & Hi & _).
    fold impressions_of in Hi.
    assert (Hg : Qgtb (total_impr (sum_rows rows)) 0 = false).
    { apply Qgtb_false. rewrite Hi, Hzero. apply Qle_refl. }
    pose proof (aggregate_rows_closed rows) as Hagg. cbv zeta in Hagg.
    rewrite Hg in Hagg.
    eexists. split; [exact Hagg|]. repeat split.
  - intros S K kw w. rewrite keyword_item_run.
    destruct (searchanalytics_query _ _ _) as [[resp|e|text] s1]; [|discriminate..].
    destruct (rows_of resp) as [|r rest]; [discriminate|].
    rewrite aggregate_rows_closed. discriminate.
Qed.

(** One row without impressions. *)
Lemma aggregation_division_guarded_witness :
  exists a,
    aggregate_rows [ {[ "clicks"%string := 0%Q; "impressions"%string := 0%Q;
                        "position"%string := 5%Q ]} ] = Ok a /\
    agg_ctr a = PInt 0 /\ avg_pos a = None.
Proof.
  destruct (proj1 (proj2 aggregation_division_guarded)
              [ {[ "clicks"%string := 0%Q; "impressions"%string := 0%Q;
                   "position"%string := 5%Q ]} ])
    as (a & Ha & Hc & Hp & _); [discriminate | reflexivity |].
  exists a. repeat split; assumption.
Defined.

(** ** The change calculator *)

Lemma Qeq_bool_false a b : Qeq_bool a b = false <-> ~ (a == b)%Q.
Proof.
  split.
  - intros Hf Heq. apply Qeq_bool_iff in Heq. congruence.
  - intros Hne. destruct (Qeq_bool a b) eqn:Hb; [|reflexivity].
    apply Qeq_bool_iff in Hb. contradiction.
Qed.

(** C2: for non-negative [current] and [previous], [pct_change] returns 0
    when both are 0, [None] when [previous] is 0 and [current] is positive,
    and [(current - previous) / previous * 100] otherwise; so
    [pct_change 0 0] is 0, [pct_change 150 100] is 50 and
    [pct_change 50 100] is -50; [None] is written as the empty string; the
    absolute change [current - previous] is written in every case. *)
Theorem pct_change_rule (current previous : Q) :
  (0 <= current)%Q -> (0 <= previous)%Q ->
  ((previous == 0)%Q -> (current == 0)%Q ->
     pct_change current previous = Some 0%Q) /\
  ((previous == 0)%Q -> (0 < current)%Q ->
     pct_change current previous = None /\
     pct_cell (pct_change current previous) = CStr []) /\
  (~ (previous == 0)%Q ->
     exists v, pct_change current previous = Some v /\
               (v == (current - previous) / previous * 100)%Q /\
               exists q, pct_cell (pct_change current previous) = CFloat q) /\
  pct_change 0 0 = Some 0%Q /\
  (exists v, pct_change 150 100 = Some v /\ (v == 50)%Q) /\
  (exists v, pct_change 50 100 = Some v /\ (v == -50)%Q) /\
  (forall P u cur prev,
     clicks cur = current -> clicks prev = previous ->
     comparison_row P u cur prev !! "clicks_change_abs"%string
       = Some (CInt (py_round (current - previous))) /\
     comparison_row P u cur prev !! "clicks_change_pct"%string
       = Some (pct_cell (pct_change current previous))) /\
  (forall P u cur prev,
     impressions cur = current -> impressions prev = previous ->
     comparison_row P u cur prev !! "impressions_change_abs"%string
       = Some (CInt (py_round (current - previous))) /\
     comparison_row P u cur prev !! "impressions_change_pct"%string
       = Some (pct_cell (pct_change current previous))).
Proof.
  intros Hc Hp.
  assert (Hundef : (previous == 0)%Q -> (0 < current)%Q ->
                   pct_change current previous = None).
  { intros Hp0 Hpos. unfold pct_change. apply Qeq_bool_iff in Hp0. rewrite Hp0.
    assert (Hne : Qeq_bool current 0 = false).
    { apply Qeq_bool_false. intros Heq. rewrite Heq in Hpos. apply (Qlt_irrefl _ Hpos). }
    now rewrite Hne. }
  split; [|split; [|split; [|repeat split]]].
  - intros Hp0 Hc0. unfold pct_change.
    apply Qeq_bool_iff in Hp0, Hc0. now rewrite Hp0, Hc0.
  - intros Hp0 Hpos. rewrite (Hundef Hp0 Hpos). split; reflexivity.
  - intros Hne. unfold pct_change. apply Qeq_bool_false in Hne. rewrite Hne.
    eexists. split; [reflexivity|]. split; [reflexivity|]. eexists. reflexivity.
  - eexists. split; reflexivity.
  - eexists. split; reflexivity.
  - subst. reflexivity.
  - subst. reflexivity.
  - subst. reflexivity.
  - subst. reflexivity.
Qed.

(** Seven clicks against none: the percentage is undefined. *)
Lemma pct_change_rule_witness :
  pct_change 7 0 = None /\ pct_cell (pct_change 7 0) = CStr [].
Proof.
  apply (proj1 (proj2 (pct_change_rule 7 0 ltac:(discriminate) ltac:(discriminate))));
    reflexivity.
Defined.

Section Batches.
Context `{Service}.

Lemma fill_row_target site u resp :
  fill_row (indexing_base_row site u) resp !! "inspection_url"%string = Some (CStr u).
Proof. reflexivity. Qed.

Lemma indexing_error_row_target site u c :
  (<["error"%string := c]> (indexing_base_row site u)) !! "inspection_url"%string
  = Some (CStr u).
Proof. reflexivity. Qed.

Lemma backoff_events_sleeps i e :
  sleeps (backoff_events i e) = if is_transient (status_code e) then [backoff i] else [].
Proof. unfold backoff_events. destruct (is_transient _); reflexivity. Qed.

(** One turn of the inspection loop: it returns, writes one row for its
    target, and pauses as [item_pauses] says. *)
Lemma indexing_item_effects site lang total i u w :
  exists w' t r,
    indexing_item site lang total i u w = (Ok tt, w') /\
    w_trace w' = w_trace w ++ t /\
    w_svc w' = snd (index_inspect (mk_inspect_body u site lang) (w_svc w)) /\
    csv_rows t = [r] /\
    r !! "inspection_url"%string = Some (CStr u) /\
    sleeps t = item_pauses i (fst (index_inspect (mk_inspect_body u site lang) (w_svc w))).
Proof.
  rewrite indexing_item_run. cbv zeta.
  destruct (progress_events_quiet total i) as (Hc & Hs & _).
  destruct (index_inspect _ (w_svc w)) as [[resp|e|text] s1]; cbn [fst snd];
    eexists _, _, _; (split; [reflexivity|]); (split; [reflexivity|]);
    (split; [reflexivity|]);
    rewrite !csv_rows_app, !sleeps_app, ?Hc, ?Hs, ?backoff_events_sleeps.
  - cbn. repeat split.
  - unfold backoff_events, item_pauses.
    destruct (is_transient (status_code e)); cbn; repeat split.
  - cbn. repeat split.
Qed.

Lemma indexing_loop_effects site lang total urls : forall i w,
  exists w' t,
    indexing_loop site lang total i urls w = (Ok tt, w') /\
    w_trace w' = w_trace w ++ t /\
    map (fun r : row => r !! "inspection_url"%string) (csv_rows t)
      = map (fun u => Some (CStr u)) urls /\
    sleeps t = batch_pauses i (inspect_replies site lang urls (w_svc w)).
Proof.
  induction urls as [|u rest IH]; intros i w.
  - exists w, []. cbn. rewrite app_nil_r. repeat split.
  - destruct (indexing_item_effects site lang total i u w)
      as (w1 & t1 & r & Hrun & Ht1 & Hsvc & Hrows & Hu & Hs).
    destruct (IH (i + 1) w1) as (w2 & t2 & Hrun2 & Ht2 & Hrows2 & Hs2).
    exists w2, (t1 ++ t2).
    cbn [indexing_loop]. unfold bind at 1. rewrite Hrun, Hrun2.
    split; [reflexivity|]. split; [rewrite Ht2, Ht1, app_assoc; reflexivity|].
    rewrite csv_rows_app, sleeps_app, Hrows, Hs, Hs2, map_app, Hrows2, Hsvc.
    cbn [inspect_replies].
    destruct (index_inspect _ (w_svc w)) as [rp s1]. cbn [fst snd batch_pauses map app].
    rewrite Hu. repeat split.
Qed.

Lemma keyword_rows_target K kw :
  keyword_zero_row K kw !! "keyword"%string = Some (CStr kw) /\
  keyword_error_row K kw !! "keyword"%string = Some (CStr kw) /\
  forall a, keyword_row K kw a !! "keyword"%string = Some (CStr kw).
Proof. repeat split. Qed.

(** One turn of the keyword loop never sleeps; when it returns it has
    written one row for its keyword, and when it raises it has written
    none and the exception is not an [HttpError]. *)
Lemma keyword_item_effects K kw w :
  exists t,
    w_trace (snd (keyword_item K kw w)) = w_trace w ++ t /\
    sleeps t = [] /\
    match fst (keyword_item K kw w) with
    | Ok _ => exists r, csv_rows t = [r] /\ r !! "keyword"%string = Some (CStr kw)
    | Raise e => csv_rows t = [] /\ exists text, e = OtherException text
    end.
Proof.
  rewrite keyword_item_run.
  destruct (keyword_rows_target K kw) as (Hz & He & Hr).
  destruct (searchanalytics_query _ _ (w_svc w)) as [[resp|e|text] s1].
  - destruct (rows_of resp) as [|r0 rest].
    + eexists. split; [reflexivity|]. cbn. split; [reflexivity|]. eauto.
    + rewrite aggregate_rows_closed. cbv zeta.
      eexists. split; [reflexivity|]. cbn. split; [reflexivity|]. eauto.
  - eexists. split; [reflexivity|]. cbn. split; [reflexivity|]. eauto.
  - eexists. split; [reflexivity|]. cbn. split; [reflexivity|].
    split; [reflexivity | eexists; reflexivity].
Qed.

(** The keyword loop never sleeps and writes the rows of its keywords in
    order, one each, up to the keyword at which it raises, if it does. *)
Lemma keyword_loop_effects K keywords : forall w,
  exists t k,
    w_trace (snd (keyword_loop K keywords w)) = w_trace w ++ t /\
    (k <= length keywords)%nat /\
    map (fun r : row => r !! "keyword"%string) (csv_rows t)
      = map (fun u => Some (CStr u)) (take k keywords) /\
    sleeps t = [] /\
    match fst (keyword_loop K keywords w) with
    | Ok _ => k = length keywords
    | Raise e => (k < length keywords)%nat /\ exists text, e = OtherException text
    end.
Proof.
  induction keywords as [|kw rest IH]; intros w.
  - exists [], 0%nat. cbn. rewrite app_nil_r. repeat split. lia.
  - destruct (keyword_item_effects K kw w) as (t1 & Ht1 & Hs1 & Hres).
    cbn [keyword_loop]. unfold bind at 1 2.
    destruct (keyword_item K kw w) as [[[]|e] w1]; cbn [fst snd] in *.
    + destruct Hres as (r & Hrows & Hu).
      destruct (IH w1) as (t2 & k & Ht2 & Hk & Hrows2 & Hs2 & Hres2).
      exists (t1 ++ t2), (S k).
      split; [rewrite Ht2, Ht1, app_assoc; reflexivity|].
      split; [cbn [length]; lia|].
      split.
      { rewrite csv_rows_app, Hrows, map_app, Hrows2. cbn. now rewrite Hu. }
      split; [rewrite sleeps_app, Hs1, Hs2; reflexivity|].
      destruct (fst (keyword_loop K rest w1)); cbn [length].
      * now rewrite Hres2.
      * destruct Hres2 as [Hlt Hne]. split; [lia | exact Hne].
    + destruct Hres as [Hrows Hne].
      exists t1, 0%nat. split; [exact Ht1|]. split; [lia|].
      split; [now rewrite Hrows|]. split; [exact Hs1|].
      split; [cbn [length]; lia | exact Hne].
Qed.



End Batches.


(** ** The retention window *)

(** The loop of [subtract_months] in closed form. *)
Lemma wrap_month_floor ym :
  snd ym <= 12 ->
  wrap_month ym = (fst ym + (snd ym - 1) / 12, (snd ym - 1) mod 12 + 1).
Proof.
  functional induction (wrap_month ym) as [ym y m Heq Hle IH | ym y m Heq Hpos];
    cbn [fst snd] in *; intros Hm.
  - rewrite IH by lia.
    replace (m + 12 - 1) with (m - 1 + 1 * 12) by lia.
    rewrite Z.div_add, Z.mod_add by lia. f_equal. lia.
  - apply Z.leb_gt in Hpos.
    rewrite Z.div_small, Z.mod_small by lia. f_equal; lia.
Qed.

Lemma wrap_month_closed y m :
  m <= 12 -> wrap_month (y, m) = (y + (m - 1) / 12, (m - 1) mod 12 + 1).
Proof. intros Hm. now rewrite wrap_month_floor. Qed.

Lemma days_in_month_bounds y m :
  1 <= m <= 12 -> 28 <= days_in_month y m <= 31.
Proof.
  intros Hm. unfold days_in_month.
  month_split m Hm; destruct (isleap y); cbn; lia.
Qed.

(** [months] calendar months before [d], the day clamped to the month. *)
Lemma subtract_months_closed d months :
  valid_date d = true -> 0 <= months ->
  let t := 12 * year d + (month d - 1) - months in
  let y := t / 12 in
  let m := t mod 12 + 1 in
  subtract_months d months = date_new y m (Z.min (day d) (days_in_month y m)) /\
  (1 <= y -> subtract_months d months = Ok (mkdate y m (Z.min (day d) (days_in_month y m)))).
Proof.
  intros V Hmonths. apply valid_date_iff in V as (Hy & Hm & Hd). cbv zeta.
  unfold subtract_months. rewrite wrap_month_closed by lia.
  replace (year d + (month d - months - 1) / 12)
    with ((12 * year d + (month d - 1) - months) / 12).
  2:{ replace (12 * year d + (month d - 1) - months)
        with (month d - months - 1 + year d * 12) by lia.
      rewrite Z.div_add by lia. lia. }
  replace ((month d - months - 1) mod 12)
    with ((12 * year d + (month d - 1) - months) mod 12).
  2:{ replace (12 * year d + (month d - 1) - months)
        with (month d - months - 1 + year d * 12) by lia.
      now rewrite Z.mod_add by lia. }
  set (t := 12 * year d + (month d - 1) - months).
  split; [reflexivity|]. intros Hy1.
  unfold date_new.
  assert (Hmr : 0 <= t mod 12 < 12) by (apply Z.mod_pos_bound; lia).
  assert (Hty : t / 12 <= year d).
  { apply Z.lt_succ_r. apply Z.div_lt_upper_bound; lia. }
  assert (Hdim : 28 <= days_in_month (t / 12) (t mod 12 + 1)).
  { apply days_in_month_bounds. lia. }
  replace (valid_date _) with true; [reflexivity|].
  symmetry. apply valid_date_iff. cbn [year month day]. lia.
Qed.

Section RetentionSteps.
Context `{Service}.

Lemma enforce_16_month_window_run E cur_start prev_start earliest w :
  earliest_gsc_date (today E) = Ok earliest ->
  enforce_16_month_window E cur_start prev_start w =
  if date_ltb cur_start earliest || date_ltb prev_start earliest
  then (Raise (SystemExit (ExitCode 1)),
        mk_world (w_svc w)
          (w_trace w ++ [EvPrint (MsgRetentionWarning earliest cur_start prev_start)]))
  else (Ok tt, w).
Proof.
  intros He. unfold enforce_16_month_window, bind, lift. rewrite He.
  destruct (date_ltb cur_start earliest || date_ltb prev_start earliest); reflexivity.
Qed.




End RetentionSteps.

Section RetentionClaim.
Context `{Service}.



End RetentionClaim.


Section Failures.
Context `{Service}.

Lemma comparison_error_row_empty P u :
  all_empty comparison_metric_fields (comparison_error_row P u).
Proof. unfold all_empty, comparison_metric_fields. repeat constructor. Qed.

Lemma indexing_error_row_empty site u c :
  all_empty indexing_result_fields (<["error"%string := c]> (indexing_base_row site u)).
Proof. unfold all_empty, indexing_result_fields. repeat constructor. Qed.

Lemma keyword_error_row_empty K kw :
  all_empty keyword_metric_fields (keyword_error_row K kw).
Proof. unfold all_empty, keyword_metric_fields. repeat constructor. Qed.

(** C7 (as amended): for every target whose fetch fails with an
    [HttpError], the row written for it has every metric field empty (not
    zero) and the batch continues with the next target; the inspection
    report fills the [error] column of the row with the error text, the
    comparison and keyword reports have no such column and print the error. *)
Theorem failed_fetch_row :
  (forall P total i u rest w e,
     (fst (searchanalytics_query (site_url P)
             (page_query (cur_start_s P) (cur_end_s P) u) (w_svc w)) = Failure e \/
      exists r1,
        fst (searchanalytics_query (site_url P)
               (page_query (cur_start_s P) (cur_end_s P) u) (w_svc w)) = Reply r1 /\
        fst (searchanalytics_query (site_url P)
               (page_query (prev_start_s P) (prev_end_s P) u)
               (snd (searchanalytics_query (site_url P)
                       (page_query (cur_start_s P) (cur_end_s P) u) (w_svc w))))
          = Failure e) ->
     exists w' t,
       compare_item P total i u w = (Ok tt, w') /\
       w_trace w' = w_trace w ++ t /\
       csv_rows t = [comparison_error_row P u] /\
       comparison_error_row P u !! "page_url"%string = Some (CStr u) /\
       all_empty comparison_metric_fields (comparison_error_row P u) /\
       has_error_marker (comparison_error_row P u) = false /\
       In (EvPrint (MsgHttpError u e)) t /\
       compare_loop P total i (u :: rest) w = compare_loop P total (i + 1) rest w') /\
  (forall K kw rest w e,
     fst (searchanalytics_query (kw_site_url K) (keyword_query K kw) (w_svc w))
       = Failure e ->
     exists w' t,
       keyword_item K kw w = (Ok tt, w') /\
       w_trace w' = w_trace w ++ t /\
       csv_rows t = [keyword_error_row K kw] /\
       keyword_error_row K kw !! "keyword"%string = Some (CStr kw) /\
       all_empty keyword_metric_fields (keyword_error_row K kw) /\
       has_error_marker (keyword_error_row K kw) = false /\
       In (EvPrint (MsgHttpError kw e)) t /\
       keyword_loop K (kw :: rest) w = keyword_loop K rest w') /\
  (forall site lang total i u rest w e,
     fst (index_inspect (mk_inspect_body u site lang) (w_svc w)) = InspectHttpError e ->
     exists w' t r,
       indexing_item site lang total i u w = (Ok tt, w') /\
       w_trace w' = w_trace w ++ t /\
       csv_rows t = [r] /\
       r !! "inspection_url"%string = Some (CStr u) /\
       all_empty indexing_result_fields r /\
       r !! "error"%string = Some (http_error_cell e) /\
       has_error_marker r = true /\
       indexing_loop site lang total i (u :: rest) w
         = indexing_loop site lang total (i + 1) rest w').
Proof.
  split; [|split].
  - intros P total i u rest w e Hfail.
    pose proof (compare_item_run P total i u w) as Hrun. cbv zeta in Hrun.
    destruct (progress_events_quiet total i) as (Hc & _ & _).
    destruct (searchanalytics_query _ _ (w_svc w)) as [[r1|e1|text1] s1];
      cbn [fst snd] in Hfail;
      [| |destruct Hfail as [Hf|(r1' & Hf & _)]; discriminate].
    + destruct Hfail as [Hf|(r1' & _ & Hf)]; [discriminate|].
      destruct (searchanalytics_query _ _ s1) as [[r2|e2|text2] s2]; cbn [fst] in Hf;
        [discriminate| |discriminate]. injection Hf as ->.
      eexists _, _. split; [exact Hrun|]. split; [reflexivity|].
      rewrite csv_rows_app, Hc. cbn [compare_loop]. unfold bind at 1. rewrite Hrun.
      repeat split; try reflexivity.
      * apply comparison_error_row_empty.
      * cbn. tauto.
    + destruct Hfail as [Hf|(r1' & Hf & _)]; [|discriminate]. injection Hf as ->.
      eexists _, _. split; [exact Hrun|]. split; [reflexivity|].
      rewrite csv_rows_app, Hc. cbn [compare_loop]. unfold bind at 1. rewrite Hrun.
      repeat split; try reflexivity.
      * apply comparison_error_row_empty.
      * cbn. tauto.
  - intros K kw rest w e Hfail.
    pose proof (keyword_item_run K kw w) as Hrun.
    destruct (searchanalytics_query _ _ (w_svc w)) as [[r1|e1|text1] s1];
      cbn [fst] in Hfail; [discriminate| |discriminate]. injection Hfail as ->.
    eexists _, _. split; [exact Hrun|]. split; [reflexivity|].
    cbn [keyword_loop]. unfold bind at 1. rewrite Hrun.
    repeat split; try reflexivity.
    + apply keyword_error_row_empty.
    + cbn. tauto.
  - intros site lang total i u rest w e Hfail.
    pose proof (indexing_item_run site lang total i u w) as Hrun. cbv zeta in Hrun.
    destruct (progress_events_quiet total i) as (Hc & _ & _).
    destruct (index_inspect _ (w_svc w)) as [[resp|e1|text] s1]; cbn [fst] in Hfail;
      try discriminate. injection Hfail as ->.
    eexists _, _, _. split; [exact Hrun|]. split; [reflexivity|].
    rewrite !csv_rows_app, Hc. cbn [indexing_loop]. unfold bind at 1. rewrite Hrun.
    split.
    { unfold backoff_events. destruct (is_transient _); reflexivity. }
    repeat split; try reflexivity.
    apply indexing_error_row_empty.
Qed.

End Failures.

(** A rate-limited request in comparison mode. *)
Lemma failed_fetch_row_witness :
  exists w' t,
    compare_item (H := constant_service None (Some rate_limited))
      example_periods 1 1 example_url (start_world None (Some rate_limited)) = (Ok tt, w') /\
    w_trace w' = t /\
    csv_rows t = [comparison_error_row example_periods example_url] /\
    In (EvPrint (MsgHttpError example_url rate_limited)) t.
Proof.
  destruct (proj1 (failed_fetch_row (H := constant_service None (Some rate_limited)))
              example_periods 1 1 example_url []
              (start_world None (Some rate_limited)) rate_limited)
    as (w' & t & Hrun & Ht & Hrows & _ & _ & _ & Hprint & _).
  - left. reflexivity.
  - exists w', t. repeat split; assumption.
Defined.

(** C7 as the specification words it, with an error marker in the row,
    fails in comparison mode: the row of a failed target has the columns
    of every other row, and only the six identifying ones are filled. *)
Lemma comparison_error_row_unmarked :
  exists w',
    compare_item (H := constant_service None (Some rate_limited))
      example_periods 1 1 example_url (start_world None (Some rate_limited)) = (Ok tt, w') /\
    csv_rows (w_trace w') = [comparison_error_row example_periods example_url] /\
    has_error_marker (comparison_error_row example_periods example_url) = false /\
    dom (comparison_error_row example_periods example_url)
      = list_to_set comparison_fieldnames /\
    List.filter
      (fun k => negb (is_empty_cell
                  (default empty_cell (comparison_error_row example_periods example_url !! k))))
      comparison_fieldnames
    = ["page_url"; "site_url"; "current_start"; "current_end";
       "previous_start"; "previous_end"]%string.
Proof.
  eexists. split; [vm_compute; reflexivity|].
  split; [reflexivity|]. split; [reflexivity|].
  split; [|reflexivity].
  refine (bool_decide_unpack _ _). vm_compute. exact I.
Qed.

Lemma backoff_bounds i : (1 <= backoff i)%Q /\ (backoff i <= 7)%Q /\ (backoff i <= 10)%Q.
Proof.
  pose proof (Z.mod_pos_bound i 5 ltac:(lia)) as Hm.
  assert (Hc : i mod 5 = 0 \/ i mod 5 = 1 \/ i mod 5 = 2 \/ i mod 5 = 3 \/ i mod 5 = 4)
    by lia.
  unfold backoff.
  destruct Hc as [->|[->|[->|[->| ->]]]]; vm_compute; repeat split; discriminate.
Qed.

Lemma is_transient_iff s :
  is_transient s = true <-> s = Some 429 \/ s = Some 500 \/ s = Some 503.
Proof.
  destruct s as [z|]; cbn [is_transient].
  - rewrite !orb_true_iff, !Z.eqb_eq. split.
    + intros [[->| ->]| ->]; tauto.
    + intros [[= ->]|[[= ->]|[= ->]]]; tauto.
  - split; [discriminate|]. intros [|[|]]; discriminate.
Qed.

Section Pacing.
Context `{Service}.

(** C8 (as amended): the inspection runner pauses [delay_seconds] (0.15 s)
    after every target, success or failure; an [HttpError] with status
    429, 500 or 503 brings exactly one more pause, the back-off
    [min(10, 1 + (i mod 5) * 1.5)], between 1 and 10 seconds, taken before
    the next request; any other failure brings none; the comparison and
    keyword runners never pause, whether their run returns or is ended by
    an exception. *)
Theorem pacing_and_backoff :
  (forall site lang total i u w,
     exists w' mid,
       indexing_item site lang total i u w = (Ok tt, w') /\
       w_trace w' = w_trace w ++
         [EvInspect (mk_inspect_body u site lang)] ++ mid ++ [EvSleep delay_seconds] /\
       fetches mid = [] /\
       sleeps mid
         = backoff_pause i (fst (index_inspect (mk_inspect_body u site lang) (w_svc w)))) /\
  (forall site lang total i (urls : list pystr) w,
     exists w' t,
       indexing_loop site lang total i urls w = (Ok tt, w') /\
       w_trace w' = w_trace w ++ t /\
       sleeps t = batch_pauses i (inspect_replies site lang urls (w_svc w))) /\
  (forall i r, item_pauses i r = backoff_pause i r ++ [delay_seconds]) /\
  (forall i, (1 <= backoff i)%Q /\ (backoff i <= 10)%Q) /\
  (delay_seconds == 0.15)%Q /\
  (forall s, is_transient s = true <-> s = Some 429 \/ s = Some 500 \/ s = Some 503) /\
  (forall P total i (urls : list pystr) w,
     exists t,
       w_trace (snd (compare_loop P total i urls w)) = w_trace w ++ t /\ sleeps t = []) /\
  (forall K (keywords : list pystr) w,
     exists t,
       w_trace (snd (keyword_loop K keywords w)) = w_trace w ++ t /\ sleeps t = []).
Proof.
  repeat apply conj.
  - intros site lang total i u w.
    rewrite indexing_item_run. cbv zeta.
    destruct (progress_events_quiet total i) as (_ & Hs & Hf).
    destruct (index_inspect _ (w_svc w)) as [[resp|e|text] s1]; cbn [fst backoff_pause].
    + eexists _, ([_] ++ progress_events total i).
      split; [reflexivity|]. split; [reflexivity|].
      rewrite fetches_app, sleeps_app, Hs, Hf. split; reflexivity.
    + eexists _, (backoff_events i e ++ [_] ++ progress_events total i).
      split; [reflexivity|]. split; [now rewrite <- !app_assoc|].
      rewrite !fetches_app, !sleeps_app, backoff_events_sleeps, Hs, Hf.
      unfold backoff_events.
      destruct (is_transient (status_code e)); split; reflexivity.
    + eexists _, ([_] ++ progress_events total i).
      split; [reflexivity|]. split; [reflexivity|].
      rewrite fetches_app, sleeps_app, Hs, Hf. split; reflexivity.
  - intros site lang total i urls w.
    destruct (indexing_loop_effects site lang total urls i w)
      as (w' & t & Hrun & Ht & _ & Hs).
    exists w', t. repeat split; assumption.
  - intros i [resp|e|text]; cbn; [reflexivity| |reflexivity].
    destruct (is_transient (status_code e)); reflexivity.
  - intros i. destruct (backoff_bounds i) as (Hlo & _ & Hhi). split; assumption.
  - reflexivity.
  - apply is_transient_iff.
  - intros P total i urls w.
    destruct (compare_loop_effects P total urls i w) as (t & k & Ht & _ & _ & Hs & _).
    exists t. split; assumption.
  - intros K keywords w.
    destruct (keyword_loop_effects K keywords w) as (t & k & Ht & _ & _ & Hs & _).
    exists t. split; assumption.
Qed.

(** C4 (as amended): for a target whose response has no rows, the keyword
    report writes clicks 0, impressions 0, ctr 0 and an empty position; in
    comparison mode [fetch_page_metrics] returns 0.0 for the four metrics,
    and the row written for the target shows, for the period without rows,
    clicks 0, impressions 0, ctr 0.0 and the position as the number 0.0
    (not empty) when the request of the other period returns a response;
    when that request raises [HttpError] the row written is the error
    row, whose metric fields, the positions included, are all empty. *)
Theorem zero_rows_record :
  (forall K kw w resp,
     fst (searchanalytics_query (kw_site_url K) (keyword_query K kw) (w_svc w))
       = Reply resp ->
     rows_of resp = [] ->
     exists w' t r,
       keyword_item K kw w = (Ok tt, w') /\
       w_trace w' = w_trace w ++ t /\
       csv_rows t = [r] /\
       r !! "clicks"%string = Some (CInt 0) /\
       r !! "impressions"%string = Some (CInt 0) /\
       r !! "ctr"%string = Some (CInt 0) /\
       r !! "position"%string = Some (CStr [])) /\
  (forall site page s e w resp,
     fst (searchanalytics_query site (page_query s e page) (w_svc w)) = Reply resp ->
     rows_of resp = [] ->
     exists w', fetch_page_metrics site page s e w = (Ok (mk_metrics 0 0 0 0), w')) /\
  (forall P total i u w r1,
     let q1 := page_query (cur_start_s P) (cur_end_s P) u in
     let q2 := page_query (prev_start_s P) (prev_end_s P) u in
     fst (searchanalytics_query (site_url P) q1 (w_svc w)) = Reply r1 ->
     rows_of r1 = [] ->
     exists t,
       w_trace (snd (compare_item P total i u w)) = w_trace w ++ t /\
       match fst (searchanalytics_query (site_url P) q2
                    (snd (searchanalytics_query (site_url P) q1 (w_svc w)))) with
       | Reply r2 =>
           exists r c p,
             fst (compare_item P total i u w) = Ok tt /\
             csv_rows t = [r] /\
             r !! "clicks_current"%string = Some (CInt 0) /\
             r !! "impressions_current"%string = Some (CInt 0) /\
             r !! "ctr_current"%string = Some (CFloat c) /\ (c == 0)%Q /\
             r !! "position_current"%string = Some (CFloat p) /\ (p == 0)%Q /\
             is_empty_cell (CFloat p) = false
       | Failure e =>
           fst (compare_item P total i u w) = Ok tt /\
           csv_rows t = [comparison_error_row P u] /\
           all_empty comparison_metric_fields (comparison_error_row P u) /\
           comparison_error_row P u !! "position_current"%string = Some (CStr [])
       | Crashed text =>
           fst (compare_item P total i u w) = Raise (OtherException text) /\
           csv_rows t = []
       end) /\
  (forall P total i u w r1 r2,
     let q1 := page_query (cur_start_s P) (cur_end_s P) u in
     let q2 := page_query (prev_start_s P) (prev_end_s P) u in
     fst (searchanalytics_query (site_url P) q1 (w_svc w)) = Reply r1 ->
     fst (searchanalytics_query (site_url P) q2
            (snd (searchanalytics_query (site_url P) q1 (w_svc w)))) = Reply r2 ->
     rows_of r2 = [] ->
     exists t r c p,
       fst (compare_item P total i u w) = Ok tt /\
       w_trace (snd (compare_item P total i u w)) = w_trace w ++ t /\
       csv_rows t = [r] /\
       r !! "clicks_previous"%string = Some (CInt 0) /\
       r !! "impressions_previous"%string = Some (CInt 0) /\
       r !! "ctr_previous"%string = Some (CFloat c) /\ (c == 0)%Q /\
       r !! "position_previous"%string = Some (CFloat p) /\ (p == 0)%Q /\
       is_empty_cell (CFloat p) = false).
Proof.
  split; [|split; [|split]].
  - intros K kw w resp Hq Hrows.
    pose proof (keyword_item_run K kw w) as Hrun.
    destruct (searchanalytics_query _ _ (w_svc w)) as [[r1|e1|text1] s1]; cbn [fst] in Hq;
      [|discriminate..]. injection Hq as ->. rewrite Hrows in Hrun.
    eexists _, _, _. split; [exact Hrun|]. split; [reflexivity|].
    repeat split.
  - intros site page s e w resp Hq Hrows.
    rewrite fetch_page_metrics_run.
    destruct (searchanalytics_query _ _ (w_svc w)) as [[r1|e1|text1] s1]; cbn [fst] in Hq;
      [|discriminate..]. injection Hq as ->.
    unfold metrics_of. rewrite Hrows. eexists. reflexivity.
  - intros P total i u w r1. cbv zeta. intros Hq Hrows.
    rewrite compare_item_run. cbv zeta.
    destruct (progress_events_quiet total i) as (Hc & _ & _).
    destruct (searchanalytics_query _ _ (w_svc w)) as [rp s1]. cbn [fst snd] in *.
    subst rp.
    destruct (searchanalytics_query _ _ s1) as [[r2|e2|text2] s2]; cbn [fst snd w_trace];
      eexists; (split; [reflexivity|]); rewrite ?csv_rows_app, ?Hc.
    + unfold metrics_of at 1. rewrite Hrows.
      eexists _, _, _. split; [reflexivity|]. split; [reflexivity|].
      split; [reflexivity|]. split; [reflexivity|].
      split; [reflexivity|]. split; [reflexivity|].
      split; [reflexivity|]. split; reflexivity.
    + split; [reflexivity|]. split; [reflexivity|].
      split; [|reflexivity]. unfold all_empty, comparison_metric_fields. repeat constructor.
    + split; reflexivity.
  - intros P total i u w r1 r2. cbv zeta. intros Hq1 Hq2 Hrows.
    rewrite compare_item_run. cbv zeta.
    destruct (progress_events_quiet total i) as (Hc & _ & _).
    destruct (searchanalytics_query _ _ (w_svc w)) as [rp s1]. cbn [fst snd] in *.
    subst rp.
    destruct (searchanalytics_query _ _ s1) as [rp s2]. cbn [fst snd] in *. subst rp.
    cbn [fst snd w_trace]. unfold metrics_of at 2. rewrite Hrows.
    eexists _, _, _, _. split; [reflexivity|]. split; [reflexivity|].
    rewrite csv_rows_app, Hc.
    split; [reflexivity|]. split; [reflexivity|]. split; [reflexivity|].
    split; [reflexivity|]. split; [reflexivity|]. split; [reflexivity|].
    split; reflexivity.
Qed.

End Pacing.

(** A keyword without matching rows. *)
Lemma zero_rows_record_witness :
  exists w' t r,
    keyword_item (H := constant_service None None)
      (mk_keyword_run (of_string "sc-domain:example.com") (of_string "2026-03-01")
         (of_string "2026-03-31") (of_string "equals"))
      (of_string "rocq") (start_world None None) = (Ok tt, w') /\
    w_trace w' = t /\ csv_rows t = [r] /\
    r !! "position"%string = Some (CStr []).
Proof.
  destruct (proj1 (zero_rows_record (H := constant_service None None))
              (mk_keyword_run (of_string "sc-domain:example.com") (of_string "2026-03-01")
                 (of_string "2026-03-31") (of_string "equals"))
              (of_string "rocq") (start_world None None) (mk_response None))
    as (w' & t & r & Hrun & Ht & Hrows & _ & _ & _ & Hpos);
    [reflexivity | reflexivity |].
  exists w', t, r. repeat split; assumption.
Defined.

(** C4 as the specification words it, with an empty position in both
    modes, fails in comparison mode: the position of a target without rows
    is written as the number 0.0. *)
Lemma comparison_zero_rows_position :
  exists w' r,
    compare_item (H := constant_service (Some []) None)
      example_periods 1 1 example_url (start_world (Some []) None) = (Ok tt, w') /\
    csv_rows (w_trace w') = [r] /\
    r !! "position_current"%string = Some (CFloat (0 # 100)) /\
    r !! "position_previous"%string = Some (CFloat (0 # 100)) /\
    is_empty_cell (CFloat (0 # 100)) = false.
Proof.
  eexists _, _. split; [vm_compute; reflexivity|].
  split; [reflexivity|]. repeat split.
Qed.

(** C8 as the specification words it, with a pause after every item of
    every runner, fails in comparison mode: no pause is taken, even when
    every request is rate-limited. *)
Lemma comparison_runner_never_pauses :
  exists w',
    compare_loop (H := constant_service None (Some rate_limited))
      example_periods 2 1 [example_url; of_string "https://example.com/b"]
      (start_world None (Some rate_limited)) = (Ok tt, w') /\
    length (csv_rows (w_trace w')) = 2%nat /\
    sleeps (w_trace w') = [].
Proof.
  eexists. split; [vm_compute; reflexivity|]. split; reflexivity.
Qed.

(** * Further properties of the scripts *)

(** ** The prompts and helpers *)

Lemma lstrip_head s c : head s = Some c -> isspace c = false -> lstrip s = s.
Proof. destruct s as [|x s]; [discriminate|]. intros [= ->] Hc. cbn. now rewrite Hc. Qed.

Lemma strip_fixed s :
  stripped s -> s <> [] -> strip s = s.
Proof.
  intros [Hh Hl] Hne. unfold strip, rstrip.
  destruct s as [|x s]; [contradiction|].
  rewrite (lstrip_head (x :: s) x eq_refl (Hh x eq_refl)).
  destruct (last (x :: s)) as [y|] eqn:Hlast.
  - rewrite (lstrip_head (rev (x :: s)) y).
    + apply rev_involutive.
    + rewrite <- Hlast. destruct (rev (x :: s)) eqn:Hr.
      * apply (f_equal (@rev _)) in Hr. rewrite rev_involutive in Hr. discriminate.
      * rewrite <- Hr, <- last_rev, rev_involutive. reflexivity.
    + apply Hl. reflexivity.
  - apply last_None in Hlast. discriminate.
Qed.

Lemma digit_range n : (48 <= digit n <= 57)%N.
Proof.
  unfold digit. pose proof (Z.mod_pos_bound n 10 ltac:(lia)). lia.
Qed.

Lemma digit_not_space n : isspace (digit n) = false.
Proof.
  pose proof (digit_range n) as Hr.
  assert (Hc : (digit n = 48 \/ digit n = 49 \/ digit n = 50 \/ digit n = 51 \/
                digit n = 52 \/ digit n = 53 \/ digit n = 54 \/ digit n = 55 \/
                digit n = 56 \/ digit n = 57)%N) by lia.
  destruct Hc as [->|[->|[->|[->|[->|[->|[->|[->|[->| ->]]]]]]]]]; reflexivity.
Qed.

(** X1: [prompt_date] accepts an answer exactly when, stripped, it has ten
    characters with a hyphen at positions 4 and 7, and then returns the
    stripped answer; otherwise it raises [ValueError]. Digits are not
    checked. The ISO form of every date is accepted unchanged. *)
Theorem prompt_date_shape :
  (forall answer s,
     prompt_date answer = Ok s <->
     s = strip answer /\ length s = 10%nat /\
     s !! 4%nat = Some 45%N /\ s !! 7%nat = Some 45%N) /\
  (forall answer,
     prompt_date answer = Raise ValueError \/ prompt_date answer = Ok (strip answer)) /\
  (forall d, prompt_date (isoformat d) = Ok (isoformat d)) /\
  (forall d ws1 ws2, all_space ws1 -> all_space ws2 ->
     prompt_date (ws1 ++ isoformat d ++ ws2) = Ok (isoformat d)).
Proof.
  assert (Hiff : forall answer s,
     prompt_date answer = Ok s <->
     s = strip answer /\ length s = 10%nat /\
     s !! 4%nat = Some 45%N /\ s !! 7%nat = Some 45%N).
  { intros answer s. unfold prompt_date. cbv zeta.
    destruct (Nat.eqb_spec (length (strip answer)) 10) as [Hlen|Hlen]; cbn [negb orb].
    - destruct (bool_decide_reflect (strip answer !! 4%nat = Some 45%N)) as [H4|H4];
        cbn [negb orb].
      + destruct (bool_decide_reflect (strip answer !! 7%nat = Some 45%N)) as [H7|H7];
          cbn [negb].
        * split; [intros [= <-]; tauto | intros (-> & _); reflexivity].
        * split; [discriminate | intros (-> & _ & _ & H); contradiction].
      + split; [discriminate | intros (-> & _ & H & _); contradiction].
    - split; [discriminate | intros (-> & H & _); contradiction]. }
  assert (Hstripped : forall d, stripped (isoformat d)).
  { intros d. split; intros c [= <-]; apply digit_not_space. }
  assert (Hiso : forall d, prompt_date (isoformat d) = Ok (isoformat d)).
  { intros d. apply Hiff. rewrite strip_fixed by (apply Hstripped || discriminate).
    repeat split. }
  repeat apply conj.
  - exact Hiff.
  - intros answer. destruct (prompt_date answer) as [s|e] eqn:Hp.
    + right. apply Hiff in Hp as (-> & _). reflexivity.
    + left. unfold prompt_date in Hp. cbv zeta in Hp.
      destruct (_ || _); [symmetry; exact Hp | discriminate].
  - exact Hiso.
  - intros d ws1 ws2 H1 H2.
    assert (Hs : strip (ws1 ++ isoformat d ++ ws2) = isoformat d).
    { unfold strip.
      assert (Hl : forall ws t, all_space ws ->
                 (forall c, head t = Some c -> isspace c = false) ->
                 t <> [] -> lstrip (ws ++ t) = t).
      { intros ws t Hws Ht Hne. induction Hws as [|c ws Hc _ IH]; cbn.
        - destruct t as [|x t]; [contradiction|]. cbn. now rewrite (Ht x eq_refl).
        - now rewrite Hc. }
      destruct (Hstripped d) as [Hh Hla].
      rewrite Hl; [| exact H1 | | discriminate].
      2:{ intros c Hc. apply Hh. exact Hc. }
      unfold rstrip. change (isoformat d ++ ws2) with (isoformat d ++ ws2).
      rewrite rev_app_distr.
      rewrite Hl.
      - apply rev_involutive.
      - apply List.Forall_rev. exact H2.
      - intros c Hc. apply Hla. rewrite <- Hc, <- (rev_involutive (isoformat d)) at 1.
        apply last_rev.
      - discriminate. }
    pose proof (Hiso d) as Hd. unfold prompt_date in *. cbv zeta in *.
    rewrite Hs. rewrite strip_fixed in Hd by (apply Hstripped || discriminate).
    exact Hd.
Qed.

(** ** The first existing path *)

Lemma unusable_iff ex p : unusable ex p <-> str_truthy p && ex p = false.
Proof.
  unfold unusable. destruct p as [|c p]; cbn.
  - split; [reflexivity | now left].
  - split; [intros [|]; [discriminate | assumption] | now right].
Qed.

(** X2: [first_existing_path] returns the first path of the list that is
    not empty and exists, and [None] exactly when the list has none. *)
Theorem first_existing_path_first (ex : pystr -> bool) (paths : list pystr) :
  (forall p,
     first_existing_path ex paths = Some p <->
     exists before after,
       paths = before ++ p :: after /\ p <> [] /\ ex p = true /\
       Forall (unusable ex) before) /\
  (first_existing_path ex paths = None <-> Forall (unusable ex) paths).
Proof.
  induction paths as [|q rest [IHs IHn]].
  - split.
    + intros p. split; [discriminate|].
      intros (before & after & Heq & _). destruct before; discriminate.
    + split; [constructor | reflexivity].
  - cbn [first_existing_path].
    destruct (str_truthy q && ex q) eqn:Hq.
    + apply andb_true_iff in Hq as [Hq1 Hq2]. split.
      * intros p. split.
        -- intros [= <-]. exists [], rest. repeat split; try assumption.
           ++ intros ->. discriminate.
           ++ constructor.
        -- intros (before & after & Heq & Hne & Hex & Hbefore).
           destruct before as [|b before]; cbn in Heq.
           ++ now injection Heq as ->.
           ++ injection Heq as -> _. apply Forall_cons in Hbefore as [Hb _].
              apply unusable_iff in Hb. rewrite Hq1, Hq2 in Hb. discriminate.
      * split; [discriminate|]. intros Hall. apply Forall_cons in Hall as [Hb _].
        apply unusable_iff in Hb. rewrite Hq1, Hq2 in Hb. discriminate.
    + apply unusable_iff in Hq. split.
      * intros p. rewrite IHs. split.
        -- intros (before & after & -> & Hne & Hex & Hbefore).
           exists (q :: before), after. repeat split; try assumption.
           constructor; assumption.
        -- intros (before & after & Heq & Hne & Hex & Hbefore).
           destruct before as [|b before]; cbn in Heq.
           ++ injection Heq as -> _. destruct Hq as [?|Hq]; [contradiction|congruence].
           ++ injection Heq as -> ->. apply Forall_cons in Hbefore as [_ Hbefore].
              exists before, after. repeat split; assumption.
      * rewrite IHn. split.
        -- intros Hall. constructor; assumption.
        -- intros Hall. now apply Forall_cons in Hall as [_ Hall].
Qed.

(** ** [safe_get] *)

Lemma safe_get_lookup_path d path def :
  safe_get d path def = default def (lookup_path d path).
Proof.
  revert d. induction path as [|k rest IH]; intros d; [reflexivity|].
  cbn. destruct d as [| | | | |m]; try reflexivity.
  destruct (m !! k); [apply IH | reflexivity].
Qed.

Lemma lookup_path_app d p q :
  lookup_path d (p ++ q) = lookup_path d p ≫= fun v => lookup_path v q.
Proof.
  revert d. induction p as [|k rest IH]; intros d; [reflexivity|].
  cbn. destruct d as [| | | | |m]; try reflexivity.
  destruct (m !! k); [apply IH | reflexivity].
Qed.

(** X3: [safe_get] walks the keys one dictionary at a time: along a path
    [p ++ q] it is [safe_get] along [q] from the value that [p] leads to,
    and the default as soon as a step is not a dictionary or lacks the key;
    a key just inserted is found again; a stored null is returned as it
    is, not replaced by the default. *)
Theorem safe_get_compose :
  (forall d p q def,
     safe_get d (p ++ q) def =
     match lookup_path d p with
     | Some v => safe_get v q def
     | None => def
     end) /\
  (forall m k v p def,
     safe_get (JDict (<[k := v]> m)) (k :: p) def = safe_get v p def) /\
  (forall m k k' v p def, k <> k' ->
     safe_get (JDict (<[k := v]> m)) (k' :: p) def = safe_get (JDict m) (k' :: p) def) /\
  (forall m k p def, m !! k = None -> safe_get (JDict m) (k :: p) def = def) /\
  (forall d k p def, (forall m, d <> JDict m) -> safe_get d (k :: p) def = def) /\
  (forall m k def, m !! k = Some JNull -> safe_get (JDict m) [k] def = JNull).
Proof.
  repeat apply conj.
  - intros d p q def.
    rewrite safe_get_lookup_path, lookup_path_app.
    destruct (lookup_path d p) as [v|]; cbn; [|reflexivity].
    symmetry. apply safe_get_lookup_path.
  - intros m k v p def. cbn. now rewrite lookup_insert_eq.
  - intros m k k' v p def Hne. cbn. now rewrite lookup_insert_ne.
  - intros m k p def Hk. cbn. now rewrite Hk.
  - intros d k p def Hd. destruct d as [| | | | |m]; try reflexivity.
    exfalso. now apply (Hd m).
  - intros m k def Hk. cbn. now rewrite Hk.
Qed.

(** ** More on the change calculator *)

Lemma pct_change_nonzero c p :
  ~ (p == 0)%Q -> pct_change c p = Some ((c - p) / p * 100)%Q.
Proof. intros Hp. unfold pct_change. apply Qeq_bool_false in Hp. now rewrite Hp. Qed.

(** X5: against a positive previous value the percentage is always
    defined; it is never below -100 for a non-negative current value, and
    its sign is the sign of [current - previous]. *)
Theorem pct_change_sign (current previous : Q) :
  (0 < previous)%Q ->
  exists v,
    pct_change current previous = Some v /\
    ((0 <= current)%Q -> (-100 <= v)%Q) /\
    ((0 < v)%Q <-> (previous < current)%Q) /\
    ((v == 0)%Q <-> (current == previous)%Q) /\
    ((v < 0)%Q <-> (current < previous)%Q).
Proof.
  intros Hp.
  assert (Hne : ~ (previous == 0)%Q) by (intros Hz; rewrite Hz in Hp; lra).
  exists ((current - previous) / previous * 100)%Q.
  split; [now apply pct_change_nonzero|].
  set (v := ((current - previous) / previous * 100)%Q).
  assert (Hv : (v * previous == (current - previous) * 100)%Q)
    by (unfold v; field; exact Hne).
  repeat split; intros; nra.
Qed.

Lemma pct_change_sign_witness :
  exists v, pct_change 50 100 = Some v /\ (v < 0)%Q /\ (-100 <= v)%Q.
Proof.
  destruct (pct_change_sign 50 100) as (v & Hv & Hlo & _ & _ & Hneg); [reflexivity|].
  exists v. split; [exact Hv|]. split; [apply Hneg; reflexivity | apply Hlo; discriminate].
Defined.

(** ** More on the keyword aggregation *)

Lemma aggregate_with_impressions rows :
  (0 < sum_of impressions_of rows)%Q ->
  exists a c p,
    aggregate_rows rows = Ok a /\
    avg_pos a = Some p /\ agg_ctr a = PFloat c /\
    (p * sum_of impressions_of rows
       == sum_of (fun r => position_of r * impressions_of r) rows)%Q /\
    (c * sum_of impressions_of rows == sum_of clicks_of rows)%Q.
Proof.
  intros Hpos.
  destruct (sum_rows_totals rows) as (Hc & Hi & Hp).
  fold clicks_of impressions_of position_of in Hc, Hi, Hp.
  assert (Hg : Qgtb (total_impr (sum_rows rows)) 0 = true)
    by (apply Qgtb_true; rewrite Hi; exact Hpos).
  pose proof (aggregate_rows_closed rows) as Hagg. cbv zeta in Hagg.
  rewrite Hg in Hagg.
  eexists _, _, _. split; [exact Hagg|]. cbn.
  split; [reflexivity|]. split; [reflexivity|].
  assert (Hne : ~ (total_impr (sum_rows rows) == 0)%Q) by (rewrite Hi; lra).
  split.
  - rewrite <- Hp, <- Hi. field. exact Hne.
  - rewrite <- Hc, <- Hi. field. exact Hne.
Qed.

Lemma click_sum_bounds rows :
  Forall (fun r => (0 <= clicks_of r)%Q /\ (clicks_of r <= impressions_of r)%Q) rows ->
  (0 <= sum_of clicks_of rows)%Q /\
  (sum_of clicks_of rows <= sum_of impressions_of rows)%Q.
Proof.
  induction 1 as [|r rest (H0 & H1) _ (IH0 & IH1)]; cbn [sum_of]; split; lra.
Qed.

(** X7: when every row has between 0 and its impressions clicks and the
    rows have impressions in total, the aggregated ctr is a float between
    0 and 1. *)
Theorem aggregate_ctr_unit_interval (rows : list apirow) :
  Forall (fun r => (0 <= clicks_of r)%Q /\ (clicks_of r <= impressions_of r)%Q) rows ->
  (0 < sum_of impressions_of rows)%Q ->
  exists a c,
    aggregate_rows rows = Ok a /\ agg_ctr a = PFloat c /\ (0 <= c)%Q /\ (c <= 1)%Q.
Proof.
  intros Hrows Hpos.
  destruct (click_sum_bounds rows Hrows) as (H0 & H1).
  destruct (aggregate_with_impressions rows Hpos) as (a & c & p & Ha & _ & Hc & _ & Hcv).
  exists a, c. split; [exact Ha|]. split; [exact Hc|]. split; nra.
Qed.

Lemma aggregate_ctr_unit_interval_witness :
  exists a c,
    aggregate_rows example_rows = Ok a /\ agg_ctr a = PFloat c /\
    (0 <= c)%Q /\ (c <= 1)%Q.
Proof.
  apply (aggregate_ctr_unit_interval example_rows).
  - repeat constructor; vm_compute; discriminate.
  - reflexivity.
Defined.

(** ** Rounding of the written counts *)






(** ** More on the target list *)

Lemma load_targets_elem lines v :
  v ∈ load_targets lines ->
  wanted v = true /\ exists line, line ∈ lines /\ v = strip line.
Proof.
  unfold load_targets.
  rewrite keep_first_elem, list_elem_of_In, List.filter_In, <- list_elem_of_In.
  rewrite list_elem_of_fmap. intros [(line & -> & Hl) Hw]. eauto.
Qed.

Lemma filter_all {A} (f : A -> bool) (l : list A) :
  (forall x, x ∈ l -> f x = true) -> List.filter f l = l.
Proof.
  induction l as [|x l IH]; intros Hall; [reflexivity|].
  cbn. rewrite (Hall x) by left. f_equal. apply IH.
  intros y Hy. apply Hall. now right.
Qed.

Lemma map_fixed {A} (f : A -> A) (l : list A) :
  (forall x, x ∈ l -> f x = x) -> map f l = l.
Proof.
  induction l as [|x l IH]; intros Hall; [reflexivity|].
  cbn. rewrite (Hall x) by left. f_equal. apply IH.
  intros y Hy. apply Hall. now right.
Qed.

Lemma keep_first_NoDup_id (l : list pystr) : NoDup l -> keep_first l = l.
Proof.
  induction 1 as [|x l Hx _ IH]; [reflexivity|].
  cbn [keep_first]. rewrite IH. f_equal. apply filter_all.
  intros y Hy. apply negb_true_iff, bool_decide_eq_false. intros ->. contradiction.
Qed.

Lemma wanted_nonempty v : wanted v = true -> v <> [] /\ startswith v (of_string "#") = false.
Proof.
  unfold wanted. rewrite andb_true_iff, negb_true_iff. intros [Ht Hs].
  split; [|exact Hs]. intros ->. discriminate.
Qed.

Lemma load_targets_fixed lines : load_targets (load_targets lines) = load_targets lines.
Proof.
  set (l := load_targets lines).
  assert (Hel : forall v, v ∈ l -> strip v = v /\ wanted v = true).
  { intros v Hv. apply load_targets_elem in Hv as (Hw & line & _ & ->).
    split; [|exact Hw].
    destruct (strip_split line) as (ws1 & ws2 & _ & _ & _ & Hst).
    apply strip_fixed; [exact Hst | apply (wanted_nonempty _ Hw)]. }
  unfold load_targets at 1.
  rewrite map_fixed by (intros v Hv; apply (Hel v Hv)).
  rewrite filter_all by (intros v Hv; apply (Hel v Hv)).
  apply keep_first_NoDup_id. apply keep_first_NoDup.
Qed.

Lemma filter_length_le {A} (f : A -> bool) (l : list A) :
  (length (List.filter f l) <= length l)%nat.
Proof. induction l as [|x l IH]; cbn; [lia|]. destruct (f x); cbn; lia. Qed.

Lemma keep_first_length (l : list pystr) : (length (keep_first l) <= length l)%nat.
Proof.
  induction l as [|x l IH]; cbn [keep_first length]; [lia|].
  pose proof (filter_length_le (fun y => negb (bool_decide (y = x))) (keep_first l)). lia.
Qed.

Lemma filter_nil_iff {A} (f : A -> bool) (l : list A) :
  List.filter f l = [] <-> Forall (fun x => f x = false) l.
Proof.
  induction l as [|x l IH]; cbn.
  - split; [constructor | reflexivity].
  - destruct (f x) eqn:Hx.
    + split; [discriminate|]. intros Hall. apply Forall_cons in Hall as [Hf _]. congruence.
    + rewrite IH. split; [now constructor | intros Hall; now apply Forall_cons in Hall].
Qed.

(** X10: a file that holds a loaded target list, one target per line,
    loads as that same list: loading is idempotent. *)
Theorem read_list_reload (fs fs' : filesystem) (path path' : pystr)
    (targets : list pystr) :
  read_list fs path = Ok targets ->
  fs' !! path' = Some (Lines targets) ->
  read_list fs' path' = Ok targets /\
  read_url_list fs' path' = Ok targets /\
  read_urls fs' path' = Ok targets.
Proof.
  intros Hload Hfile.
  assert (Ht : exists lines, targets = load_targets lines).
  { destruct (fs !! path) as [[lines|text]|] eqn:Hf.
    - exists lines. rewrite (read_list_load fs path lines Hf) in Hload.
      now injection Hload.
    - unfold read_list in Hload. rewrite Hf in Hload. discriminate.
    - unfold read_list in Hload. rewrite Hf in Hload. discriminate. }
  destruct Ht as [lines ->].
  pose proof (read_list_load fs' path' _ Hfile) as Hre.
  rewrite load_targets_fixed in Hre.
  repeat split; exact Hre.
Qed.

Lemma read_list_reload_witness :
  read_list {[ of_string "b.txt" := Lines [of_string "x"; of_string "y"] ]}
    (of_string "b.txt")
  = Ok [of_string "x"; of_string "y"].
Proof.
  apply (read_list_reload
           {[ of_string "a.txt" := Lines [of_string " x "; of_string "#c"; of_string "y";
                                          of_string "x"] ]}
           {[ of_string "b.txt" := Lines [of_string "x"; of_string "y"] ]}
           (of_string "a.txt") (of_string "b.txt") [of_string "x"; of_string "y"]);
    vm_compute; reflexivity.
Defined.

(** X11: the three loaders agree on every path. A path that does not
    exist gives [FileNotFoundError]; a path that exists but cannot be
    opened or decoded (a directory, a file without read permission, bytes
    that are not UTF-8) gives the exception of [open], which is neither
    [FileNotFoundError] nor caught by the loader; a text file gives at
    most as many targets as it has lines, and none exactly when every line
    is blank or a comment. *)
Theorem read_list_outcome (fs : filesystem) (path : pystr) :
  read_url_list fs path = read_list fs path /\
  read_urls fs path = read_list fs path /\
  match fs !! path with
  | None => read_list fs path = Raise FileNotFoundError
  | Some (Unreadable text) => read_list fs path = Raise (OtherException text)
  | Some (Lines lines) =>
      exists targets,
        read_list fs path = Ok targets /\
        (length targets <= length lines)%nat /\
        (targets = [] <-> Forall (fun line => wanted (strip line) = false) lines)
  end.
Proof.
  split; [reflexivity|]. split; [reflexivity|].
  destruct (fs !! path) as [[lines|text]|] eqn:Hf.
  - exists (load_targets lines).
    pose proof (read_list_load fs path lines Hf) as Hload.
    repeat apply conj; try exact Hload.
    + unfold load_targets.
      pose proof (keep_first_length (List.filter wanted (map strip lines))).
      pose proof (filter_length_le wanted (map strip lines)).
      rewrite length_map in *. lia.
    + intros Hnil. unfold load_targets in Hnil.
      destruct (List.filter wanted (map strip lines)) as [|v l] eqn:Hfl; [|discriminate].
      apply filter_nil_iff in Hfl. now apply Forall_map in Hfl.
    + intros Hall. unfold load_targets.
      assert (Hfl : List.filter wanted (map strip lines) = []).
      { apply filter_nil_iff. now apply Forall_map. }
      now rewrite Hfl.
  - unfold read_list. now rewrite Hf.
  - unfold read_list. now rewrite Hf.
Qed.

(** ** More on the date window *)

Lemma date_add_days_cases d n :
  valid_date d = true ->
  (1 <= toordinal d + n <= MAXORDINAL /\
   exists d', date_add_days d n = Ok d' /\ valid_date d' = true /\
              toordinal d' = toordinal d + n) \/
  (~ (1 <= toordinal d + n <= MAXORDINAL) /\ date_add_days d n = Raise OverflowError).
Proof.
  intros V.
  destruct (Z_le_dec 1 (toordinal d + n)) as [Hlo|Hlo];
    [destruct (Z_le_dec (toordinal d + n) MAXORDINAL) as [Hhi|Hhi]|].
  - left. split; [lia|]. apply date_add_days_ok; [exact V | lia].
  - right. split; [lia|]. unfold date_add_days. cbv zeta.
    replace (toordinal d + n <=? MAXORDINAL) with false
      by (symmetry; apply Z.leb_gt; lia).
    now rewrite andb_false_r.
  - right. split; [lia|]. unfold date_add_days. cbv zeta.
    replace (0 <? toordinal d + n) with false by (symmetry; apply Z.ltb_ge; lia).
    reflexivity.
Qed.

Lemma date_ltb_ordinal d1 d2 :
  valid_date d1 = true -> valid_date d2 = true ->
  (date_ltb d1 d2 = true <-> toordinal d1 < toordinal d2).
Proof.
  intros V1 V2. split; [now apply toordinal_lt|]. intros Hlt.
  destruct (date_trichotomy d1 d2) as [H|[->|H]]; [exact H | lia |].
  pose proof (toordinal_lt _ _ V2 V1 H). lia.
Qed.

(** What [compute_previous_period] does, by the ordinals of the two dates. *)
Lemma compute_previous_period_cases cs ce :
  valid_date cs = true -> valid_date ce = true ->
  (date_ltb ce cs = true /\ compute_previous_period cs ce = Raise ValueError) \/
  (date_ltb ce cs = false /\ toordinal cs <= toordinal ce /\
   toordinal cs - 1 < toordinal ce - toordinal cs + 1 /\
   compute_previous_period cs ce = Raise OverflowError) \/
  (date_ltb ce cs = false /\ toordinal cs <= toordinal ce /\
   toordinal ce - toordinal cs + 1 <= toordinal cs - 1 /\
   exists ps pe,
     compute_previous_period cs ce = Ok (ps, pe, toordinal ce - toordinal cs + 1) /\
     valid_date ps = true /\ valid_date pe = true /\
     toordinal pe = toordinal cs - 1 /\
     toordinal ps = toordinal cs - (toordinal ce - toordinal cs + 1)).
Proof.
  intros Vs Ve. unfold compute_previous_period.
  destruct (date_ltb ce cs) eqn:Hlt; [left; split; reflexivity|]. right.
  pose proof (toordinal_le _ _ Vs Ve Hlt) as Hord.
  pose proof (toordinal_range _ Vs) as Hrs.
  pose proof (toordinal_range _ Ve) as Hre.
  cbv zeta. unfold date_sub_days, date_diff_days.
  destruct (date_add_days_cases cs (- (1)) Vs) as [(Hr1 & pe & Hpe & Vpe & Ope)|(Hr1 & Hpe)];
    rewrite Hpe.
  - destruct (date_add_days_cases pe (- (toordinal ce - toordinal cs + 1 - 1)) Vpe)
      as [(Hr2 & ps & Hps & Vps & Ops)|(Hr2 & Hps)]; rewrite Hps.
    + right. repeat split; try lia. exists ps, pe. repeat split; try assumption; lia.
    + left. repeat split; try lia.
  - left. repeat split; lia.
Qed.

(** X12: on two dates, [compute_previous_period] raises [ValueError]
    exactly when the end precedes the start, raises [OverflowError]
    exactly when the range is in order but longer than the days between
    0001-01-01 and its start, and returns a range in every other case. *)
Theorem previous_period_outcomes (cur_start cur_end : date) :
  valid_date cur_start = true -> valid_date cur_end = true ->
  (compute_previous_period cur_start cur_end = Raise ValueError <->
   date_ltb cur_end cur_start = true) /\
  (compute_previous_period cur_start cur_end = Raise OverflowError <->
   date_leb cur_start cur_end = true /\
   date_diff_days cur_start date_min < date_diff_days cur_end cur_start + 1) /\
  ((exists r, compute_previous_period cur_start cur_end = Ok r) <->
   date_leb cur_start cur_end = true /\
   date_diff_days cur_end cur_start + 1 <= date_diff_days cur_start date_min).
Proof.
  intros Vs Ve. unfold date_leb, date_diff_days. change (toordinal date_min) with 1.
  destruct (compute_previous_period_cases cur_start cur_end Vs Ve)
    as [(Hlt & Hr)|[(Hlt & Hord & Hroom & Hr)|(Hlt & Hord & Hroom & ps & pe & Hr & _)]];
    rewrite Hr, Hlt; cbn [negb];
    (split; [|split]); split; intros;
    repeat match goal with
    | Hc : _ /\ _ |- _ => destruct Hc
    | Hc : exists _, _ |- _ => destruct Hc
    end; try discriminate; try lia; try tauto; eauto.
Qed.

Lemma previous_period_outcomes_witness :
  compute_previous_period (mkdate 2026 3 31) (mkdate 2026 3 1) = Raise ValueError.
Proof.
  apply (previous_period_outcomes (mkdate 2026 3 31) (mkdate 2026 3 1));
    reflexivity.
Defined.

Lemma date_ltb_trans d1 d2 d3 :
  date_ltb d1 d2 = true -> date_ltb d2 d3 = true -> date_ltb d1 d3 = true.
Proof. rewrite !date_ltb_iff. lia. Qed.

Section WindowCheck.
Context `{Service}.

(** X13: the previous period as [main] computes it starts before the
    current one, so the window check is decided by the previous start
    alone: it stops the run exactly when the previous period starts
    before the horizon. *)
Theorem window_check_previous_start (E : env) (cur_start cur_end prev_start prev_end
    earliest : date) (days : Z) (w : world) :
  valid_date cur_start = true -> valid_date cur_end = true ->
  compute_previous_period cur_start cur_end = Ok (prev_start, prev_end, days) ->
  earliest_gsc_date (today E) = Ok earliest ->
  date_ltb prev_start cur_start = true /\
  (date_ltb cur_start earliest = true -> date_ltb prev_start earliest = true) /\
  (date_ltb prev_start earliest = true ->
   fst (enforce_16_month_window E cur_start prev_start w)
     = Raise (SystemExit (ExitCode 1))) /\
  (date_ltb prev_start earliest = false ->
   enforce_16_month_window E cur_start prev_start w = (Ok tt, w)).
Proof.
  intros Vs Ve Hprev Hearliest.
  assert (Hlt : date_ltb prev_start cur_start = true).
  { destruct (compute_previous_period_cases cur_start cur_end Vs Ve)
      as [(_ & Hr)|[(_ & _ & _ & Hr)|(_ & Hord & Hroom & ps & pe & Hr & Vps & _ & _ & Ops)]];
      rewrite Hr in Hprev; try discriminate.
    injection Hprev as <- _ _.
    apply date_ltb_ordinal; [assumption | assumption | lia]. }
  assert (Htrans : date_ltb cur_start earliest = true -> date_ltb prev_start earliest = true)
    by (intros Hc; exact (date_ltb_trans _ _ _ Hlt Hc)).
  split; [exact Hlt|]. split; [exact Htrans|].
  rewrite (enforce_16_month_window_run _ _ _ _ _ Hearliest).
  split.
  - intros Hp. rewrite Hp, orb_true_r. reflexivity.
  - intros Hp. destruct (date_ltb cur_start earliest) eqn:Hc.
    + rewrite (Htrans eq_refl) in Hp. discriminate.
    + now rewrite Hp.
Qed.

End WindowCheck.

Lemma window_check_previous_start_witness :
  date_ltb (mkdate 2026 1 29) (mkdate 2026 3 1) = true /\
  enforce_16_month_window (H := constant_service None None) example_env
    (mkdate 2026 3 1) (mkdate 2026 1 29) (start_world None None)
  = (Ok tt, start_world None None).
Proof.
  destruct (window_check_previous_start (H := constant_service None None) example_env
              (mkdate 2026 3 1) (mkdate 2026 3 31) (mkdate 2026 1 29) (mkdate 2026 2 28)
              (mkdate 2025 7 4) 31 (start_world None None))
    as (Hlt & _ & _ & Hpass); try reflexivity.
  split; [exact Hlt | apply Hpass; reflexivity].
Defined.

(** ** Months before a date *)

Lemma date_new_valid y m dd r : date_new y m dd = Ok r -> valid_date r = true.
Proof.
  unfold date_new. destruct (valid_date (mkdate y m dd)) eqn:Hv; [|discriminate].
  now intros [= <-].
Qed.

(** X14: for a date [d] and [months >= 0], [subtract_months] returns the
    date whose month is [months] calendar months earlier and whose day is
    the day of [d] clamped to that month; the result is a valid date, [d]
    itself for 0 months and strictly before [d] otherwise; it raises
    [ValueError] exactly when that month lies before year 1. The horizon
    [earliest_gsc_date] therefore exists and precedes today from year 3 on. *)
Theorem subtract_months_result (d : date) (months : Z) :
  valid_date d = true -> 0 <= months ->
  (12 <= 12 * year d + (month d - 1) - months ->
   exists r,
     subtract_months d months = Ok r /\
     valid_date r = true /\
     12 * year r + month r = 12 * year d + month d - months /\
     day r = Z.min (day d) (days_in_month (year r) (month r)) /\
     (months = 0 -> r = d) /\
     (1 <= months -> date_ltb r d = true)) /\
  (12 * year d + (month d - 1) - months < 12 ->
   subtract_months d months = Raise ValueError) /\
  (3 <= year d ->
   exists h, earliest_gsc_date d = Ok h /\ valid_date h = true /\ date_ltb h d = true).
Proof.
  intros V Hm.
  destruct (subtract_months_closed d months V Hm) as [Hnew Hok]. cbv zeta in Hnew, Hok.
  pose proof V as V'. apply valid_date_iff in V' as (Hy & Hmo & Hd).
  set (t := 12 * year d + (month d - 1) - months) in *.
  assert (Hdm : t = 12 * (t / 12) + t mod 12) by (apply Z.div_mod; lia).
  assert (Hr : 0 <= t mod 12 < 12) by (apply Z.mod_pos_bound; lia).
  assert (Hmain : 12 <= t ->
     exists r,
       subtract_months d months = Ok r /\
       valid_date r = true /\
       12 * year r + month r = 12 * year d + month d - months /\
       day r = Z.min (day d) (days_in_month (year r) (month r)) /\
       (months = 0 -> r = d) /\
       (1 <= months -> date_ltb r d = true)).
  { intros Ht.
    assert (Hy1 : 1 <= t / 12) by (apply Z.div_le_lower_bound; lia).
    specialize (Hok Hy1). eexists. split; [exact Hok|].
    split.
    { rewrite Hnew in Hok. exact (date_new_valid _ _ _ _ Hok). }
    cbn [year month day]. split; [unfold t in *; lia|]. split; [reflexivity|]. split.
    - intros ->.
      assert (Hq : t / 12 = year d /\ t mod 12 + 1 = month d).
      { unfold t in *. replace (12 * year d + (month d - 1) - 0)
          with (month d - 1 + year d * 12) in * by lia.
        rewrite Z.div_add, Z.mod_add, Z.div_small, Z.mod_small by lia. lia. }
      destruct Hq as [-> ->]. rewrite Z.min_l by lia. now destruct d.
    - intros H1. apply date_ltb_iff. cbn [year month day]. unfold t in *. lia. }
  split; [exact Hmain|]. split.
  - intros Ht. rewrite Hnew. unfold date_new.
    replace (valid_date (mkdate _ _ _)) with false; [reflexivity|].
    symmetry. apply not_true_iff_false. intros Hv. apply valid_date_iff in Hv.
    cbn [year] in Hv. destruct Hv as [[Hlo _] _].
    assert (t / 12 < 1) by (apply Z.div_lt_upper_bound; lia). lia.
  - intros Hy3. unfold earliest_gsc_date.
    destruct (subtract_months_closed d 16 V ltac:(lia)) as [Hnew16 Hok16].
    cbv zeta in Hnew16, Hok16.
    set (t16 := 12 * year d + (month d - 1) - 16) in *.
    assert (Hdm16 : t16 = 12 * (t16 / 12) + t16 mod 12) by (apply Z.div_mod; lia).
    assert (Hr16 : 0 <= t16 mod 12 < 12) by (apply Z.mod_pos_bound; lia).
    assert (Hy16 : 1 <= t16 / 12) by (apply Z.div_le_lower_bound; unfold t16; lia).
    specialize (Hok16 Hy16). eexists. split; [exact Hok16|]. split.
    + rewrite Hnew16 in Hok16. exact (date_new_valid _ _ _ _ Hok16).
    + apply date_ltb_iff. cbn [year month day]. unfold t16 in *. lia.
Qed.

Lemma subtract_months_result_witness :
  exists r, subtract_months (mkdate 2026 3 31) 13 = Ok r /\
            12 * year r + month r = 12 * 2026 + 3 - 13 /\
            date_ltb r (mkdate 2026 3 31) = true.
Proof.
  destruct (subtract_months_result (mkdate 2026 3 31) 13) as (Hok & _);
    [reflexivity | lia |].
  destruct Hok as (r & Hr & _ & Hm & _ & _ & Hlt); [vm_compute; discriminate|].
  exists r. repeat split; [exact Hr | exact Hm | apply Hlt; lia].
Defined.

(** ** Distance of the retention horizon *)

Lemma isleap_mod4 y : isleap y = true -> y mod 4 = 0.
Proof. unfold isleap. rewrite andb_true_iff, Z.eqb_eq. tauto. Qed.

Lemma leap_spacing y :
  b2z (isleap y) + b2z (isleap (y - 1)) + b2z (isleap (y - 2)) <= 1.
Proof.
  pose proof (isleap_mod4 y) as H0. pose proof (isleap_mod4 (y - 1)) as H1.
  pose proof (isleap_mod4 (y - 2)) as H2.
  destruct (isleap y), (isleap (y - 1)), (isleap (y - 2)); cbn [b2z]; try lia;
    repeat match goal with H : true = true -> _ |- _ => specialize (H eq_refl) end;
    Z.div_mod_to_equations; lia.
Qed.

Lemma earliest_gsc_date_distance d :
  valid_date d = true -> 3 <= year d ->
  exists e, earliest_gsc_date d = Ok e /\ valid_date e = true /\
            485 <= toordinal d - toordinal e <= 489.
Proof.
  intros V Hy3. pose proof V as V'. apply valid_date_iff in V' as (Hy & Hm & Hd).
  destruct d as [y m dd]. cbn [year month day] in *.
  unfold earliest_gsc_date, subtract_months. cbn [year month day].
  rewrite wrap_month_closed by lia.
  pose proof (leap_spacing y) as Hsp.
  pose proof (isleap_succ_dby (y - 1)) as D1. replace (y - 1 + 1) with y in D1 by lia.
  pose proof (isleap_succ_dby (y - 2)) as D2. replace (y - 2 + 1) with (y - 1) in D2 by lia.
  unfold days_in_month in Hd.
  month_split m Hm;
    match goal with
    | |- context [(?a - 16 - 1) / 12] =>
        let q := eval vm_compute in ((a - 16 - 1) / 12) in
        let r := eval vm_compute in ((a - 16 - 1) mod 12 + 1) in
        change ((a - 16 - 1) / 12) with q; change ((a - 16 - 1) mod 12 + 1) with r
    end.
  all: match goal with
       | |- context [date_new ?yy ?mm ?x] =>
           assert (Vx : valid_date (mkdate yy mm x) = true)
             by (apply valid_date_iff; cbn [year month day]; unfold days_in_month;
                 destruct (isleap yy); cbn; lia);
           unfold date_new; rewrite Vx; eexists; split; [reflexivity|];
           split; [exact Vx|]
       end.
  all: unfold toordinal, ymd2ord, days_before_month, days_in_month; cbn [year month day].
  all: replace (y + -1) with (y - 1) by lia; replace (y + -2) with (y - 2) by lia.
  all: destruct (isleap y), (isleap (y - 1)), (isleap (y - 2)); cbn in *; lia.
Qed.

Section Horizon.
Context `{Service}.

(** X15: how far back the retention horizon lies. For every valid date of
    today from year 3 on, [earliest_gsc_date] is a date between 485 and 489
    days before today. So the window check lets a run through whenever its
    previous period starts at most 485 days before today, and stops every
    run whose previous period starts more than 489 days before today, on
    whatever day the script is run. *)
Theorem retention_horizon_distance (E : env) :
  valid_date (today E) = true -> 3 <= year (today E) ->
  exists earliest,
    earliest_gsc_date (today E) = Ok earliest /\
    485 <= date_diff_days (today E) earliest <= 489 /\
    forall cur_start prev_start w,
      valid_date cur_start = true -> valid_date prev_start = true ->
      toordinal prev_start <= toordinal cur_start ->
      (date_diff_days (today E) prev_start <= 485 ->
       enforce_16_month_window E cur_start prev_start w = (Ok tt, w)) /\
      (489 < date_diff_days (today E) prev_start ->
       fst (enforce_16_month_window E cur_start prev_start w)
         = Raise (SystemExit (ExitCode 1))).
Proof.
  intros V Hy.
  destruct (earliest_gsc_date_distance (today E) V Hy) as (e & He & Ve & Hdist).
  exists e. split; [exact He|]. unfold date_diff_days. split; [exact Hdist|].
  intros cur_start prev_start w Vc Vp Hord.
  rewrite (enforce_16_month_window_run _ _ _ _ _ He).
  split; intros Hfar.
  - assert (Hp : date_ltb prev_start e = false).
    { destruct (date_ltb prev_start e) eqn:Hlt; [|reflexivity].
      apply (date_ltb_ordinal _ _ Vp Ve) in Hlt. lia. }
    assert (Hc : date_ltb cur_start e = false).
    { destruct (date_ltb cur_start e) eqn:Hlt; [|reflexivity].
      apply (date_ltb_ordinal _ _ Vc Ve) in Hlt. lia. }
    now rewrite Hp, Hc.
  - assert (Hp : date_ltb prev_start e = true).
    { apply (date_ltb_ordinal _ _ Vp Ve). lia. }
    rewrite Hp, orb_true_r. reflexivity.
Qed.

End Horizon.

Lemma retention_horizon_distance_witness :
  exists earliest,
    earliest_gsc_date (today example_env) = Ok earliest /\
    485 <= date_diff_days (today example_env) earliest <= 489 /\
    enforce_16_month_window (H := constant_service None None) example_env
      (mkdate 2026 3 1) (mkdate 2026 1 29) (start_world None None)
    = (Ok tt, start_world None None).
Proof.
  destruct (retention_horizon_distance (H := constant_service None None) example_env
              eq_refl ltac:(cbn; lia)) as (e & He & Hdist & Hrun).
  exists e. split; [exact He|]. split; [exact Hdist|].
  apply (Hrun (mkdate 2026 3 1) (mkdate 2026 1 29) (start_world None None));
    [reflexivity | reflexivity | vm_compute; discriminate | vm_compute; discriminate].
Defined.

(** ** More on the runners *)

Ltac closed_set_eq := refine (bool_decide_unpack _ _); vm_compute; exact I.

Lemma comparison_row_columns P u cur prev :
  has_columns comparison_fieldnames (comparison_row P u cur prev).
Proof. unfold has_columns, comparison_row. cbv zeta. rewrite dom_list_to_map_L. reflexivity. Qed.

Lemma comparison_error_row_columns P u :
  has_columns comparison_fieldnames (comparison_error_row P u).
Proof. unfold has_columns, comparison_error_row. rewrite dom_list_to_map_L. reflexivity. Qed.

Lemma keyword_rows_columns K kw :
  has_columns keyword_fieldnames (keyword_zero_row K kw) /\
  has_columns keyword_fieldnames (keyword_error_row K kw) /\
  forall a, has_columns keyword_fieldnames (keyword_row K kw a).
Proof.
  unfold has_columns, keyword_zero_row, keyword_error_row, keyword_row.
  repeat split; intros; rewrite dom_list_to_map_L; cbn [fmap list_fmap fst];
    closed_set_eq.
Qed.

Lemma indexing_base_row_columns site u :
  has_columns indexing_fieldnames (indexing_base_row site u).
Proof.
  unfold has_columns, indexing_base_row, blank_row.
  rewrite !dom_insert_L, dom_list_to_map_L. cbn [map fmap list_fmap fst indexing_fieldnames].
  closed_set_eq.
Qed.

Lemma insert_keeps_columns fieldnames (k : string) (c : cell) (r : row) :
  k ∈ fieldnames -> has_columns fieldnames r -> has_columns fieldnames (<[k := c]> r).
Proof.
  unfold has_columns. intros Hk Hr. rewrite dom_insert_L, Hr.
  apply set_eq. intros x. rewrite elem_of_union, elem_of_singleton, !elem_of_list_to_set.
  split; [intros [->|?]; assumption | tauto].
Qed.

Lemma fill_row_columns r resp :
  has_columns indexing_fieldnames r -> has_columns indexing_fieldnames (fill_row r resp).
Proof.
  intros Hr. unfold fill_row. cbv zeta.
  repeat (apply insert_keeps_columns;
          [unfold indexing_fieldnames; rewrite !elem_of_cons; tauto|]).
  exact Hr.
Qed.

Section Budget.
Context `{Service}.

Lemma compare_item_fetches P total i u w :
  exists t,
    w_trace (snd (compare_item P total i u w)) = w_trace w ++ t /\
    Forall (has_columns comparison_fieldnames) (csv_rows t) /\
    match fst (searchanalytics_query (site_url P)
                 (page_query (cur_start_s P) (cur_end_s P) u) (w_svc w)) with
    | Failure _ | Crashed _ =>
        fetches t = [EvQuery (site_url P) (page_query (cur_start_s P) (cur_end_s P) u)]
    | Reply _ =>
        fetches t = [EvQuery (site_url P) (page_query (cur_start_s P) (cur_end_s P) u);
                     EvQuery (site_url P) (page_query (prev_start_s P) (prev_end_s P) u)]
    end.
Proof.
  rewrite compare_item_run. cbv zeta.
  destruct (progress_events_quiet total i) as (Hc & _ & Hf).
  destruct (searchanalytics_query _ _ (w_svc w)) as [[r1|e|text] s1]; cbn [fst];
    [destruct (searchanalytics_query _ _ s1) as [[r2|e|text] s2]| |];
    cbn [snd w_trace]; eexists; (split; [reflexivity|]);
    rewrite ?csv_rows_app, ?fetches_app, ?Hc, ?Hf;
    (split; [|reflexivity]); cbn [csv_rows omap app].
  - constructor; [apply comparison_row_columns | constructor].
  - constructor; [apply comparison_error_row_columns | constructor].
  - constructor.
  - constructor; [apply comparison_error_row_columns | constructor].
  - constructor.
Qed.

Lemma compare_loop_fetches P total urls : forall i w,
  exists t,
    w_trace (snd (compare_loop P total i urls w)) = w_trace w ++ t /\
    (length (fetches t) <= 2 * length urls)%nat /\
    (fst (compare_loop P total i urls w) = Ok tt ->
     (length urls <= length (fetches t))%nat) /\
    Forall (has_columns comparison_fieldnames) (csv_rows t).
Proof.
  induction urls as [|u rest IH]; intros i w.
  - exists []. cbn. rewrite app_nil_r.
    split; [reflexivity|]. split; [lia|]. split; [intros _; lia | constructor].
  - destruct (compare_item_fetches P total i u w) as (t1 & Ht1 & Hcol & Hf).
    assert (Hlen1 : (1 <= length (fetches t1) <= 2)%nat).
    { destruct (fst (searchanalytics_query _ _ _)); rewrite Hf; cbn [length]; lia. }
    cbn [compare_loop]. unfold bind.
    destruct (compare_item P total i u w) as [[[]|e] w1]; cbn [fst snd] in *.
    + destruct (IH (i + 1) w1) as (t2 & Ht2 & Hlen & Hok & Hall).
      exists (t1 ++ t2). split; [rewrite Ht2, Ht1, app_assoc; reflexivity|].
      rewrite fetches_app, csv_rows_app, length_app. cbn [length].
      split; [lia|]. split; [|now apply Forall_app].
      intros Hres. specialize (Hok Hres). lia.
    + exists t1. split; [exact Ht1|]. cbn [length].
      split; [lia|]. split; [discriminate | exact Hcol].
Qed.

Lemma keyword_item_fetches K kw w :
  exists t,
    w_trace (snd (keyword_item K kw w)) = w_trace w ++ t /\
    fetches t = [EvQuery (kw_site_url K) (keyword_query K kw)] /\
    Forall (has_columns keyword_fieldnames) (csv_rows t).
Proof.
  destruct (keyword_rows_columns K kw) as (Hz & He & Hr).
  rewrite keyword_item_run.
  destruct (searchanalytics_query _ _ (w_svc w)) as [[resp|e|text] s1].
  - destruct (rows_of resp) as [|r0 rest0].
    + eexists. split; [reflexivity|]. split; [reflexivity|]. cbn. now constructor.
    + rewrite aggregate_rows_closed. cbv zeta.
      eexists. split; [reflexivity|]. split; [reflexivity|]. cbn. constructor; [apply Hr|constructor].
  - eexists. split; [reflexivity|]. split; [reflexivity|]. cbn. now constructor.
  - eexists. split; [reflexivity|]. split; [reflexivity|]. cbn. constructor.
Qed.

Lemma keyword_loop_fetches K keywords : forall w,
  exists t k,
    w_trace (snd (keyword_loop K keywords w)) = w_trace w ++ t /\
    (k <= length keywords)%nat /\
    fetches t
      = map (fun kw => EvQuery (kw_site_url K) (keyword_query K kw)) (take k keywords) /\
    (fst (keyword_loop K keywords w) = Ok tt -> k = length keywords) /\
    Forall (has_columns keyword_fieldnames) (csv_rows t).
Proof.
  induction keywords as [|kw rest IH]; intros w.
  - exists [], 0%nat. cbn. rewrite app_nil_r.
    split; [reflexivity|]. split; [lia|]. split; [reflexivity|].
    split; [reflexivity | constructor].
  - destruct (keyword_item_fetches K kw w) as (t1 & Ht1 & Hf & Hcol).
    cbn [keyword_loop]. unfold bind.
    destruct (keyword_item K kw w) as [[[]|e] w1]; cbn [fst snd] in *.
    + destruct (IH w1) as (t2 & k & Ht2 & Hk & Hf2 & Hok & Hall).
      exists (t1 ++ t2), (S k). split; [rewrite Ht2, Ht1, app_assoc; reflexivity|].
      cbn [length]. split; [lia|].
      rewrite fetches_app, csv_rows_app, Hf, Hf2.
      split; [reflexivity|]. split; [|now apply Forall_app].
      intros Hres. now rewrite (Hok Hres).
    + exists t1, 1%nat. split; [exact Ht1|]. cbn [length]. split; [lia|].
      split; [rewrite Hf; cbn; now rewrite take_0|].
      split; [discriminate | exact Hcol].
Qed.

Lemma indexing_loop_fetches site lang total urls : forall i w,
  exists t,
    w_trace (snd (indexing_loop site lang total i urls w)) = w_trace w ++ t /\
    fetches t = map (fun u => EvInspect (mk_inspect_body u site lang)) urls /\
    Forall (has_columns indexing_fieldnames) (csv_rows t).
Proof.
  induction urls as [|u rest IH]; intros i w.
  - exists []. cbn. rewrite app_nil_r. repeat split. constructor.
  - cbn [indexing_loop]. unfold bind at 1.
    assert (Hitem : exists t1 r w1,
      indexing_item site lang total i u w = (Ok tt, w1) /\ w_trace w1 = w_trace w ++ t1 /\
      fetches t1 = [EvInspect (mk_inspect_body u site lang)] /\
      csv_rows t1 = [r] /\ has_columns indexing_fieldnames r).
    { rewrite indexing_item_run. cbv zeta.
      destruct (progress_events_quiet total i) as (Hc & _ & Hf).
      pose proof (indexing_base_row_columns site u) as Hbase.
      destruct (index_inspect _ (w_svc w)) as [[resp|e|text] s1];
        eexists _, _, _; (split; [reflexivity|]); (split; [reflexivity|]);
        rewrite !fetches_app, !csv_rows_app, ?Hc, ?Hf.
      - split; [reflexivity|]. split; [reflexivity|]. now apply fill_row_columns.
      - unfold backoff_events. destruct (is_transient _);
          (split; [reflexivity|]); (split; [reflexivity|]);
          (apply insert_keeps_columns;
           [unfold indexing_fieldnames; rewrite !elem_of_cons; tauto | exact Hbase]).
      - split; [reflexivity|]. split; [reflexivity|]. apply insert_keeps_columns;
          [unfold indexing_fieldnames; rewrite !elem_of_cons; tauto | exact Hbase]. }
    destruct Hitem as (t1 & r & w1 & Hrun & Ht1 & Hf & Hrows & Hcol).
    rewrite Hrun. destruct (IH (i + 1) w1) as (t2 & Ht2 & Hf2 & Hall).
    exists (t1 ++ t2). split; [rewrite Ht2, Ht1, app_assoc; reflexivity|].
    rewrite fetches_app, csv_rows_app, Hf, Hf2, Hrows. cbn.
    split; [reflexivity | constructor; assumption].
Qed.


(** X17: every row a runner hands to the CSV writer has exactly the
    columns of the header of its report: no column is missing and none is
    unknown to the writer. *)
Theorem rows_match_header :
  (forall P total i (urls : list pystr) w,
     exists t,
       w_trace (snd (compare_loop P total i urls w)) = w_trace w ++ t /\
       Forall (has_columns comparison_fieldnames) (csv_rows t)) /\
  (forall K (keywords : list pystr) w,
     exists t,
       w_trace (snd (keyword_loop K keywords w)) = w_trace w ++ t /\
       Forall (has_columns keyword_fieldnames) (csv_rows t)) /\
  (forall site lang total i (urls : list pystr) w,
     exists t,
       w_trace (snd (indexing_loop site lang total i urls w)) = w_trace w ++ t /\
       Forall (has_columns indexing_fieldnames) (csv_rows t)).
Proof.
  repeat apply conj.
  - intros P total i urls w.
    destruct (compare_loop_fetches P total urls i w) as (t & Ht & _ & _ & Hall). eauto.
  - intros K keywords w.
    destruct (keyword_loop_fetches K keywords w) as (t & k & Ht & _ & _ & _ & Hall).
    eauto.
  - intros site lang total i urls w.
    destruct (indexing_loop_fetches site lang total urls i w) as (t & Ht & _ & Hall). eauto.
Qed.

End Budget.

(** ** Columns of a comparison row *)





(** ** The three [main] functions, step by step *)

Section Mains.
Context `{Service}.

Lemma quiet_ret {A} (a : A) : quiet (ret a).
Proof. intros w. exists []. cbn. rewrite app_nil_r. repeat split. Qed.

Lemma quiet_raise {A} (e : exn) : quiet (@raise _ A e).
Proof. intros w. exists []. cbn. rewrite app_nil_r. repeat split. Qed.

Lemma quiet_lift {A} (r : result A) : quiet (lift r).
Proof. intros w. exists []. cbn. rewrite app_nil_r. repeat split. Qed.

Lemma quiet_print m : quiet (print m).
Proof. intros w. exists [EvPrint m]. repeat split. Qed.

Lemma quiet_header f : quiet (emit (EvWriteHeader f)).
Proof. intros w. exists [EvWriteHeader f]. repeat split. Qed.

Lemma quiet_bind {A B} (m : M A) (k : A -> M B) :
  quiet m -> (forall a, quiet (k a)) -> quiet (bind m k).
Proof.
  intros Hm Hk w. destruct (Hm w) as (t1 & Ht1 & Hf1 & Hc1).
  unfold bind. destruct (m w) as [[a|e] w1]; cbn [snd] in *.
  - destruct (Hk a w1) as (t2 & Ht2 & Hf2 & Hc2).
    exists (t1 ++ t2). rewrite Ht2, Ht1, app_assoc, fetches_app, csv_rows_app, Hf1, Hf2, Hc1, Hc2.
    repeat split.
  - exists t1. repeat split; assumption.
Qed.

Lemma quiet_listing :
  quiet (try_except_HttpError call_sites_list
           (fun e => print (MsgCouldNotList e) ;; ret [])) /\
  quiet call_sites_list.
Proof.
  split; intros w; unfold try_except_HttpError, call_sites_list, bind, print, emit, ret;
    destruct (sites_list (w_svc w)) as [[sites|e|text] s1]; cbn [snd w_trace].
  - exists [EvListSites]. repeat split.
  - exists [EvListSites; EvPrint (MsgCouldNotList e)].
    rewrite <- app_assoc. repeat split.
  - exists [EvListSites]. repeat split.
  - exists [EvListSites]. repeat split.
  - exists [EvListSites]. repeat split.
  - exists [EvListSites]. repeat split.
Qed.

Lemma quiet_enforce E cs ps : quiet (enforce_16_month_window E cs ps).
Proof.
  unfold enforce_16_month_window.
  apply quiet_bind; [apply quiet_lift|]. intros earliest.
  destruct (_ || _); [|apply quiet_ret].
  apply quiet_bind; [apply quiet_print | intros _; apply quiet_raise].
Qed.

Lemma untouched_nil t : fetches t = [] -> csv_rows t = [] -> ~ touched t.
Proof. intros Hf Hc [Ht|Ht]; contradiction. Qed.

Lemma all_or_nothing_bind {A} G R (m : M A) (k : A -> M unit) :
  quiet m -> (forall a, all_or_nothing G R (k a)) -> all_or_nothing G R (bind m k).
Proof.
  intros Hm Hk w. destruct (Hm w) as (t1 & Ht1 & Hf1 & Hc1).
  unfold bind. destruct (m w) as [[a|e] w1]; cbn [fst snd] in *.
  - destruct (Hk a w1) as (t2 & Ht2 & Hg & Hres).
    exists (t1 ++ t2). rewrite Ht2, Ht1, app_assoc. split; [reflexivity|].
    unfold touched in *. rewrite fetches_app, csv_rows_app, Hf1, Hc1. cbn [app].
    split; assumption.
  - exists t1. split; [exact Ht1|].
    split; [intros Ht; now destruct (untouched_nil t1 Hf1 Hc1) | discriminate].
Qed.

Lemma all_or_nothing_raise G R e : all_or_nothing G R (raise e).
Proof.
  intros w. exists []. cbn. rewrite app_nil_r. split; [reflexivity|].
  split; [intros [Ht|Ht]; now destruct Ht | discriminate].
Qed.

Lemma all_or_nothing_lift {A} G R (r : result A) (k : A -> M unit) :
  (forall a, r = Ok a -> all_or_nothing G R (k a)) -> all_or_nothing G R (bind (lift r) k).
Proof.
  intros Hk w. unfold bind, lift. destruct r as [a|e].
  - apply (Hk a eq_refl).
  - apply (all_or_nothing_raise G R e w).
Qed.

(** The window check passes on to what follows only when both periods
    start on or after the horizon. *)
Lemma all_or_nothing_enforce G R E cs ps (k : unit -> M unit) :
  (forall earliest,
     earliest_gsc_date (today E) = Ok earliest ->
     date_ltb cs earliest = false -> date_ltb ps earliest = false ->
     all_or_nothing G R (k tt)) ->
  all_or_nothing G R (bind (enforce_16_month_window E cs ps) k).
Proof.
  intros Hk w. unfold enforce_16_month_window, bind, lift.
  destruct (earliest_gsc_date (today E)) as [earliest|e] eqn:He.
  - destruct (date_ltb cs earliest || date_ltb ps earliest) eqn:Hout.
    + exists [EvPrint (MsgRetentionWarning earliest cs ps)].
      split; [reflexivity|].
      split; [intros [Ht|Ht]; now destruct Ht | discriminate].
    + apply orb_false_iff in Hout as [Hc Hp].
      exact (Hk earliest eq_refl Hc Hp w).
  - exists []. cbn. rewrite app_nil_r. split; [reflexivity|].
    split; [intros [Ht|Ht]; now destruct Ht | discriminate].
Qed.

(** The end of every [main]: the header, the loop, the last message. *)
Lemma all_or_nothing_batch (G : Prop) (R : list row -> Prop) fieldnames (loop : M unit) :
  G ->
  (forall w, exists t,
     w_trace (snd (loop w)) = w_trace w ++ t /\
     (fst (loop w) = Ok tt -> R (csv_rows t))) ->
  all_or_nothing G R (emit (EvWriteHeader fieldnames) ;; loop ;; print MsgDone).
Proof.
  intros HG Hloop w. unfold bind, emit. cbn [w_svc w_trace].
  match goal with |- context [loop ?w0] => destruct (Hloop w0) as (t & Ht & Hres) end.
  destruct (loop _) as [[[]|e] w1]; cbn [fst snd w_trace] in *.
  - exists ([EvWriteHeader fieldnames] ++ t ++ [EvPrint MsgDone]).
    unfold print, emit. cbn [fst snd w_trace]. rewrite Ht.
    split; [rewrite <- !app_assoc; reflexivity|].
    split; [intros _; exact HG|]. intros _.
    rewrite !csv_rows_app. cbn. rewrite app_nil_r. now apply Hres.
  - exists ([EvWriteHeader fieldnames] ++ t). rewrite Ht.
    split; [rewrite <- !app_assoc; reflexivity|].
    split; [intros _; exact HG | discriminate].
Qed.

Lemma raises_only_bind {A B} S (m : M A) (k : A -> M B) :
  raises_only S m -> (forall a, raises_only S (k a)) -> raises_only S (bind m k).
Proof.
  intros Hm Hk w e. unfold bind. specialize (Hm w).
  destruct (m w) as [[a|e'] w1]; cbn [fst] in *.
  - apply Hk.
  - intros [= <-]. now apply Hm.
Qed.

Lemma raises_only_total {A} S (m : M A) :
  (forall w, exists a, fst (m w) = Ok a) -> raises_only S m.
Proof. intros Hm w e He. destruct (Hm w) as [a Ha]. congruence. Qed.

Lemma raises_only_raise {A} (S : exn -> Prop) e : S e -> raises_only S (@raise _ A e).
Proof. intros He w e' [= <-]. exact He. Qed.

Lemma raises_only_lift {A} (S : exn -> Prop) (r : result A) :
  (forall e, r = Raise e -> S e) -> raises_only S (lift r).
Proof. intros Hr w e He. apply Hr. exact He. Qed.

Lemma raises_only_batch S fieldnames (loop : M unit) :
  raises_only S loop ->
  raises_only S (emit (EvWriteHeader fieldnames) ;; loop ;; print MsgDone).
Proof.
  intros Hloop. apply raises_only_bind.
  { apply raises_only_total. intros w. cbn. eauto. }
  intros _. apply raises_only_bind; [exact Hloop|].
  intros _. apply raises_only_total. intros w. cbn. eauto.
Qed.

Lemma raises_only_print S m : raises_only S (print m).
Proof. apply raises_only_total. intros w. cbn. eauto. Qed.

Lemma raises_only_properties S (sites : list site_entry) :
  raises_only S (match sites with
                 | [] => ret tt
                 | _ :: _ => print (MsgProperties sites)
                 end).
Proof. apply raises_only_total. intros w. destruct sites; cbn; eauto. Qed.

End Mains.

(** ** What the [main] functions guarantee *)

Lemma compute_previous_period_raises cs ce e :
  compute_previous_period cs ce = Raise e -> e = ValueError \/ e = OverflowError.
Proof.
  unfold compute_previous_period, date_sub_days, date_add_days.
  destruct (date_ltb ce cs); [intros [= <-]; now left|]. cbv zeta.
  repeat match goal with
  | |- context [if ?c then _ else _] => destruct c
  end; intros [= <-]; now right.
Qed.

Lemma earliest_gsc_date_raises d e : earliest_gsc_date d = Raise e -> e = ValueError.
Proof.
  unfold earliest_gsc_date, subtract_months.
  destruct (wrap_month _) as [y m]. unfold date_new.
  destruct (valid_date _); [discriminate | now intros [= <-]].
Qed.

Lemma read_raises fs path e :
  (read_list fs path = Raise e ->
   e = FileNotFoundError \/ exists text, e = OtherException text) /\
  (read_url_list fs path = Raise e ->
   e = FileNotFoundError \/ exists text, e = OtherException text) /\
  (read_urls fs path = Raise e ->
   e = FileNotFoundError \/ exists text, e = OtherException text).
Proof.
  unfold read_list, read_url_list, read_urls.
  destruct (fs !! path) as [[lines|text]|]; repeat split;
    (discriminate || (intros [= <-]; eauto)).
Qed.

Lemma prompt_date_raises answer e : prompt_date answer = Raise e -> e = ValueError.
Proof.
  unfold prompt_date. cbv zeta.
  destruct (_ || _ || _); [now intros [= <-] | discriminate].
Qed.

Lemma prompt_date_ok answer s : prompt_date answer = Ok s -> s = strip answer.
Proof.
  unfold prompt_date. cbv zeta.
  destruct (_ || _ || _); [discriminate | now intros [= <-]].
Qed.

Lemma str_truthy_nonempty (s : pystr) : negb (str_truthy s) = false -> s <> [].
Proof. destruct s; [discriminate | discriminate]. Qed.

Section MainTheorems.
Context `{Service}.

Lemma compare_loop_rows P total i urls w :
  exists t,
    w_trace (snd (compare_loop P total i urls w)) = w_trace w ++ t /\
    (fst (compare_loop P total i urls w) = Ok tt ->
     rows_of_targets "page_url" urls (csv_rows t)).
Proof.
  destruct (compare_loop_effects P total urls i w) as (t & k & Ht & Hk & Hrows & _ & Hres).
  exists t. split; [exact Ht|]. intros Hok. rewrite Hok in Hres. subst k.
  unfold rows_of_targets. now rewrite firstn_all in Hrows.
Qed.

Lemma keyword_loop_rows K keywords w :
  exists t,
    w_trace (snd (keyword_loop K keywords w)) = w_trace w ++ t /\
    (fst (keyword_loop K keywords w) = Ok tt ->
     rows_of_targets "keyword" keywords (csv_rows t)).
Proof.
  destruct (keyword_loop_effects K keywords w) as (t & k & Ht & Hk & Hrows & _ & Hres).
  exists t. split; [exact Ht|]. intros Hok. rewrite Hok in Hres. subst k.
  unfold rows_of_targets. now rewrite firstn_all in Hrows.
Qed.

Lemma indexing_loop_rows site lang total i urls w :
  exists t,
    indexing_loop site lang total i urls w
      = (Ok tt, snd (indexing_loop site lang total i urls w)) /\
    w_trace (snd (indexing_loop site lang total i urls w)) = w_trace w ++ t /\
    rows_of_targets "inspection_url" urls (csv_rows t).
Proof.
  destruct (indexing_loop_effects site lang total urls i w)
    as (w' & t & Hrun & Ht & Hrows & _).
  exists t. rewrite Hrun. repeat split; assumption.
Qed.

Lemma loops_raise_no_HttpError :
  (forall P total i urls, raises_only not_HttpError (compare_loop P total i urls)) /\
  (forall K keywords, raises_only not_HttpError (keyword_loop K keywords)).
Proof.
  split.
  - intros P total i urls w e He.
    destruct (compare_loop_effects P total urls i w) as (t & k & _ & _ & _ & _ & Hres).
    rewrite He in Hres. destruct Hres as [_ [text ->]]. intros h. discriminate.
  - intros K keywords w e He.
    destruct (keyword_loop_effects K keywords w) as (t & k & _ & _ & _ & _ & Hres).
    rewrite He in Hres. destruct Hres as [_ [text ->]]. intros h. discriminate.
Qed.

Lemma caught_listing_raises :
  raises_only not_HttpError
    (try_except_HttpError call_sites_list (fun e => print (MsgCouldNotList e) ;; ret [])).
Proof.
  intros w e. unfold try_except_HttpError, call_sites_list, bind, print, emit, ret.
  destruct (sites_list (w_svc w)) as [[sites|h|text] s1]; cbn; try discriminate.
  intros [= <-] h. discriminate.
Qed.

(** X19: [main] of the comparison script, from the listing of the
    properties on ([get_service] is not modelled). It requests a page or
    writes a row only after every precondition has passed: a property was
    typed, both dates parse, the end is not before the start, both periods
    start on or after the horizon, the URL file could be read and holds at
    least one URL. When it returns it has written one row for each URL of
    the loaded list, in order. An [HttpError], from the listing of the
    properties or from a request for metrics, never ends the run. *)
Theorem main_compare_all_or_nothing (E : env) (a : answers) (w : world) :
  exists t,
    w_trace (snd (main_compare E a w)) = w_trace w ++ t /\
    (touched t ->
     strip (ans_site_url a) <> [] /\
     exists cur_start cur_end prev_start prev_end days earliest u rest,
       parse_yyyy_mm_dd E (strip (ans_cur_start a)) = Ok cur_start /\
       parse_yyyy_mm_dd E (strip (ans_cur_end a)) = Ok cur_end /\
       compute_previous_period cur_start cur_end = Ok (prev_start, prev_end, days) /\
       earliest_gsc_date (today E) = Ok earliest /\
       date_ltb cur_start earliest = false /\
       date_ltb prev_start earliest = false /\
       read_url_list (files E) (urls_file_of a) = Ok (u :: rest)) /\
    (fst (main_compare E a w) = Ok tt ->
     exists urls,
       read_url_list (files E) (urls_file_of a) = Ok urls /\
       rows_of_targets "page_url" urls (csv_rows t)) /\
    (forall h, fst (main_compare E a w) <> Raise (HttpError h)).
Proof.
  assert (Hno : raises_only not_HttpError (main_compare E a)).
  { unfold main_compare.
    apply raises_only_bind; [apply caught_listing_raises|]. intros sites.
    apply raises_only_bind; [apply raises_only_properties|].
    intros _. destruct (negb _); [apply raises_only_raise; intros h; discriminate|].
    apply raises_only_bind.
    { apply raises_only_lift. unfold parse_yyyy_mm_dd.
      destruct (strptime_ymd E _); [discriminate | intros e [= <-] h; discriminate]. }
    intros cur_start. apply raises_only_bind.
    { apply raises_only_lift. unfold parse_yyyy_mm_dd.
      destruct (strptime_ymd E _); [discriminate | intros e [= <-] h; discriminate]. }
    intros cur_end. apply raises_only_bind.
    { apply raises_only_lift. intros e He h.
      destruct (compute_previous_period_raises _ _ _ He) as [->| ->]; discriminate. }
    intros [[prev_start prev_end] days]. apply raises_only_bind.
    { unfold enforce_16_month_window. apply raises_only_bind.
      - apply raises_only_lift. intros e He h.
        rewrite (earliest_gsc_date_raises _ _ He). discriminate.
      - intros earliest. destruct (_ || _).
        + apply raises_only_bind; [apply raises_only_print|].
          intros _. apply raises_only_raise. intros h. discriminate.
        + apply raises_only_total. intros w0. cbn. eauto. }
    intros _. apply raises_only_bind; [apply raises_only_print|].
    intros _. cbv zeta. apply raises_only_bind.
    { apply raises_only_lift. intros e He h.
      destruct (proj1 (proj2 (read_raises _ _ _)) He) as [->|[text ->]]; discriminate. }
    intros urls. destruct urls as [|u rest];
      [apply raises_only_raise; intros h; discriminate|].
    apply raises_only_batch. apply loops_raise_no_HttpError. }
  assert (Haon : all_or_nothing
    (strip (ans_site_url a) <> [] /\
     exists cur_start cur_end prev_start prev_end days earliest u rest,
       parse_yyyy_mm_dd E (strip (ans_cur_start a)) = Ok cur_start /\
       parse_yyyy_mm_dd E (strip (ans_cur_end a)) = Ok cur_end /\
       compute_previous_period cur_start cur_end = Ok (prev_start, prev_end, days) /\
       earliest_gsc_date (today E) = Ok earliest /\
       date_ltb cur_start earliest = false /\
       date_ltb prev_start earliest = false /\
       read_url_list (files E) (urls_file_of a) = Ok (u :: rest))
    (fun rows => exists urls,
       read_url_list (files E) (urls_file_of a) = Ok urls /\
       rows_of_targets "page_url" urls rows)
    (main_compare E a)).
  { unfold main_compare.
    apply all_or_nothing_bind; [apply quiet_listing|]. intros sites.
    apply all_or_nothing_bind; [destruct sites; [apply quiet_ret | apply quiet_print]|].
    intros _. destruct (negb _) eqn:Hsite; [apply all_or_nothing_raise|].
    apply str_truthy_nonempty in Hsite.
    apply all_or_nothing_lift. intros cur_start Hcs.
    apply all_or_nothing_lift. intros cur_end Hce.
    apply all_or_nothing_lift. intros [[prev_start prev_end] days] Hprev.
    apply all_or_nothing_enforce. intros earliest Hearliest Hc Hp.
    apply all_or_nothing_bind; [apply quiet_print|]. intros _.
    fold (urls_file_of a). cbv zeta.
    apply all_or_nothing_lift. intros urls Hurls.
    destruct urls as [|u rest]; [apply all_or_nothing_raise|].
    apply all_or_nothing_batch.
    - split; [exact Hsite|]. eauto 15.
    - intros w0.
      destruct (compare_loop_rows
                  (mk_periods (strip (ans_site_url a)) (strip (ans_cur_start a))
                     (strip (ans_cur_end a)) (isoformat prev_start) (isoformat prev_end))
                  (Z.of_nat (length (u :: rest))) 1 (u :: rest) w0) as (t & Ht & Hrows).
      exists t. split; [exact Ht|]. eauto. }
  destruct (Haon w) as (t & Ht & Hg & Hres).
  exists t. split; [exact Ht|]. split; [exact Hg|]. split; [exact Hres|].
  intros h Hraise. exact (Hno w _ Hraise h eq_refl).
Qed.

(** X20: [main] of the keyword script, from the listing of the properties
    on ([get_service] is not modelled). It sends a query or writes a row
    only after every precondition has passed: a property was typed, both
    answers have the shape of a date, the match type is [equals] or
    [contains] (once lowered, [equals] when left empty), the keyword file
    could be read and holds at least one keyword. When it returns it has
    written one row for each keyword of the loaded list, in order. Unlike
    the other two scripts it does not catch a failure to list the
    properties: the run ends with an [HttpError] exactly when the listing
    raised it. *)
Theorem main_keyword_all_or_nothing (lower : pystr -> pystr) (E : env)
    (a : keyword_answers) (w : world) :
  let keywords_file := str_or (strip (kans_keywords_file a)) (of_string "input/keywords.txt") in
  let match_type := str_or (lower (strip (kans_match_type a))) (of_string "equals") in
  exists t,
    w_trace (snd (main_keyword lower E a w)) = w_trace w ++ t /\
    (touched t ->
     strip (kans_site_url a) <> [] /\
     prompt_date (kans_start_date a) = Ok (strip (kans_start_date a)) /\
     prompt_date (kans_end_date a) = Ok (strip (kans_end_date a)) /\
     (match_type = of_string "equals" \/ match_type = of_string "contains") /\
     exists kw rest, read_list (files E) keywords_file = Ok (kw :: rest)) /\
    (fst (main_keyword lower E a w) = Ok tt ->
     exists keywords,
       read_list (files E) keywords_file = Ok keywords /\
       rows_of_targets "keyword" keywords (csv_rows t)) /\
    (forall h, fst (main_keyword lower E a w) = Raise (HttpError h) <->
               fst (sites_list (w_svc w)) = Failure h).
Proof.
  cbv zeta.
  assert (Hno : forall sites, raises_only not_HttpError
    ((match sites with
      | [] => ret tt
      | _ :: _ => print (MsgProperties sites)
      end) ;;
     let site_url := strip (kans_site_url a) in
     if negb (str_truthy site_url) then raise (SystemExit ExitNoSiteUrl)
     else
       start_date <- lift (prompt_date (kans_start_date a)) ;;
       end_date <- lift (prompt_date (kans_end_date a)) ;;
       let keywords_file :=
         str_or (strip (kans_keywords_file a)) (of_string "input/keywords.txt") in
       let match_type := str_or (lower (strip (kans_match_type a))) (of_string "equals") in
       if negb (bool_decide (match_type = of_string "equals")
                || bool_decide (match_type = of_string "contains"))
       then raise ValueError
       else
         keywords <- lift (read_list (files E) keywords_file) ;;
         match keywords with
         | [] => raise (SystemExit ExitNoTargets)
         | _ :: _ =>
             let K := mk_keyword_run site_url start_date end_date match_type in
             emit (EvWriteHeader keyword_fieldnames) ;;
             keyword_loop K keywords ;;
             print MsgDone
         end)).
  { intros sites.
    apply raises_only_bind; [apply raises_only_properties|].
    intros _. cbv zeta. destruct (negb _); [apply raises_only_raise; intros h; discriminate|].
    apply raises_only_bind.
    { apply raises_only_lift. intros e He h. rewrite (prompt_date_raises _ _ He). discriminate. }
    intros start_date. apply raises_only_bind.
    { apply raises_only_lift. intros e He h. rewrite (prompt_date_raises _ _ He). discriminate. }
    intros end_date. destruct (negb _); [apply raises_only_raise; intros h; discriminate|].
    apply raises_only_bind.
    { apply raises_only_lift. intros e He h.
      destruct (proj1 (read_raises _ _ _) He) as [->|[text ->]]; discriminate. }
    intros keywords. destruct keywords as [|kw rest];
      [apply raises_only_raise; intros h; discriminate|].
    apply raises_only_batch. apply loops_raise_no_HttpError. }
  assert (Haon : all_or_nothing
    (strip (kans_site_url a) <> [] /\
     prompt_date (kans_start_date a) = Ok (strip (kans_start_date a)) /\
     prompt_date (kans_end_date a) = Ok (strip (kans_end_date a)) /\
     (str_or (lower (strip (kans_match_type a))) (of_string "equals") = of_string "equals" \/
      str_or (lower (strip (kans_match_type a))) (of_string "equals")
        = of_string "contains") /\
     exists kw rest,
       read_list (files E)
         (str_or (strip (kans_keywords_file a)) (of_string "input/keywords.txt"))
       = Ok (kw :: rest))
    (fun rows => exists keywords,
       read_list (files E)
         (str_or (strip (kans_keywords_file a)) (of_string "input/keywords.txt"))
       = Ok keywords /\
       rows_of_targets "keyword" keywords rows)
    (main_keyword lower E a)).
  { unfold main_keyword.
    apply all_or_nothing_bind; [apply quiet_listing|]. intros sites.
    apply all_or_nothing_bind; [destruct sites; [apply quiet_ret | apply quiet_print]|].
    intros _. cbv zeta. destruct (negb _) eqn:Hsite; [apply all_or_nothing_raise|].
    apply str_truthy_nonempty in Hsite.
    apply all_or_nothing_lift. intros start_date Hstart.
    apply all_or_nothing_lift. intros end_date Hend.
    destruct (negb _) eqn:Hmatch; [apply all_or_nothing_raise|].
    apply negb_false_iff, orb_true_iff in Hmatch.
    apply all_or_nothing_lift. intros keywords Hkeywords.
    destruct keywords as [|kw rest]; [apply all_or_nothing_raise|].
    apply all_or_nothing_batch.
    - split; [exact Hsite|].
      rewrite <- (prompt_date_ok _ _ Hstart), <- (prompt_date_ok _ _ Hend).
      split; [exact Hstart|]. split; [exact Hend|]. split; [|eauto].
      destruct Hmatch as [Hm|Hm]; apply bool_decide_eq_true in Hm; tauto.
    - intros w0.
      match goal with |- context [keyword_loop ?K ?l w0] =>
        destruct (keyword_loop_rows K l w0) as (t & Ht & Hrows)
      end.
      exists t. split; [exact Ht|]. eauto. }
  destruct (Haon w) as (t & Ht & Hg & Hres).
  exists t. split; [exact Ht|]. split; [exact Hg|]. split; [exact Hres|].
  intros h. unfold main_keyword, bind at 1, call_sites_list.
  specialize (Hno).
  destruct (sites_list (w_svc w)) as [[sites|h'|text] s1]; cbn [fst].
  - split; [|discriminate]. intros Hraise.
    exact (False_ind _ (Hno sites _ _ Hraise h eq_refl)).
  - split; intros [= ->]; reflexivity.
  - split; discriminate.
Qed.

Lemma read_urls_or_exit_cases fs path (w : world) :
  (exists urls, read_urls fs path = Ok urls /\ read_urls_or_exit fs path w = (Ok urls, w)) \/
  ((forall urls, read_urls fs path <> Ok urls) /\
   read_urls_or_exit fs path w = (Raise (SystemExit (ExitCode 1)), w)).
Proof.
  unfold read_urls_or_exit, read_urls.
  destruct (fs !! path) as [[lines|text]|];
    [left; eauto | right; split; [discriminate|reflexivity]..].
Qed.

Lemma all_or_nothing_read_urls G R fs path (k : list pystr -> M unit) :
  (forall urls, read_urls fs path = Ok urls -> all_or_nothing G R (k urls)) ->
  all_or_nothing G R (bind (read_urls_or_exit fs path) k).
Proof.
  intros Hk w. unfold bind.
  destruct (read_urls_or_exit_cases fs path w) as [(urls & Hurls & ->)|[_ ->]].
  - apply (Hk urls Hurls).
  - apply (all_or_nothing_raise G R (SystemExit (ExitCode 1)) w).
Qed.

(** X21: [main] of the inspection script, from the listing of the
    properties on ([get_service] is not modelled). It inspects a URL or
    writes a row only after a property was typed and the URL file was read
    and held at least one URL. When it returns it has written one row for
    each URL of the loaded list, in order. No [HttpError] leaves it. An
    exception of the listing of the properties that is not an [HttpError]
    leaves it as it is (the listing is inside [except HttpError] only);
    when the listing raises no such exception, an empty property, a URL
    file that cannot be read and a URL file without a URL each end the run
    with [SystemExit(1)]. *)
Theorem main_indexing_all_or_nothing (E : env) (a : indexing_answers) (w : world) :
  let urls_file := str_or (strip (ians_urls_file a)) (of_string "input/urls.txt") in
  exists t,
    w_trace (snd (main_indexing E a w)) = w_trace w ++ t /\
    (touched t ->
     strip (ians_site_url a) <> [] /\
     exists u rest, read_urls (files E) urls_file = Ok (u :: rest)) /\
    (fst (main_indexing E a w) = Ok tt ->
     exists urls,
       read_urls (files E) urls_file = Ok urls /\
       rows_of_targets "inspection_url" urls (csv_rows t)) /\
    (forall h, fst (main_indexing E a w) <> Raise (HttpError h)) /\
    (forall text,
       fst (sites_list (w_svc w)) = Crashed text ->
       fst (main_indexing E a w) = Raise (OtherException text)) /\
    ((forall text, fst (sites_list (w_svc w)) <> Crashed text) ->
     strip (ians_site_url a) = [] \/
     (forall u rest, read_urls (files E) urls_file <> Ok (u :: rest)) ->
     fst (main_indexing E a w) = Raise (SystemExit (ExitCode 1))).
Proof.
  cbv zeta.
  assert (Haon : all_or_nothing
    (strip (ians_site_url a) <> [] /\
     exists u rest,
       read_urls (files E) (str_or (strip (ians_urls_file a)) (of_string "input/urls.txt"))
       = Ok (u :: rest))
    (fun rows => exists urls,
       read_urls (files E) (str_or (strip (ians_urls_file a)) (of_string "input/urls.txt"))
       = Ok urls /\
       rows_of_targets "inspection_url" urls rows)
    (main_indexing E a)).
  { unfold main_indexing.
    apply all_or_nothing_bind; [apply quiet_listing|]. intros sites.
    apply all_or_nothing_bind; [destruct sites; [apply quiet_ret | apply quiet_print]|].
    intros _. cbv zeta. destruct (negb _) eqn:Hsite; [apply all_or_nothing_raise|].
    apply str_truthy_nonempty in Hsite.
    apply all_or_nothing_read_urls. intros urls Hurls.
    destruct urls as [|u rest]; [apply all_or_nothing_raise|].
    apply all_or_nothing_batch.
    - split; [exact Hsite|]. eauto.
    - intros w0.
      match goal with |- context [indexing_loop ?s ?l ?n ?i ?us w0] =>
        destruct (indexing_loop_rows s l n i us w0) as (t & _ & Ht & Hrows)
      end.
      exists t. split; [exact Ht|]. eauto. }
  (* what follows the listing *)
  assert (Hrest : forall sites w1,
    let rest_of_main :=
      ((match sites with
        | [] => ret tt
        | _ :: _ => print (MsgProperties sites)
        end) ;;
       let site_url := strip (ians_site_url a) in
       if negb (str_truthy site_url) then sys_exit_1
       else
         let urls_file := str_or (strip (ians_urls_file a)) (of_string "input/urls.txt") in
         let language_code := str_or (strip (ians_language_code a)) (of_string "en-US") in
         urls <- read_urls_or_exit (files E) urls_file ;;
         match urls with
         | [] => sys_exit_1
         | _ :: _ =>
             emit (EvWriteHeader indexing_fieldnames) ;;
             indexing_loop site_url language_code (Z.of_nat (length urls)) 1 urls ;;
             print MsgDone
         end) in
    exists res w',
      rest_of_main w1 = (res, w') /\
      (forall e, res = Raise e -> e = SystemExit (ExitCode 1)) /\
      (res = Ok tt <->
       strip (ians_site_url a) <> [] /\
       exists u rest,
         read_urls (files E) (str_or (strip (ians_urls_file a)) (of_string "input/urls.txt"))
         = Ok (u :: rest))).
  { intros sites w1. cbv zeta. unfold bind at 1.
    assert (Hprint : exists w2,
      match sites with [] => ret tt | _ :: _ => print (MsgProperties sites) end w1
      = (Ok tt, w2)).
    { destruct sites; cbn; eauto. }
    destruct Hprint as (w2 & ->).
    destruct (strip (ians_site_url a)) as [|c site] eqn:Hsite.
    { eexists _, _. split; [reflexivity|]. split; [now intros e [= <-]|].
      split; [discriminate | intros [Hne _]; now destruct Hne]. }
    cbn [str_truthy negb]. unfold bind at 1.
    destruct (read_urls_or_exit_cases (files E)
                (str_or (strip (ians_urls_file a)) (of_string "input/urls.txt")) w2)
      as [(urls & Hurls & Hrun)|[Hno Hrun]]; rewrite Hrun.
    - destruct urls as [|u rest].
      { eexists _, _. split; [reflexivity|]. split; [now intros e [= <-]|].
        split; [discriminate|]. intros [_ (u & rest & Hread)].
        rewrite Hread in Hurls. discriminate Hurls. }
      unfold bind, emit at 1. cbn [w_svc w_trace].
      match goal with |- context [indexing_loop ?s ?l ?n ?i ?us ?w0] =>
        destruct (indexing_loop_rows s l n i us w0) as (t & Hloop & _)
      end.
      rewrite Hloop. eexists _, _. split; [reflexivity|].
      split; [discriminate|]. split; [intros _; split; [discriminate | eauto]|].
      reflexivity.
    - eexists _, _. split; [reflexivity|]. split; [now intros e [= <-]|].
      split; [discriminate|]. intros [_ (u & rest & Hread)].
      now destruct (Hno (u :: rest)). }
  destruct (Haon w) as (t & Ht & Hg & Hres).
  exists t. split; [exact Ht|]. split; [exact Hg|]. split; [exact Hres|].
  assert (Hends :
    (forall e, fst (main_indexing E a w) = Raise e ->
       e = SystemExit (ExitCode 1) \/
       exists text, fst (sites_list (w_svc w)) = Crashed text /\ e = OtherException text) /\
    ((forall text, fst (sites_list (w_svc w)) <> Crashed text) ->
     (fst (main_indexing E a w) = Ok tt <->
      strip (ians_site_url a) <> [] /\
      exists u rest,
        read_urls (files E) (str_or (strip (ians_urls_file a)) (of_string "input/urls.txt"))
        = Ok (u :: rest)))); cycle 1.
  { destruct Hends as [Hraise Hiff]. split; [|split].
    - intros h Hh. destruct (Hraise _ Hh) as [Hx|(text & _ & Hx)]; discriminate Hx.
    - intros text Hl. unfold main_indexing, bind at 1, try_except_HttpError, call_sites_list.
      destruct (sites_list (w_svc w)) as [[sites|h|text'] s1]; cbn [fst] in *;
        try discriminate Hl.
      injection Hl as ->. reflexivity.
    - intros Hl Hpre. destruct (fst (main_indexing E a w)) as [[]|e0] eqn:Hfst.
      + destruct (proj1 (Hiff Hl) eq_refl) as (Hsite & u & rest & Hread).
        destruct Hpre as [Hpre|Hpre]; [now destruct Hsite | now destruct (Hpre u rest)].
      + destruct (Hraise e0 eq_refl) as [->|(text & Hc & _)]; [reflexivity|].
        now destruct (Hl text). }
  destruct (fst (main_indexing E a w)) as [[]|e0] eqn:Hfst.
  - split; [discriminate|]. intros Hl. split; [|reflexivity]. intros _.
    revert Hfst. unfold main_indexing, bind at 1, try_except_HttpError, call_sites_list.
    destruct (sites_list (w_svc w)) as [[sites|h|text] s1]; cbn [fst] in *.
    + match goal with |- context [mk_world s1 ?tr] =>
        destruct (Hrest sites (mk_world s1 tr)) as (res & w' & Hrun & _ & Hiff)
      end.
      cbv zeta in Hrun. rewrite Hrun. cbn [fst]. intros ->. now apply Hiff.
    + unfold bind at 1, print at 1, emit at 1, ret at 1. cbn [w_svc w_trace].
      match goal with |- context [mk_world s1 ?tr] =>
        destruct (Hrest [] (mk_world s1 tr)) as (res & w' & Hrun & _ & Hiff)
      end.
      cbv zeta in Hrun. rewrite Hrun. cbn [fst]. intros ->. now apply Hiff.
    + now destruct (Hl text).
  - revert Hfst. unfold main_indexing, bind at 1, try_except_HttpError, call_sites_list.
    destruct (sites_list (w_svc w)) as [[sites|h|text] s1]; cbn [fst] in *.
    + match goal with |- context [mk_world s1 ?tr] =>
        destruct (Hrest sites (mk_world s1 tr)) as (res & w' & Hrun & Hraise & Hiff)
      end.
      cbv zeta in Hrun. rewrite Hrun. cbn [fst]. intros ->.
      split; [intros e [= <-]; left; now apply Hraise|].
      intros _. split; [discriminate|]. intros Hok. apply Hiff in Hok. discriminate.
    + unfold bind at 1, print at 1, emit at 1, ret at 1. cbn [w_svc w_trace].
      match goal with |- context [mk_world s1 ?tr] =>
        destruct (Hrest [] (mk_world s1 tr)) as (res & w' & Hrun & Hraise & Hiff)
      end.
      cbv zeta in Hrun. rewrite Hrun. cbn [fst]. intros ->.
      split; [intros e [= <-]; left; now apply Hraise|].
      intros _. split; [discriminate|]. intros Hok. apply Hiff in Hok. discriminate.
    + intros [= <-]. split; [intros e [= <-]; right; eauto|].
      intros Hl. now destruct (Hl text).
Qed.

End MainTheorems.

(** ** Inspection rows and pauses *)

Lemma str_of_nat_nonempty n : str_of_nat n <> [].
Proof.
  unfold str_of_nat, NilZero.string_of_uint.
  destruct (Nat.to_uint n); cbn; discriminate.
Qed.

Section InspectionRows.
Context `{Service}.

(** X22: the [error] column of the inspection report tells a failed
    inspection from an answered one. The row of an answered URL has the
    column empty and a count of referring URLs that is never empty (the
    count of the reply, [0] when the reply has no result or no list); the
    row of a failed one, [HttpError] or any other exception, has the column
    filled and every result column empty. Both carry the property. *)
Theorem inspection_row_error_column site lang total i u w :
  exists w' t r,
    indexing_item site lang total i u w = (Ok tt, w') /\
    w_trace w' = w_trace w ++ t /\
    csv_rows t = [r] /\
    r !! "site_url"%string = Some (CStr site) /\
    match fst (index_inspect (mk_inspect_body u site lang) (w_svc w)) with
    | InspectReply resp =>
        let index_result := default (mk_index_status ∅ None) (indexStatusResult resp) in
        let count := str_of_nat (length (default [] (referringUrls index_result))) in
        has_error_marker r = false /\
        r !! "referring_urls_count"%string = Some (CStr count) /\ count <> [] /\
        forall k col, In (k, col)
            [("verdict", "verdict"); ("coverageState", "coverage_state");
             ("indexingState", "indexing_state"); ("robotsTxtState", "robots_txt_state");
             ("pageFetchState", "page_fetch_state"); ("crawledAs", "crawled_as");
             ("lastCrawlTime", "last_crawl_time"); ("googleCanonical", "canonical_google");
             ("userCanonical", "canonical_user")]%string ->
          r !! col = Some (CStr (default [] (status_fields index_result !! k)))
    | _ =>
        has_error_marker r = true /\ all_empty indexing_result_fields r
    end.
Proof.
  rewrite indexing_item_run. cbv zeta.
  destruct (progress_events_quiet total i) as (Hc & Hs & _).
  destruct (index_inspect _ (w_svc w)) as [[resp|e|text] s1]; cbn [fst snd];
    eexists _, _, _; (split; [reflexivity|]); (split; [reflexivity|]);
    rewrite !csv_rows_app, ?Hc.
  - split; [reflexivity|]. split; [reflexivity|].
    split; [reflexivity|]. split; [reflexivity|].
    split; [apply str_of_nat_nonempty|].
    intros k col Hin. cbn [In] in Hin.
    repeat (destruct Hin as [[= <- <-]|Hin]; [reflexivity|]). destruct Hin.
  - split.
    { unfold backoff_events. destruct (is_transient _); cbn; rewrite ?Hc; reflexivity. }
    split; [reflexivity|]. split; [reflexivity|].
    apply indexing_error_row_empty.
  - split; [reflexivity|]. split; [reflexivity|]. split; [reflexivity|].
    apply indexing_error_row_empty.
Qed.

End InspectionRows.

Lemma backoff_exact i : (backoff i == 1 + inject_Z (i mod 5) * (3 # 2))%Q.
Proof.
  pose proof (Z.mod_pos_bound i 5 ltac:(lia)) as Hm.
  assert (Hc : i mod 5 = 0 \/ i mod 5 = 1 \/ i mod 5 = 2 \/ i mod 5 = 3 \/ i mod 5 = 4)
    by lia.
  unfold backoff.
  destruct Hc as [->|[->|[->|[->| ->]]]]; vm_compute; reflexivity.
Qed.

Lemma fold_pause_app (a b : list Q) :
  (fold_right Qplus 0 (a ++ b) == fold_right Qplus 0 a + fold_right Qplus 0 b)%Q.
Proof.
  induction a as [|x a IH]; cbn [app fold_right].
  - ring.
  - rewrite IH. ring.
Qed.

Lemma item_pauses_bounds i r :
  (delay_seconds <= fold_right Qplus 0 (item_pauses i r))%Q /\
  (fold_right Qplus 0 (item_pauses i r) <= 7 + delay_seconds)%Q /\
  (transient_reply r = false -> fold_right Qplus 0 (item_pauses i r) == delay_seconds)%Q /\
  (transient_reply r = true -> 1 + delay_seconds <= fold_right Qplus 0 (item_pauses i r))%Q.
Proof.
  destruct (backoff_bounds i) as (Hlo & Hhi & _).
  unfold delay_seconds in *.
  destruct r as [resp|e|text]; cbn [item_pauses transient_reply].
  2: destruct (is_transient (status_code e)).
  all: cbn [fold_right]; unfold delay_seconds; repeat split; intros; try congruence; lra.
Qed.

Lemma batch_pauses_bounds rs : forall i,
  (inject_Z (Z.of_nat (length rs)) * delay_seconds
     <= fold_right Qplus 0 (batch_pauses i rs))%Q /\
  (fold_right Qplus 0 (batch_pauses i rs)
     <= inject_Z (Z.of_nat (length rs)) * (7 + delay_seconds))%Q /\
  (Forall (fun r => transient_reply r = false) rs ->
     fold_right Qplus 0 (batch_pauses i rs)
       == inject_Z (Z.of_nat (length rs)) * delay_seconds)%Q.
Proof.
  induction rs as [|r rest IH]; intros i.
  - cbn [batch_pauses length fold_right]. change (inject_Z (Z.of_nat 0)) with 0%Q.
    split; [lra|]. split; [lra|]. intros _. ring.
  - destruct (IH (i + 1)) as (Hlo & Hhi & Hq).
    destruct (item_pauses_bounds i r) as (Ilo & Ihi & Iq & _).
    cbn [batch_pauses length].
    assert (Hn : (inject_Z (Z.of_nat (S (length rest)))
                  == inject_Z (Z.of_nat (length rest)) + 1)%Q).
    { replace (Z.of_nat (S (length rest))) with (Z.of_nat (length rest) + 1) by lia.
      rewrite inject_Z_plus. reflexivity. }
    split; [|split].
    + rewrite fold_pause_app. unfold delay_seconds in *. lra.
    + rewrite fold_pause_app. unfold delay_seconds in *. lra.
    + intros Hall. inversion Hall as [|? ? Hr Hrest]; subst.
      rewrite fold_pause_app, (Iq Hr), (Hq Hrest), Hn. ring.
Qed.

Section PauseTotals.
Context `{Service}.

Lemma inspect_replies_length site lang urls : forall s,
  length (inspect_replies site lang urls s) = length urls.
Proof.
  induction urls as [|u rest IH]; intros s; cbn [inspect_replies]; [reflexivity|].
  destruct (index_inspect _ s) as [r s']. cbn [length]. now rewrite IH.
Qed.

(** X23: the time an inspection batch of [n] URLs spends sleeping is
    between [0.15 n] and [7.15 n] seconds, and exactly [0.15 n] when no
    reply is an [HttpError] with status 429, 500 or 503. The back-off of
    target [i] is [1 + 1.5 (i mod 5)] seconds: the cap of 10 seconds in
    [min(10, ...)] is never reached, the longest back-off is 7 seconds and
    every fifth target backs off for 1 second only. *)
Theorem inspection_pause_total site lang total i (urls : list pystr) w :
  let n := inject_Z (Z.of_nat (length urls)) in
  (exists w' t,
     indexing_loop site lang total i urls w = (Ok tt, w') /\
     w_trace w' = w_trace w ++ t /\
     (n * (15 # 100) <= total_pause t)%Q /\
     (total_pause t <= n * (715 # 100))%Q /\
     (Forall (fun r => transient_reply r = false)
        (inspect_replies site lang urls (w_svc w)) ->
      total_pause t == n * (15 # 100))%Q) /\
  (forall j, backoff j == 1 + inject_Z (j mod 5) * (3 # 2))%Q /\
  (forall j, backoff j <= 7)%Q /\
  (forall j, j mod 5 = 0 -> (backoff j == 1)%Q).
Proof.
  cbv zeta. split; [|split; [|split]].
  - destruct (indexing_loop_effects site lang total urls i w)
      as (w' & t & Hrun & Ht & _ & Hs).
    exists w', t. split; [exact Hrun|]. split; [exact Ht|].
    unfold total_pause. rewrite Hs.
    destruct (batch_pauses_bounds (inspect_replies site lang urls (w_svc w)) i)
      as (Hlo & Hhi & Hq).
    rewrite inspect_replies_length in Hlo, Hhi, Hq. unfold delay_seconds in *.
    split; [exact Hlo|]. split; [|exact Hq].
    eapply Qle_trans; [exact Hhi|]. apply Qle_lteq. right. ring.
  - apply backoff_exact.
  - intros j. apply backoff_bounds.
  - intros j Hj. rewrite backoff_exact, Hj. reflexivity.
Qed.

End PauseTotals.
